(** * Subtitle-Birth / VideoComm: the caption pipeline and the job registry

    A shallow embedding of [app/pipeline.py] and [app/main.py].

    - Python [str] values are lists of Unicode code points ([N]); the
      predicates [str.isspace] and [str.isdigit] are the tables of
      CPython 3.11 (Unicode 14).
    - Python [float] values are IEEE 754 binary64 numbers, taken from the
      standard library's [SpecFloat] specification ([prec = 53],
      [emax = 1024]); Python [int] values are [Z].
    - Python exceptions are values of type [exn]; a call that may raise
      returns a [result].
    - The external collaborators (Whisper, Gemini, ffmpeg, uuid4) are
      inputs of the model: their outcomes are arguments or section
      variables, never fixed by the model. *)

From Stdlib Require Import ZArith NArith Lia String Ascii SpecFloat.
From stdpp Require Import base list gmap.

Local Open Scope Z_scope.

(* ===================================================================== *)
(** * Python values *)
(* ===================================================================== *)

Abbreviation pystr := (list N).

(** A Python string constant, written as a Rocq string literal (ASCII). *)
Definition py (s : string) : pystr :=
  List.map N_of_ascii (list_ascii_of_string s).
Arguments py : simpl never.

Inductive exn_kind :=
  | RuntimeError | ValueError | OverflowError | OtherError.

(** An exception object: its class and [str(e)]. *)
Record exn := mkExn { exn_class : exn_kind; exn_msg : pystr }.

Inductive result (A : Type) :=
  | Ok (a : A)
  | Raise (e : exn).
Arguments Ok {A} a.
Arguments Raise {A} e.

Module Py.

(** ** Character classes *)

Definition in_ranges (tbl : list (N * N)) (c : N) : bool :=
  existsb (fun r => (fst r <=? c)%N && (c <=? snd r)%N) tbl.

(** [str.isspace] on one character. *)
Definition space_table : list (N * N) :=
  [ (9, 13); (28, 32); (133, 133); (160, 160); (5760, 5760);
    (8192, 8202); (8232, 8233); (8239, 8239); (8287, 8287);
    (12288, 12288) ]%N.

Definition isspace_char : N -> bool := in_ranges space_table.

(** [str.isdigit] on one character (Numeric_Type Digit or Decimal). *)
Definition digit_table : list (N * N) :=
  [ (48, 57); (178, 179); (185, 185); (1632, 1641); (1776, 1785);
    (1984, 1993); (2406, 2415); (2534, 2543); (2662, 2671);
    (2790, 2799); (2918, 2927); (3046, 3055); (3174, 3183);
    (3302, 3311); (3430, 3439); (3558, 3567); (3664, 3673);
    (3792, 3801); (3872, 3881); (4160, 4169); (4240, 4249);
    (4969, 4977); (6112, 6121); (6160, 6169); (6470, 6479);
    (6608, 6618); (6784, 6793); (6800, 6809); (6992, 7001);
    (7088, 7097); (7232, 7241); (7248, 7257); (8304, 8304);
    (8308, 8313); (8320, 8329); (9312, 9320); (9332, 9340);
    (9352, 9360); (9450, 9450); (9461, 9469); (9471, 9471);
    (10102, 10110); (10112, 10120); (10122, 10130); (42528, 42537);
    (43216, 43225); (43264, 43273); (43472, 43481); (43504, 43513);
    (43600, 43609); (44016, 44025); (65296, 65305); (66720, 66729);
    (68160, 68163); (68912, 68921); (69216, 69224); (69714, 69722);
    (69734, 69743); (69872, 69881); (69942, 69951); (70096, 70105);
    (70384, 70393); (70736, 70745); (70864, 70873); (71248, 71257);
    (71360, 71369); (71472, 71481); (71904, 71913); (72016, 72025);
    (72784, 72793); (73040, 73049); (73120, 73129); (92768, 92777);
    (92864, 92873); (93008, 93017); (120782, 120831);
    (123200, 123209); (123632, 123641); (125264, 125273);
    (127232, 127242); (130032, 130041) ]%N.

Definition isdigit_char : N -> bool := in_ranges digit_table.

(** Named characters. *)
Definition LF : N := 10%N.
Definition SP : N := 32%N.
Definition DOT : N := 46%N.
Definition SLASH : N := 47%N.
Definition COLON : N := 58%N.
Definition COMMA : N := 44%N.

(** ** String methods *)

(** Truthiness of a string or of a list: [bool(s)]. *)
Definition nonempty {A : Type} (s : list A) : bool :=
  match s with [] => false | _ => true end.

(** [s.lstrip(chars)] for a character class [p]. *)
Fixpoint lstrip_with (p : N -> bool) (s : pystr) : pystr :=
  match s with
  | [] => []
  | c :: s' => if p c then lstrip_with p s' else s
  end.

(** [s.rstrip(chars)] for a character class [p]. *)
Fixpoint rstrip_with (p : N -> bool) (s : pystr) : pystr :=
  match s with
  | [] => []
  | c :: s' =>
      match rstrip_with p s' with
      | [] => if p c then [] else [c]
      | r => c :: r
      end
  end.

(** [s.strip()]. *)
Definition strip (s : pystr) : pystr :=
  rstrip_with isspace_char (lstrip_with isspace_char s).

(** [s.split(sep)] for a separator of one character: never empty. *)
Fixpoint split (sep : N) (s : pystr) : list pystr :=
  match s with
  | [] => [[]]
  | c :: s' =>
      if (c =? sep)%N then [] :: split sep s'
      else match split sep s' with
           | [] => [[c]]
           | h :: t => (c :: h) :: t
           end
  end.

(** [sep.join(parts)]. *)
Fixpoint join (sep : pystr) (parts : list pystr) : pystr :=
  match parts with
  | [] => []
  | x :: rest =>
      match rest with
      | [] => x
      | _ => x ++ sep ++ join sep rest
      end
  end.

(** [s.isdigit()]: false on the empty string. *)
Definition isdigit (s : pystr) : bool :=
  nonempty s && forallb isdigit_char s.

(** [s.startswith(prefix)]. *)
Fixpoint startswith (s prefix : pystr) : bool :=
  match prefix, s with
  | [], _ => true
  | p :: prefix', c :: s' => (c =? p)%N && startswith s' prefix'
  | _ :: _, [] => false
  end.

(** [s.rfind(c)] for one character: the index of the last occurrence. *)
Fixpoint rfind (c : N) (s : pystr) : option nat :=
  match s with
  | [] => None
  | x :: s' =>
      match rfind c s' with
      | Some i => Some (S i)
      | None => if (x =? c)%N then Some O else None
      end
  end.

(** ** Integers as text *)

Definition digit_char (d : Z) : N := (48 + Z.to_N d)%N.

Fixpoint dec_digits (fuel : nat) (n : Z) : pystr :=
  match fuel with
  | O => []
  | S f =>
      if n <? 10 then [digit_char n]
      else dec_digits f (n / 10) ++ [digit_char (n mod 10)]
  end.

(** The decimal digits of a non-negative integer. *)
Definition dec (n : Z) : pystr :=
  dec_digits (S (Z.to_nat (Z.log2 n))) n.

Definition MINUS : N := 45%N.
Definition ZERO : N := 48%N.

(** [str(n)], also [f"{n}"]. *)
Definition str_of_int (n : Z) : pystr :=
  if n <? 0 then MINUS :: dec (- n) else dec n.

(** [f"{n:0{w}d}"]: sign first, then zeros up to the width. *)
Definition format_0d (w : nat) (n : Z) : pystr :=
  if n <? 0 then
    let d := dec (- n) in
    MINUS :: replicate (w - 1 - length d) ZERO ++ d
  else
    let d := dec n in
    replicate (w - length d) ZERO ++ d.

(** ** Floats *)

Abbreviation float := spec_float.

Definition fmul : float -> float -> float := SFmul 53 1024.

(** The float [1000.0] = 1000 * 2^0 = 8796093022208000 * 2^-43. *)
Definition f1000 : float := S754_finite false 8796093022208000 (-43).

Definition fzero : float := S754_zero false.

(** Truthiness of a float: [bool(x)]; only the two zeros are false. *)
Definition float_truthy (x : float) : bool :=
  match x with S754_zero _ => false | _ => true end.

(** [int(x)]: truncation toward zero; raises on infinities and NaN. *)
Definition int_of_float (x : float) : result Z :=
  match x with
  | S754_zero _ => Ok 0
  | S754_finite s m e => Ok (cond_Zopp s (Z.shiftl (Z.pos m) e))
  | S754_infinity _ =>
      Raise (mkExn OverflowError
               (py "cannot convert float infinity to integer"))
  | S754_nan =>
      Raise (mkExn ValueError (py "cannot convert float NaN to integer"))
  end.

End Py.

(* ===================================================================== *)
(** * pathlib: relative POSIX paths *)
(* ===================================================================== *)

(** A path is the list of its components ([PurePosixPath.parts]).  Every
    path of the program is relative ([Path("storage")] and names joined
    to it), and every joined name starts with a stem or an identifier,
    never with a slash, so only the relative join is modelled. *)
Abbreviation Path := (list pystr).

Module Pathlib.
Import Py.

Definition is_component (c : pystr) : bool :=
  nonempty c && negb (bool_decide (c = [DOT])).

(** The components of a relative path text: empty components and
    single dots are dropped. *)
Definition parse_parts (s : pystr) : list pystr :=
  List.filter is_component (split SLASH s).

(** [p / s]. *)
Definition div (p : Path) (s : pystr) : Path := p ++ parse_parts s.

(** [p.name]. *)
Definition name (p : Path) : pystr := List.last p [].

(** The index that [stem] and [suffix] cut the name at: the last dot,
    when it is neither the first nor the last character. *)
Definition cut_index (nm : pystr) : option nat :=
  match rfind DOT nm with
  | Some i =>
      if (0 <? i)%nat && (i <? length nm - 1)%nat then Some i else None
  | None => None
  end.

(** [p.stem]. *)
Definition stem (p : Path) : pystr :=
  match cut_index (name p) with
  | Some i => take i (name p)
  | None => name p
  end.

(** [p.suffix]. *)
Definition suffix (p : Path) : pystr :=
  match cut_index (name p) with
  | Some i => drop i (name p)
  | None => []
  end.

End Pathlib.

Infix "//" := Pathlib.div (at level 40, left associativity).

(** The file system: the text content of the files written so far. *)
Abbreviation files := (gmap Path pystr).

(* ===================================================================== *)
(** * app/pipeline.py *)
(* ===================================================================== *)

(** One entry of Whisper's [result["segments"]]: a dict with the keys
    [start], [end], [text], and [original_text] once translation ran. *)
Record Segment := mkSegment {
  seg_start : Py.float;
  seg_end : Py.float;
  seg_text : pystr;
  seg_original_text : option pystr
}.

Definition set_text (seg : Segment) (t : pystr) : Segment :=
  {| seg_start := seg_start seg; seg_end := seg_end seg;
     seg_text := t; seg_original_text := seg_original_text seg |}.

Definition set_original_text (seg : Segment) (t : pystr) : Segment :=
  {| seg_start := seg_start seg; seg_end := seg_end seg;
     seg_text := seg_text seg; seg_original_text := Some t |}.

(** What [ffmpeg ... .run()] did. *)
Inductive encoder_outcome :=
  | EncDone
  | EncFfmpegError (stderr : option (list Byte.byte)) (str_e : pystr)
  | EncOtherError (e : exn).

Module Pipeline.
Import Py.

(** ** [_srt_time] *)

(** [ms = int(float(seconds or 0) * 1000)] *)
Definition srt_ms (seconds : float) : result Z :=
  int_of_float (fmul (if float_truthy seconds then seconds else fzero) f1000).

(** The f-string of [_srt_time] on the millisecond count. *)
Definition srt_fields (ms : Z) : pystr :=
  format_0d 2 (ms / 3600000) ++ [COLON] ++
  format_0d 2 ((ms mod 3600000) / 60000) ++ [COLON] ++
  format_0d 2 ((ms mod 60000) / 1000) ++ [COMMA] ++
  format_0d 3 (ms mod 1000).

Definition _srt_time (seconds : float) : result pystr :=
  match srt_ms seconds with
  | Ok ms => Ok (srt_fields ms)
  | Raise e => Raise e
  end.

(** ** [_write_srt] *)

(** One [f.write(...)] of the loop: the block of segment [seg] under
    the number [i]. *)
Definition srt_block (i : Z) (seg : Segment) : result pystr :=
  match _srt_time (seg_start seg) with
  | Raise e => Raise e
  | Ok t1 =>
      match _srt_time (seg_end seg) with
      | Raise e => Raise e
      | Ok t2 =>
          Ok (str_of_int i ++ [LF] ++ t1 ++ py " --> " ++ t2 ++ [LF] ++
              strip (seg_text seg) ++ [LF; LF])
      end
  end.

(** The loop [for i, seg in enumerate(segments, 1)]: the text written
    so far, and the exception that stopped the loop, if any. *)
Fixpoint write_blocks (i : Z) (segments : list Segment) (written : pystr)
  : pystr * option exn :=
  match segments with
  | [] => (written, None)
  | seg :: rest =>
      match srt_block i seg with
      | Ok b => write_blocks (i + 1) rest (written ++ b)
      | Raise e => (written, Some e)
      end
  end.

(** [open(path, "w")] truncates the file; what was written before an
    exception stays in it. *)
Definition _write_srt (segments : list Segment) (path : Path) (fs : files)
  : result unit * files :=
  let '(content, err) := write_blocks 1 segments [] in
  (match err with None => Ok tt | Some e => Raise e end,
   <[path := content]> fs).

(** ** [LANGUAGE_NAMES] *)

Definition LANGUAGE_NAMES : gmap pystr pystr :=
  list_to_map
    [ (py "en", py "English"); (py "ur", py "Urdu"); (py "hi", py "Hindi");
      (py "ar", py "Arabic"); (py "fr", py "French");
      (py "es", py "Spanish"); (py "de", py "German");
      (py "it", py "Italian"); (py "pt", py "Portuguese");
      (py "ru", py "Russian"); (py "ja", py "Japanese");
      (py "ko", py "Korean"); (py "zh", py "Chinese") ].

(** ** The translation step of [transcribe_video] *)

Definition chunk_size : nat := 80.

(** [texts[start : start + chunk_size]] for
    [start in range(0, len(texts), chunk_size)]. *)
Fixpoint chunks_from (fuel : nat) (texts : list pystr) : list (list pystr) :=
  match fuel with
  | O => []
  | S f =>
      match texts with
      | [] => []
      | _ => take chunk_size texts :: chunks_from f (drop chunk_size texts)
      end
  end.

Definition chunks (texts : list pystr) : list (list pystr) :=
  chunks_from (length texts) texts.

(** [f"{idx+1}. {t}" for idx, t in enumerate(chunk)] *)
Fixpoint numbered_lines (idx : Z) (chunk : list pystr) : list pystr :=
  match chunk with
  | [] => []
  | t :: rest =>
      (str_of_int (idx + 1) ++ py ". " ++ t) :: numbered_lines (idx + 1) rest
  end.

Definition numbered (chunk : list pystr) : pystr :=
  join [LF] (numbered_lines 0 chunk).

Definition target_lang_name (target_lang : pystr) : pystr :=
  default target_lang (LANGUAGE_NAMES !! target_lang).

Definition prompt (target_lang : pystr) (chunk : list pystr) : pystr :=
  py "Translate the following subtitles into " ++
    target_lang_name target_lang ++ py "." ++ [LF] ++
  py "Keep the original numbering, one line per subtitle, and output nothing else." ++ [LF] ++
  py "Ensure the translation is natural and contextually appropriate." ++ [LF; LF] ++
  numbered chunk.

Definition simple_prompt (target_lang : pystr) (chunk : list pystr) : pystr :=
  py "Translate these Japanese subtitles to " ++
    target_lang_name target_lang ++ py ":" ++ [LF] ++ numbered chunk.

(** [[ln.strip() for ln in text.split("\n") if ln.strip()]] *)
Definition response_lines (text : pystr) : list pystr :=
  List.filter nonempty (List.map strip (split LF text)).

(** The body of the loop [for ln in lines] that strips a leading
    number: the value appended to [cleaned_all]. *)
Definition strip_number (ln : pystr) : pystr :=
  if isdigit (rstrip_with (N.eqb DOT) (hd [] (split SP ln)))
  then join [SP] (tl (split SP ln))
  else ln.

Section Collaborator.
(** The Gemini model: a state and [generate_content], which returns
    [resp.text] or raises. *)
Context {St : Type}.
Variable generate_content : St -> pystr -> result pystr * St.

(** The [try]/[except] of one chunk: the response text that [lines]
    is computed from, or the [RuntimeError] raised when the second
    attempt fails too. *)
Definition chunk_response (st : St) (target_lang : pystr)
    (chunk : list pystr) : result pystr * St :=
  let '(r1, st1) := generate_content st (prompt target_lang chunk) in
  let first :=
    match r1 with
    | Ok text =>
        if nonempty text then Ok text
        else Raise (mkExn RuntimeError (py "Empty response from Gemini"))
    | Raise e => Raise e
    end in
  match first with
  | Ok text => (Ok text, st1)
  | Raise e =>
      let failed :=
        Raise (mkExn RuntimeError
                 (py "Gemini translation failed: " ++ exn_msg e)) in
      let '(r2, st2) :=
        generate_content st1 (simple_prompt target_lang chunk) in
      match r2 with
      | Ok text => if nonempty text then (Ok text, st2) else (failed, st2)
      | Raise _ => (failed, st2)
      end
  end.

(** The loop over the chunks: the response texts used, in order. *)
Fixpoint chunk_responses (st : St) (target_lang : pystr)
    (cs : list (list pystr)) : result (list pystr) * St :=
  match cs with
  | [] => (Ok [], st)
  | c :: rest =>
      match chunk_response st target_lang c with
      | (Raise e, st') => (Raise e, st')
      | (Ok text, st') =>
          match chunk_responses st' target_lang rest with
          | (Raise e, st'') => (Raise e, st'')
          | (Ok texts, st'') => (Ok (text :: texts), st'')
          end
      end
  end.

(** [cleaned_all] when the loop over the chunks ends. *)
Definition cleaned_of (responses : list pystr) : list pystr :=
  List.concat
    (List.map (fun text => List.map strip_number (response_lines text))
       responses).

Definition recover (st : St) (target_lang : pystr) (texts : list pystr)
  : result (list pystr) * St :=
  match chunk_responses st target_lang (chunks texts) with
  | (Ok responses, st') => (Ok (cleaned_of responses), st')
  | (Raise e, st') => (Raise e, st')
  end.

(** [while len(cleaned_all) < len(segments):
       cleaned_all.append(segments[len(cleaned_all)]["text"])] *)
Fixpoint pad_loop (fuel : nat) (cleaned_all : list pystr)
    (segments : list Segment) : list pystr :=
  match fuel with
  | O => cleaned_all
  | S f =>
      if (length cleaned_all <? length segments)%nat then
        match segments !! length cleaned_all with
        | Some seg => pad_loop f (cleaned_all ++ [seg_text seg]) segments
        | None => cleaned_all
        end
      else cleaned_all
  end.

(** [if len(cleaned_all) != len(segments): ...] *)
Definition pad (cleaned_all : list pystr) (segments : list Segment)
  : list pystr :=
  if bool_decide (length cleaned_all = length segments) then cleaned_all
  else pad_loop (length segments) cleaned_all segments.

(** [for seg, tr in zip(segments, cleaned_all): seg["text"] = tr] *)
Fixpoint assign (segments : list Segment) (cleaned_all : list pystr)
  : list Segment :=
  match segments, cleaned_all with
  | seg :: segs, tr :: trs => set_text seg tr :: assign segs trs
  | _, _ => segments
  end.

(** Lines 93 to 151: the segments after the translation step. *)
Definition translate_segments (st : St) (target_lang : pystr)
    (segments : list Segment) : result (list Segment) * St :=
  let texts := List.map seg_text segments in
  let segments1 :=
    List.map (fun seg => set_original_text seg (seg_text seg)) segments in
  match recover st target_lang texts with
  | (Raise e, st') => (Raise e, st')
  | (Ok cleaned_all, st') =>
      (Ok (assign segments1 (pad cleaned_all segments1)), st')
  end.

(** [not segments or not any(seg["text"].strip() for seg in segments)] *)
Definition nothing_to_translate (segments : list Segment) : bool :=
  negb (nonempty segments) ||
  negb (existsb (fun seg => nonempty (strip (seg_text seg))) segments).

Definition srt_name (video_path : Path) (target_lang : pystr) : pystr :=
  Pathlib.stem video_path ++ [DOT] ++ target_lang ++ py ".srt".

(** [transcribe_video]; [whisper] is what
    [whisper.load_model(...).transcribe(...)["segments"]] gave. *)
Definition transcribe_video (video_path output_dir : Path)
    (target_lang : pystr) (whisper : result (list Segment))
    (st : St) (fs : files)
  : result (list Segment * Path) * St * files :=
  match whisper with
  | Raise e => (Raise e, st, fs)
  | Ok segments =>
      let srt_path := output_dir // srt_name video_path target_lang in
      if nothing_to_translate segments then
        match _write_srt segments srt_path fs with
        | (Ok _, fs') => (Ok (segments, srt_path), st, fs')
        | (Raise e, fs') => (Raise e, st, fs')
        end
      else
        match translate_segments st target_lang segments with
        | (Raise e, st') => (Raise e, st', fs)
        | (Ok segments', st') =>
            match _write_srt segments' srt_path fs with
            | (Ok _, fs') => (Ok (segments', srt_path), st', fs')
            | (Raise e, fs') => (Raise e, st', fs')
            end
        end
  end.

End Collaborator.

(** ** [burn_subtitles] *)

Section Encoder.
(** [bytes.decode()]: the text, or the [UnicodeDecodeError]. *)
Variable decode : list Byte.byte -> result pystr.

Definition burned_name (video_path : Path) (target_lang : pystr) : pystr :=
  Pathlib.stem video_path ++ [DOT] ++ target_lang ++ py "_burned.mp4".

(** [e.stderr.decode() if e.stderr else str(e)] *)
Definition diagnostic (stderr : option (list Byte.byte)) (str_e : pystr)
  : result pystr :=
  match stderr with
  | Some (b :: bs) => decode (b :: bs)
  | _ => Ok str_e
  end.

Definition burn_subtitles (video_path srt_path output_dir : Path)
    (target_lang : pystr) (enc : encoder_outcome) : result Path :=
  let out_file := output_dir // burned_name video_path target_lang in
  match enc with
  | EncDone => Ok out_file
  | EncFfmpegError stderr str_e =>
      match diagnostic stderr str_e with
      | Ok d =>
          Raise (mkExn RuntimeError
                   (py "ffmpeg error:" ++ [LF] ++ d ++ [LF]))
      | Raise e => Raise e
      end
  | EncOtherError e => Raise e
  end.

End Encoder.

End Pipeline.

(* ===================================================================== *)
(** * app/main.py *)
(* ===================================================================== *)

(** One value of the [JOBS] dict: the keys [status], [transcript],
    [output] (initially [None]) and [error] (absent until a failure). *)
Record Job := mkJob {
  job_status_of : pystr;
  job_transcript : pystr;
  job_output : option pystr;
  job_error : option pystr
}.

(** The arguments of one scheduled [_background_burn]. *)
Record Task := mkTask {
  task_job : pystr;
  task_video : Path;
  task_srt : Path;
  task_lang : pystr
}.

(** What a route hands back: the returned JSON or the [HTTPException]. *)
Inductive response :=
  | RespJobId (job_id : pystr)
  | RespJob (job : Job)
  | HTTPError (code : Z) (detail : pystr).

Module Main.
Import Py.

Definition STORAGE_DIR : Path := [py "storage"].

Definition BURNING : pystr := py "burning".
Definition DONE : pystr := py "done".
Definition ERROR : pystr := py "error".

(** [job.update({"status": "done", "output": name})] *)
Definition update_done (job : Job) (name : pystr) : Job :=
  {| job_status_of := DONE; job_transcript := job_transcript job;
     job_output := Some name; job_error := job_error job |}.

(** [job.update({"status": "error", "error": msg})] *)
Definition update_error (job : Job) (msg : pystr) : Job :=
  {| job_status_of := ERROR; job_transcript := job_transcript job;
     job_output := job_output job; job_error := Some msg |}.

Definition KeyError (key : pystr) : exn := mkExn OtherError key.

Section Server.
Context {St : Type}.
Variable generate_content : St -> pystr -> result pystr * St.
Variable decode : list Byte.byte -> result pystr.
(** [str(uuid4())] at its n-th call. *)
Variable uuid4 : nat -> pystr.

(** [_background_burn]: the [try] runs [burn_subtitles] and the update
    of the job; any exception of either lands in the [except], whose
    own lookup of the job is unprotected. *)
Definition _background_burn (job_id : pystr) (video_path srt_path : Path)
    (target_lang : pystr) (enc : encoder_outcome)
    (jobs : gmap pystr Job) : result unit * gmap pystr Job :=
  let attempt : result unit * gmap pystr Job :=
    match Pipeline.burn_subtitles decode video_path srt_path STORAGE_DIR
            target_lang enc with
    | Raise e => (Raise e, jobs)
    | Ok out_path =>
        match jobs !! job_id with
        | None => (Raise (KeyError job_id), jobs)
        | Some job =>
            (Ok tt,
             <[job_id := update_done job (Pathlib.name out_path)]> jobs)
        end
    end in
  match attempt with
  | (Ok _, jobs') => (Ok tt, jobs')
  | (Raise e, _) =>
      match jobs !! job_id with
      | None => (Raise (KeyError job_id), jobs)
      | Some job => (Ok tt, <[job_id := update_error job (exn_msg e)]> jobs)
      end
  end.

(** The process: the module-level [JOBS], the background tasks that
    were added and have not run yet, the files, the Gemini model and
    the number of identifiers drawn. *)
Record Server := mkServer {
  JOBS : gmap pystr Job;
  tasks : list Task;
  storage : files;
  gemini : St;
  uuid_calls : nat
}.

(** [POST /upload] *)
Definition upload_video (content_type : option pystr)
    (filename payload lang : pystr) (whisper : result (list Segment))
    (s : Server) : response * Server :=
  if negb (match content_type with
           | Some ct => nonempty ct && startswith ct (py "video")
           | None => false
           end)
  then (HTTPError 400 (py "Please upload a video file"), s)
  else
    let job_id := uuid4 (uuid_calls s) in
    let input_path := STORAGE_DIR // (job_id ++ py "_" ++ filename) in
    let fs1 := <[input_path := payload]> (storage s) in
    match Pipeline.transcribe_video generate_content input_path
            STORAGE_DIR lang whisper (gemini s) fs1 with
    | (Raise e, st', fs') =>
        (HTTPError 500 (py "Transcription failed: " ++ exn_msg e),
         {| JOBS := JOBS s; tasks := tasks s; storage := fs';
            gemini := st'; uuid_calls := S (uuid_calls s) |})
    | (Ok (segments, srt_path), st', fs') =>
        let transcript_text := join [LF] (List.map seg_text segments) in
        (RespJobId job_id,
         {| JOBS := <[job_id := mkJob BURNING transcript_text None None]>
                      (JOBS s);
            tasks := tasks s ++ [mkTask job_id input_path srt_path lang];
            storage := fs'; gemini := st';
            uuid_calls := S (uuid_calls s) |})
    end.

(** [GET /status/{job_id}] *)
Definition job_status (job_id : pystr) (s : Server) : response :=
  match JOBS s !! job_id with
  | Some job => RespJob job
  | None => HTTPError 404 (py "job not found")
  end.

(** What happens to the process, with what the collaborators did. *)
Inductive event :=
  | EvUpload (content_type : option pystr) (filename payload lang : pystr)
             (whisper : result (list Segment))
  | EvRunTask (k : nat) (enc : encoder_outcome)
  | EvStatus (job_id : pystr).

(** One event: the new state and the response a caller gets, if the
    event has a caller.  A background task runs once and is gone. *)
Definition step (s : Server) (ev : event) : Server * option response :=
  match ev with
  | EvUpload ct filename payload lang whisper =>
      let '(r, s') := upload_video ct filename payload lang whisper s in
      (s', Some r)
  | EvRunTask k enc =>
      match tasks s !! k with
      | None => (s, None)
      | Some t =>
          let '(_, jobs') :=
            _background_burn (task_job t) (task_video t) (task_srt t)
              (task_lang t) enc (JOBS s) in
          ({| JOBS := jobs'; tasks := delete k (tasks s);
              storage := storage s; gemini := gemini s;
              uuid_calls := uuid_calls s |}, None)
      end
  | EvStatus job_id => (s, Some (job_status job_id s))
  end.

Fixpoint run (s : Server) (evs : list event) : Server :=
  match evs with
  | [] => s
  | ev :: rest => run (fst (step s ev)) rest
  end.

(** The responses of the events of a run, in order. *)
Fixpoint responses (s : Server) (evs : list event) : list (option response) :=
  match evs with
  | [] => []
  | ev :: rest => snd (step s ev) :: responses (fst (step s ev)) rest
  end.

(** The statuses that the status reads of one job return along a run. *)
Fixpoint observed (job_id : pystr) (s : Server) (evs : list event)
  : list pystr :=
  match evs with
  | [] => []
  | ev :: rest =>
      match ev, snd (step s ev) with
      | EvStatus j, Some (RespJob job) =>
          if bool_decide (j = job_id)
          then job_status_of job :: observed job_id (fst (step s ev)) rest
          else observed job_id (fst (step s ev)) rest
      | _, _ => observed job_id (fst (step s ev)) rest
      end
  end.

(** The responses to the uploads of a run, in order. *)
Fixpoint upload_responses (s : Server) (evs : list event) : list response :=
  match evs with
  | [] => []
  | ev :: rest =>
      match ev, snd (step s ev) with
      | EvUpload _ _ _ _ _, Some r =>
          r :: upload_responses (fst (step s ev)) rest
      | _, _ => upload_responses (fst (step s ev)) rest
      end
  end.


Definition init (st : St) (fs : files) : Server :=
  {| JOBS := ∅; tasks := []; storage := fs; gemini := st;
     uuid_calls := O |}.

End Server.

End Main.

(** One block of a subtitle file: its number, the two timestamps as they
    stand in the file, and the lines of its text. *)
Record Block := mkBlock {
  blk_index : Z;
  blk_start : pystr;
  blk_end : pystr;
  blk_text : list pystr
}.

(* ===================================================================== *)
(** * Vocabulary of the properties *)
(* ===================================================================== *)

Module Props.
Import Py.

Definition is_ascii_digit (c : N) : bool := (48 <=? c)%N && (c <=? 57)%N.

(** The number that a run of ASCII digits denotes. *)
Definition digits_value (s : pystr) : Z :=
  fold_left (fun acc c => 10 * acc + (Z.of_N c - 48)) s 0.

Definition parse_dec (s : pystr) : option Z :=
  if nonempty s && forallb is_ascii_digit s
  then Some (digits_value s) else None.

(** The first token of a line: what stands before the first character
    of the class [stop] (the whole line, if there is none). *)
Fixpoint token_until (stop : N -> bool) (ln : pystr) : pystr :=
  match ln with
  | [] => []
  | c :: rest => if stop c then [] else c :: token_until stop rest
  end.

(** The lines of a response text that are not blank, as they stand in
    the response. *)
Definition nonblank_lines (text : pystr) : list pystr :=
  List.filter (fun ln => nonempty (strip ln)) (split LF text).

Definition all_nonblank_lines (responses : list pystr) : list pystr :=
  List.concat (List.map nonblank_lines responses).

(** A time that [_srt_time] renders: the millisecond count exists and
    is not negative. *)
Definition time_ok (seconds : float) : bool :=
  match Pipeline.srt_ms seconds with
  | Ok ms => 0 <=? ms
  | Raise _ => false
  end.

(** A caption text whose stripped form has no blank line inside. *)
Definition text_ok (text : pystr) : bool :=
  negb (nonempty (strip text)) ||
  forallb (fun l => nonempty (strip l)) (split LF (strip text)).

Definition segment_ok (seg : Segment) : bool :=
  time_ok (seg_start seg) && time_ok (seg_end seg) && text_ok (seg_text seg).

(** The text lines that a reader finds in the block of a caption. *)
Definition caption_lines (text : pystr) : list pystr :=
  if nonempty (strip text) then split LF (strip text) else [].

(** A float that is a number and not negative. *)
Definition nonneg_finite (x : float) : bool :=
  match x with
  | S754_zero _ => true
  | S754_finite s _ _ => negb s
  | _ => false
  end.

Definition is_finite (x : float) : bool :=
  match x with
  | S754_zero _ | S754_finite _ _ _ => true
  | _ => false
  end.

(** [n] is the integer part of the non-negative float [x = m * 2^e]:
    [n <= x < n + 1], with the power of two moved to the side where
    its exponent is not negative. *)
Definition integer_part (x : float) (n : Z) : Prop :=
  match x with
  | S754_zero _ => n = 0
  | S754_finite false m e =>
      n * 2 ^ (Z.max 0 (- e)) ≤ Z.pos m * 2 ^ (Z.max 0 e)
        < (n + 1) * 2 ^ (Z.max 0 (- e))
  | _ => False
  end.

(** The block that a reader is to find for segment [seg] at number [i]. *)
Definition block_of (i : Z) (seg : Segment) (b : Block) : Prop :=
  blk_index b = i ∧
  Pipeline._srt_time (seg_start seg) = Ok (blk_start b) ∧
  Pipeline._srt_time (seg_end seg) = Ok (blk_end b) ∧
  blk_text b = caption_lines (seg_text seg).

Fixpoint blocks_of (i : Z) (segments : list Segment) (bs : list Block)
  : Prop :=
  match segments, bs with
  | [], [] => True
  | seg :: segs, b :: bs' => block_of i seg b ∧ blocks_of (i + 1) segs bs'
  | _, _ => False
  end.

End Props.

(* ===================================================================== *)
(** * Vocabulary of the job registry *)
(* ===================================================================== *)

Module Registry.
Import Main.

(** The status of a job in a state of the process, if the job exists. *)
Definition status_at {St : Type} (s : @Server St) (job_id : pystr)
  : option pystr :=
  job_status_of <$> JOBS s !! job_id.

Definition terminal (t : pystr) : Prop := t = DONE ∨ t = ERROR.

(** What holds of every state the process reaches: the identifiers of
    the jobs were drawn from [uuid4] earlier; a task that has not run
    belongs to a job that is still burning; no job has two tasks. *)
Definition consistent {St : Type} (uuid4 : nat -> pystr) (s : @Server St)
  : Prop :=
  (∀ j job, JOBS s !! j = Some job →
     ∃ n, (n < uuid_calls s)%nat ∧ j = uuid4 n) ∧
  (∀ t, t ∈ tasks s →
     ∃ job, JOBS s !! task_job t = Some job ∧ job_status_of job = BURNING) ∧
  NoDup (task_job <$> tasks s).

(** The statuses read over time: "burning" some times, then one
    terminal status some times. *)
Definition monotonic (l : list pystr) : Prop :=
  ∃ a b t, l = replicate a BURNING ++ replicate b t ∧ terminal t.


End Registry.

(* ===================================================================== *)
(** * A reader of subtitle files *)
(* ===================================================================== *)

Module Srt.
Import Py Props.

(** Modelled from the spec: the repository writes subtitle files and has
    no reader for them.  The timestamp is [HH:MM:SS,mmm] (section 4.3):
    hours of two digits or more, minutes and seconds of two digits and
    below 60, milliseconds of three digits.  The result is the
    millisecond count. *)
Definition parse_timestamp (s : pystr) : option Z :=
  match split COLON s with
  | [h; m; rest] =>
      match split COMMA rest with
      | [sec; ms] =>
          match parse_dec h, parse_dec m, parse_dec sec, parse_dec ms with
          | Some vh, Some vm, Some vs, Some vms =>
              if (2 <=? length h)%nat && (length m =? 2)%nat &&
                 (length sec =? 2)%nat && (length ms =? 3)%nat &&
                 (vm <? 60) && (vs <? 60)
              then Some (vh * 3600000 + vm * 60000 + vs * 1000 + vms)
              else None
          | _, _, _, _ => None
          end
      | _ => None
      end
  | _ => None
  end.

(** Modelled from the spec: the range line [start --> end] (section 6). *)
Definition parse_timing (l : pystr) : option (pystr * pystr) :=
  match split SP l with
  | [t1; arrow; t2] =>
      if bool_decide (arrow = py "-->") then
        match parse_timestamp t1, parse_timestamp t2 with
        | Some _, Some _ => Some (t1, t2)
        | _, _ => None
        end
      else None
  | _ => None
  end.

Definition blank (l : pystr) : bool := negb (nonempty (strip l)).

Inductive reader_state :=
  | AtIndex
  | AtTiming (i : Z)
  | InText (i : Z) (t1 t2 : pystr) (text_rev : list pystr).

(** Modelled from the spec: the block grammar of sections 4.3 and 6, read
    line by line: a number line, a range line, text lines up to a blank
    line; blank lines between blocks are skipped. *)
Fixpoint read (st : reader_state) (ls : list pystr) : option (list Block) :=
  match ls with
  | [] =>
      match st with
      | AtIndex => Some []
      | AtTiming _ => None
      | InText i t1 t2 txt => Some [mkBlock i t1 t2 (rev txt)]
      end
  | l :: rest =>
      match st with
      | AtIndex =>
          if blank l then read AtIndex rest
          else match parse_dec l with
               | Some i => read (AtTiming i) rest
               | None => None
               end
      | AtTiming i =>
          match parse_timing l with
          | Some (t1, t2) => read (InText i t1 t2 []) rest
          | None => None
          end
      | InText i t1 t2 txt =>
          if blank l then
            match read AtIndex rest with
            | Some bs => Some (mkBlock i t1 t2 (rev txt) :: bs)
            | None => None
            end
          else read (InText i t1 t2 (l :: txt)) rest
      end
  end.

(** Modelled from the spec: reading a whole subtitle file. *)
Definition parse_srt (content : pystr) : option (list Block) :=
  read AtIndex (split LF content).

End Srt.

(* ===================================================================== *)
(** * Sample data *)
(* ===================================================================== *)

Module Samples.
Import Py.

(** A collaborator that plays back a script of outcomes, one per call,
    whatever the prompt. *)
Definition scripted (st : list (result pystr)) (prompt : pystr)
  : result pystr * list (result pystr) :=
  match st with
  | [] => (Raise (mkExn OtherError (py "script exhausted")), [])
  | r :: rest => (r, rest)
  end.

(** The binary64 number nearest to [a / b]. *)
Definition seconds (a b : positive) : float :=
  SFdiv 53 1024 (binary_normalize 53 1024 (Z.pos a) 0 false)
                (binary_normalize 53 1024 (Z.pos b) 0 false).

Definition seg1 : Segment :=
  mkSegment (S754_zero false) (seconds 3 2) (py " konnichiwa ") None.
Definition seg2 : Segment :=
  mkSegment (seconds 3 2) (seconds 29 10) (py "sekai") None.
Definition seg3 : Segment :=
  mkSegment (seconds 3 1) (seconds 4 1) (py "2023 nen") None.

(** A caption with an empty line inside. *)
Definition seg_gap : Segment :=
  mkSegment (S754_zero false) (seconds 1 1) (py "a" ++ [LF; LF] ++ py "b") None.

(** A caption whose text holds what reads as a second block. *)
Definition seg_fake : Segment :=
  mkSegment (S754_zero false) (seconds 1 1)
    (py "a" ++ [LF; LF] ++ py "7" ++ [LF] ++
     py "00:00:05,000 --> 00:00:06,000" ++ [LF] ++ py "b") None.

(** A caption that starts after 2^1023 seconds. *)
Definition seg_late : Segment :=
  mkSegment (S754_finite false 4503599627370496 971)
            (S754_finite false 4503599627370496 971) (py "x") None.

Definition blank_seg : Segment :=
  mkSegment (S754_zero false) (seconds 3 2) (py "   ") None.

(** 2^1023 seconds: a finite float whose product with 1000 is not. *)
Definition huge : float := S754_finite false 4503599627370496 971.

Definition texts_of (r : result (list Segment)) : option (list pystr) :=
  match r with
  | Ok segments => Some (List.map seg_text segments)
  | Raise _ => None
  end.

Definition video_mov : Path := [py "storage"; py "abc_clip.mov"].

(** A decoder for diagnostics in ASCII. *)
Definition decode_ascii (bs : list Byte.byte) : result pystr :=
  Ok (List.map (fun b => N_of_ascii (ascii_of_byte b)) bs).

(** Identifiers that differ from call to call. *)
Definition uuid_of (n : nat) : pystr := replicate (S n) 97%N.

(** The bytes of "boom". *)
Definition boom : list Byte.byte := [Byte.x62; Byte.x6f; Byte.x6f; Byte.x6d].

Definition ffmpeg_failed : encoder_outcome :=
  EncFfmpegError (Some boom) (py "ffmpeg error (see stderr output for detail)").

Definition an_upload : Main.event :=
  Main.EvUpload (Some (py "video/mp4")) (py "clip.mp4") [] (py "en")
    (Ok [seg1]).

Definition one_job : gmap pystr Job :=
  {[ uuid_of 0 := mkJob Main.BURNING (py "Hello") None None ]}.

End Samples.

(* ===================================================================== *)
(** * The rest of app/pipeline.py *)
(* ===================================================================== *)

Module PipelineRest.
Import Py.



Section ProcessVideo.
Context {St : Type}.
Variable generate_content : St -> pystr -> result pystr * St.
Variable decode : list Byte.byte -> result pystr.


End ProcessVideo.

End PipelineRest.

(* ===================================================================== *)
(** * More vocabulary *)
(* ===================================================================== *)

Module Metering.

(** A collaborator that counts the calls made to it, next to whatever
    collaborator it wraps. *)
Definition counted {St : Type}
    (generate_content : St -> pystr -> result pystr * St)
    (s : St * nat) (prompt : pystr) : result pystr * (St * nat) :=
  let '(r, st') := generate_content (fst s) prompt in
  (r, (st', S (snd s))).

Definition is_ok {A : Type} (r : result A) : bool :=
  match r with Ok _ => true | Raise _ => false end.

End Metering.

Module Records.
Import Main.

(** The three shapes of a job record: burning with neither output nor
    error, done with an output and no error, error with an error text
    and no output. *)
Definition record_ok (job : Job) : Prop :=
  (job_status_of job = BURNING ∧ job_output job = None ∧
   job_error job = None) ∨
  (job_status_of job = DONE ∧ is_Some (job_output job) ∧
   job_error job = None) ∨
  (job_status_of job = ERROR ∧ job_output job = None ∧
   is_Some (job_error job)).

(** The identifiers that the uploads of a run answered with. *)
Definition issued (rs : list response) : list pystr :=
  omap (fun r => match r with RespJobId j => Some j | _ => None end) rs.

(** What holds of the records of every state the process reaches: each
    has one of the three shapes, and a burning job has a task that has
    not run. *)
Definition settled {St : Type} (s : @Server St) : Prop :=
  (∀ j job, JOBS s !! j = Some job → record_ok job) ∧
  (∀ j job, JOBS s !! j = Some job → job_status_of job = BURNING →
     j ∈ task_job <$> tasks s).

End Records.

Module Samples2.
Import Py.

(** A collaborator that sends back the numbered block of the prompt:
    what stands behind the last empty line, or behind the first line
    break when there is no empty line. *)
Fixpoint after_blank_line (s : pystr) : option pystr :=
  match s with
  | [] => None
  | c :: rest =>
      match after_blank_line rest with
      | Some r => Some r
      | None =>
          match rest with
          | c' :: rest' =>
              if (c =? LF)%N && (c' =? LF)%N then Some rest' else None
          | [] => None
          end
      end
  end.

Definition echo (st : unit) (prompt : pystr) : result pystr * unit :=
  match after_blank_line prompt with
  | Some block => (Ok block, tt)
  | None => (Raise (mkExn OtherError (py "no block")), tt)
  end.

(** A collaborator that always fails. *)
Definition failing (st : unit) (prompt : pystr) : result pystr * unit :=
  (Raise (mkExn OtherError (py "quota exceeded")), tt).

(** A caption that starts at -1.5 seconds. *)
Definition minus_1_5 : float := S754_finite true 6755399441055744 (-52).

Definition seg_bad : Segment :=
  mkSegment S754_nan (Samples.seconds 1 1) (py "x") None.

(** The files when only the video "storage/abc_clip.mov" is there. *)
Definition video_only : files := {[ Samples.video_mov := [] ]}.

Definition srt_en : Path := [py "storage"; py "abc_clip.en.srt"].

(** An upload and the burn of its job, which fails. *)
Definition failed_run : list Main.event :=
  [Samples.an_upload; Main.EvRunTask 0 Samples.ffmpeg_failed].

Definition failed_job : Job :=
  mkJob Main.ERROR (py "Hello") None
    (Some (py "ffmpeg error:" ++ [LF] ++ py "boom" ++ [LF])).

Definition burning_job : Job := mkJob Main.BURNING (py "Hello") None None.

(** The two sample segments after a translation that recovered the one
    line "Hello". *)
Definition translated12 : list Segment :=
  [mkSegment (seg_start Samples.seg1) (seg_end Samples.seg1) (py "Hello")
     (Some (seg_text Samples.seg1));
   mkSegment (seg_start Samples.seg2) (seg_end Samples.seg2)
     (seg_text Samples.seg2) (Some (seg_text Samples.seg2))].

End Samples2.

(* ===================================================================== *)
(** * bytes.decode *)
(* ===================================================================== *)

Module Codec.
Import Py.

(** [bytes.decode()]: CPython's strict UTF-8 decoder.  The bytes are
    read from left to right; the first sequence that is no UTF-8
    encoding of a code point raises [UnicodeDecodeError]. *)

Definition hex_digit (n : N) : N :=
  if (n <? 10)%N then (48 + n)%N else (87 + n)%N.

(** [%02x] of a byte *)
Definition hex2 (b : N) : pystr := [hex_digit (b / 16); hex_digit (b mod 16)].

(** [str(UnicodeDecodeError("utf-8", data, first, last + 1, reason))],
    [b] being [data[first]]; the class has no constructor of its own in
    [exn_kind]. *)
Definition UnicodeDecodeError (b : N) (first last : Z) (reason : pystr) : exn :=
  mkExn OtherError
    (if first =? last then
       py "'utf-8' codec can't decode byte 0x" ++ hex2 b ++
       py " in position " ++ str_of_int first ++ py ": " ++ reason
     else
       py "'utf-8' codec can't decode bytes in position " ++
       str_of_int first ++ py "-" ++ str_of_int last ++ py ": " ++ reason).

Definition invalid_start : pystr := py "invalid start byte".
Definition invalid_continuation : pystr := py "invalid continuation byte".
Definition unexpected_end : pystr := py "unexpected end of data".

Definition is_continuation (b : N) : bool := (128 <=? b)%N && (b <? 192)%N.

(** The second byte after the lead byte [b1] of a three-byte sequence:
    a continuation byte that makes the sequence neither overlong (lead
    E0) nor a surrogate (lead ED). *)
Definition second_of_three (b1 b2 : N) : bool :=
  is_continuation b2 &&
  negb ((b1 =? 224)%N && (b2 <? 160)%N) &&
  negb ((b1 =? 237)%N && (160 <=? b2)%N).

(** The second byte after the lead byte [b1] of a four-byte sequence:
    neither overlong (lead F0) nor above U+10FFFF (lead F4). *)
Definition second_of_four (b1 b2 : N) : bool :=
  is_continuation b2 &&
  negb ((b1 =? 240)%N && (b2 <? 144)%N) &&
  negb ((b1 =? 244)%N && (144 <=? b2)%N).

Definition low6 (b : N) : N := (b mod 64)%N.

Definition then_char (c : N) (r : result pystr) : result pystr :=
  match r with
  | Ok s => Ok (c :: s)
  | Raise e => Raise e
  end.

Fixpoint decode_from (pos : Z) (bs : list N) : result pystr :=
  match bs with
  | [] => Ok []
  | b1 :: r1 =>
      if (b1 <? 128)%N then then_char b1 (decode_from (pos + 1) r1)
      else if (b1 <? 194)%N || (244 <? b1)%N then
        Raise (UnicodeDecodeError b1 pos pos invalid_start)
      else if (b1 <? 224)%N then
        match r1 with
        | [] => Raise (UnicodeDecodeError b1 pos pos unexpected_end)
        | b2 :: r2 =>
            if is_continuation b2 then
              then_char ((b1 mod 32) * 64 + low6 b2)%N
                (decode_from (pos + 2) r2)
            else Raise (UnicodeDecodeError b1 pos pos invalid_continuation)
        end
      else if (b1 <? 240)%N then
        match r1 with
        | [] => Raise (UnicodeDecodeError b1 pos pos unexpected_end)
        | b2 :: r2 =>
            if second_of_three b1 b2 then
              match r2 with
              | [] => Raise (UnicodeDecodeError b1 pos (pos + 1) unexpected_end)
              | b3 :: r3 =>
                  if is_continuation b3 then
                    then_char
                      ((b1 mod 16) * 4096 + low6 b2 * 64 + low6 b3)%N
                      (decode_from (pos + 3) r3)
                  else
                    Raise (UnicodeDecodeError b1 pos (pos + 1)
                             invalid_continuation)
              end
            else Raise (UnicodeDecodeError b1 pos pos invalid_continuation)
        end
      else
        match r1 with
        | [] => Raise (UnicodeDecodeError b1 pos pos unexpected_end)
        | b2 :: r2 =>
            if second_of_four b1 b2 then
              match r2 with
              | [] => Raise (UnicodeDecodeError b1 pos (pos + 1) unexpected_end)
              | b3 :: r3 =>
                  if is_continuation b3 then
                    match r3 with
                    | [] =>
                        Raise (UnicodeDecodeError b1 pos (pos + 2)
                                 unexpected_end)
                    | b4 :: r4 =>
                        if is_continuation b4 then
                          then_char
                            ((b1 mod 8) * 262144 + low6 b2 * 4096 +
                             low6 b3 * 64 + low6 b4)%N
                            (decode_from (pos + 4) r4)
                        else
                          Raise (UnicodeDecodeError b1 pos (pos + 2)
                                   invalid_continuation)
                    end
                  else
                    Raise (UnicodeDecodeError b1 pos (pos + 1)
                             invalid_continuation)
              end
            else Raise (UnicodeDecodeError b1 pos pos invalid_continuation)
        end
  end.

(** [data.decode()] *)
Definition decode (data : list Byte.byte) : result pystr :=
  decode_from 0 (List.map (fun b => N_of_ascii (ascii_of_byte b)) data).

End Codec.

(* ===================================================================== *)
(** * Vocabulary of the blank transcript *)
(* ===================================================================== *)

Module Blank.
Import Py Pipeline.





End Blank.

Module Samples3.



End Samples3.

(* ===================================================================== *)
(** * Facts about the string methods *)
(* ===================================================================== *)

Section StringFacts.
Import Py.

Lemma split_not_nil sep s : split sep s ≠ [].
Proof.
  destruct s as [|c s]; simpl; [done|].
  destruct (c =? sep)%N; [done|]. by destruct (split sep s).
Qed.

Lemma split_cons_ne sep c s :
  c ≠ sep →
  split sep (c :: s) = (c :: hd [] (split sep s)) :: tl (split sep s).
Proof.
  intros Hc. simpl. destruct (N.eqb_spec c sep) as [->|_]; [done|].
  pose proof (split_not_nil sep s). by destruct (split sep s).
Qed.

Lemma split_cons_eq sep s : split sep (sep :: s) = [] :: split sep s.
Proof. simpl. by rewrite N.eqb_refl. Qed.

(** Splitting distributes over a separator. *)
Lemma split_app_sep sep a b :
  split sep (a ++ sep :: b) = split sep a ++ split sep b.
Proof.
  induction a as [|c a IH].
  - by rewrite app_nil_l, split_cons_eq.
  - destruct (N.eq_dec c sep) as [->|Hc].
    + rewrite <- app_comm_cons, !split_cons_eq, IH. done.
    + rewrite <- app_comm_cons, !split_cons_ne, IH by done.
      pose proof (split_not_nil sep a). by destruct (split sep a).
Qed.

Lemma split_no_sep sep s : sep ∉ s → split sep s = [s].
Proof.
  induction s as [|c s IH]; intros Hs; [done|].
  rewrite not_elem_of_cons in Hs. destruct Hs as [Hc Hs].
  rewrite split_cons_ne by done. by rewrite IH.
Qed.

(** The first part of a split is what stands before the first
    separator; the other parts, joined again, are what stands after. *)
Lemma split_hd sep s :
  hd [] (split sep s) = Props.token_until (N.eqb sep) s.
Proof.
  induction s as [|c s IH]; [done|].
  simpl. rewrite (N.eqb_sym sep c).
  destruct (c =? sep)%N eqn:E; simpl; [done|].
  pose proof (split_not_nil sep s).
  destruct (split sep s); [done|]. simpl in *. by rewrite IH.
Qed.

Lemma join_cons sep x parts :
  parts ≠ [] → join sep (x :: parts) = x ++ sep ++ join sep parts.
Proof. by destruct parts. Qed.

Lemma join_split sep s : join [sep] (split sep s) = s.
Proof.
  induction s as [|c s IH]; [done|].
  pose proof (split_not_nil sep s) as Hne.
  destruct (N.eq_dec c sep) as [->|Hc].
  - rewrite split_cons_eq, join_cons, IH by done. done.
  - rewrite split_cons_ne by done.
    destruct (split sep s) as [|h t] eqn:E; [done|]. simpl hd; simpl tl.
    destruct t as [|h' t]; [simpl in *; by rewrite IH|].
    rewrite join_cons in IH |- * by done. by rewrite <- IH.
Qed.

Lemma join_tl_split sep s :
  join [sep] (tl (split sep s)) =
  drop (S (length (hd [] (split sep s)))) s.
Proof.
  induction s as [|c s IH]; [done|].
  destruct (N.eq_dec c sep) as [->|Hc].
  - rewrite split_cons_eq. simpl. apply join_split.
  - rewrite split_cons_ne by done. simpl. apply IH.
Qed.

Lemma lstrip_with_nil p s :
  lstrip_with p s = [] ↔ forallb p s = true.
Proof.
  induction s as [|c s IH]; simpl; [done|].
  destruct (p c); simpl; [done|]. split; [done|]. intros; discriminate.
Qed.

Lemma rstrip_with_nil p s :
  rstrip_with p s = [] ↔ forallb p s = true.
Proof.
  induction s as [|c s IH]; simpl; [done|].
  destruct (rstrip_with p s) eqn:E.
  - destruct (p c); simpl; [tauto|]. split; intros; discriminate.
  - split; [done|]. intros H. apply andb_true_iff in H as [_ H].
    apply IH in H. done.
Qed.

Lemma lstrip_with_all p s : forallb p s = true → lstrip_with p s = [].
Proof. apply lstrip_with_nil. Qed.

Lemma forallb_lstrip_with p s :
  forallb p (lstrip_with p s) = true → forallb p s = true.
Proof.
  induction s as [|c s IH]; simpl; [done|].
  destruct (p c) eqn:E; simpl; [done|]. by rewrite E.
Qed.

(** A string strips to nothing exactly when it is all whitespace. *)
Lemma strip_nil s : strip s = [] ↔ forallb isspace_char s = true.
Proof.
  unfold strip. rewrite rstrip_with_nil. split.
  - apply forallb_lstrip_with.
  - intros H. by rewrite lstrip_with_all.
Qed.

Lemma filter_nonempty_map_strip (ls : list pystr) :
  List.filter nonempty (List.map strip ls) =
  List.map strip (List.filter (fun ln => nonempty (strip ln)) ls).
Proof.
  induction ls as [|l ls IH]; [done|].
  simpl. destruct (nonempty (strip l)); simpl; by rewrite IH.
Qed.

End StringFacts.

(* ===================================================================== *)
(** * The translation step: alignment of lines and segments *)
(* ===================================================================== *)

Section Alignment.
Import Py Pipeline.

Lemma pad_loop_spec fuel : ∀ cleaned segments,
  (length segments ≤ length cleaned + fuel)%nat →
  pad_loop fuel cleaned segments =
  cleaned ++ List.map seg_text (drop (length cleaned) segments).
Proof.
  induction fuel as [|f IH]; intros cleaned segments Hlen; simpl.
  - rewrite drop_ge by lia. by rewrite app_nil_r.
  - destruct (Nat.ltb_spec (length cleaned) (length segments)) as [Hlt|Hge].
    + destruct (lookup_lt_is_Some_2 segments _ Hlt) as [seg Hseg].
      rewrite Hseg, IH by (rewrite length_app; simpl; lia).
      rewrite length_app, <- app_assoc. simpl.
      rewrite (drop_S _ _ _ Hseg). simpl.
      by rewrite Nat.add_1_r.
    + rewrite drop_ge by lia. by rewrite app_nil_r.
Qed.

(** The padding appends the texts of the segments that have no line. *)
Lemma pad_spec cleaned segments :
  pad cleaned segments =
  cleaned ++ List.map seg_text (drop (length cleaned) segments).
Proof.
  unfold pad. case_bool_decide as Hlen.
  - rewrite drop_ge by lia. by rewrite app_nil_r.
  - apply pad_loop_spec. lia.
Qed.

Lemma length_assign segments : ∀ lines,
  length (assign segments lines) = length segments.
Proof.
  induction segments as [|seg segs IH]; intros [|l ls]; simpl; auto.
Qed.

Lemma assign_lookup_line segments : ∀ lines i seg tr,
  segments !! i = Some seg → lines !! i = Some tr →
  assign segments lines !! i = Some (set_text seg tr).
Proof.
  induction segments as [|s segs IH]; intros [|l ls] [|i] seg tr Hs Hl;
    simplify_eq/=; eauto.
Qed.

Lemma assign_lookup_none segments : ∀ lines i,
  lines !! i = None → assign segments lines !! i = segments !! i.
Proof.
  induction segments as [|s segs IH]; intros [|l ls] [|i] Hl;
    simplify_eq/=; eauto.
Qed.

Lemma assign_times segments : ∀ lines,
  List.map seg_start (assign segments lines) = List.map seg_start segments ∧
  List.map seg_end (assign segments lines) = List.map seg_end segments.
Proof.
  induction segments as [|s segs IH]; intros [|l ls]; simpl; auto.
  destruct (IH ls) as [-> ->]. done.
Qed.

Lemma snapshot_lookup (segments : list Segment) i seg :
  segments !! i = Some seg →
  List.map (fun s => set_original_text s (seg_text s)) segments !! i =
  Some (set_original_text seg (seg_text seg)).
Proof. intros H. change (List.map ?f ?l) with (f <$> l). by rewrite list_lookup_fmap, H. Qed.

Lemma snapshot_times (segments : list Segment) :
  List.map seg_start
    (List.map (fun s => set_original_text s (seg_text s)) segments) =
    List.map seg_start segments ∧
  List.map seg_end
    (List.map (fun s => set_original_text s (seg_text s)) segments) =
    List.map seg_end segments.
Proof. rewrite !List.map_map. done. Qed.

Lemma cleaned_of_lines responses :
  cleaned_of responses =
  List.map (fun ln => strip_number (strip ln))
    (List.concat
       (List.map
          (fun text => List.filter (fun ln => nonempty (strip ln))
                         (split LF text))
          responses)).
Proof.
  unfold cleaned_of. induction responses as [|r rs IH]; [done|].
  simpl. rewrite List.map_app, <- IH. f_equal.
  unfold response_lines. rewrite filter_nonempty_map_strip.
  by rewrite List.map_map.
Qed.

End Alignment.

Section TranslationStep.
Import Py Pipeline.
Context {St : Type}.
Variable generate_content : St -> pystr -> result pystr * St.

Lemma snapshot_texts (segments : list Segment) :
  List.map seg_text
    (List.map (fun s => set_original_text s (seg_text s)) segments) =
  List.map seg_text segments.
Proof. by rewrite List.map_map. Qed.

(** After padding and assignment, the text of segment [i] is entry [i]
    of the recovered lines followed by the texts of the segments that
    had no line. *)
Lemma final_text_lookup (segments : list Segment) cleaned i :
  (i < length segments)%nat →
  let segments1 :=
    List.map (fun s => set_original_text s (seg_text s)) segments in
  seg_text <$> assign segments1 (pad cleaned segments1) !! i =
  (cleaned ++ List.map seg_text (drop (length cleaned) segments)) !! i.
Proof.
  intros Hi segments1.
  assert (Hpad : pad cleaned segments1 =
            cleaned ++ List.map seg_text (drop (length cleaned) segments)).
  { rewrite pad_spec. f_equal. subst segments1.
    change (List.map ?f ?l) with (f <$> l).
    rewrite <- !fmap_drop, <- list_fmap_compose. done. }
  rewrite Hpad. subst segments1.
  set (lines := cleaned ++ _).
  assert (Hlen : (length segments ≤ length lines)%nat).
  { subst lines. rewrite length_app, length_map, length_drop. lia. }
  destruct (lookup_lt_is_Some_2 segments i Hi) as [seg Hseg].
  destruct (lookup_lt_is_Some_2 lines i ltac:(lia)) as [tr Htr].
  rewrite (assign_lookup_line _ _ _ _ tr (snapshot_lookup _ _ _ Hseg) Htr).
  by rewrite Htr.
Qed.

Lemma translate_segments_ok st lang (segments : list Segment) cleaned st' :
  recover generate_content st lang (List.map seg_text segments)
    = (Ok cleaned, st') →
  ∃ segments',
    translate_segments generate_content st lang segments
      = (Ok segments', st') ∧
    length segments' = length segments ∧
    (∀ i, (i < length segments)%nat →
       seg_text <$> segments' !! i =
       (cleaned ++ List.map seg_text (drop (length cleaned) segments)) !! i) ∧
    List.map seg_start segments' = List.map seg_start segments ∧
    List.map seg_end segments' = List.map seg_end segments.
Proof.
  intros Hrec. unfold translate_segments. rewrite Hrec.
  eexists. split; [reflexivity|]. split; [|split; [|split]].
  - by rewrite length_assign, length_map.
  - intros i Hi. by apply final_text_lookup.
  - destruct (assign_times
      (List.map (fun s => set_original_text s (seg_text s)) segments)
      (pad cleaned
         (List.map (fun s => set_original_text s (seg_text s)) segments)))
      as [-> _].
    apply snapshot_times.
  - destruct (assign_times
      (List.map (fun s => set_original_text s (seg_text s)) segments)
      (pad cleaned
         (List.map (fun s => set_original_text s (seg_text s)) segments)))
      as [_ ->].
    apply snapshot_times.
Qed.

(** ** C1 *)

(** C1. When the chunk loop recovers [m] lines for [n] segments and
    [m < n], the translation step returns normally: segments [0..m-1]
    carry the recovered lines [0..m-1] in order, every segment [i] with
    [m <= i < n] keeps the text it had before translation, and no
    segment is added, dropped or re-timed. *)
Theorem short_response_keeps_original_text
    st lang (segments : list Segment) (cleaned : list pystr) st' :
  recover generate_content st lang (List.map seg_text segments)
    = (Ok cleaned, st') →
  (length cleaned < length segments)%nat →
  ∃ segments',
    translate_segments generate_content st lang segments
      = (Ok segments', st') ∧
    length segments' = length segments ∧
    (∀ i tr, cleaned !! i = Some tr →
       seg_text <$> segments' !! i = Some tr) ∧
    (∀ i seg, (length cleaned ≤ i)%nat → segments !! i = Some seg →
       seg_text <$> segments' !! i = Some (seg_text seg)) ∧
    List.map seg_start segments' = List.map seg_start segments ∧
    List.map seg_end segments' = List.map seg_end segments.
Proof.
  intros Hrec Hshort.
  destruct (translate_segments_ok _ _ _ _ _ Hrec)
    as (segments' & Hrun & Hlen & Htext & Hstart & Hend).
  exists segments'. repeat split; try done.
  - intros i tr Htr.
    pose proof (lookup_lt_Some _ _ _ Htr).
    rewrite Htext by lia. by rewrite lookup_app_l.
  - intros i seg Hi Hseg.
    pose proof (lookup_lt_Some _ _ _ Hseg).
    rewrite Htext by lia. rewrite lookup_app_r by lia.
    change (List.map ?f ?l) with (f <$> l).
    rewrite list_lookup_fmap, lookup_drop.
    replace (length cleaned + (i - length cleaned))%nat with i by lia.
    by rewrite Hseg.
Qed.

(** ** C9 *)

(** C9. When the chunk loop recovers more lines than there are
    segments, the translation step returns normally, the padding
    changes nothing, segment [i] carries recovered line [i] for every
    [i < n], and the result has [n] segments: the lines from [n] on
    are used nowhere. *)
Theorem surplus_lines_are_dropped
    st lang (segments : list Segment) (cleaned : list pystr) st' :
  recover generate_content st lang (List.map seg_text segments)
    = (Ok cleaned, st') →
  (length segments < length cleaned)%nat →
  ∃ segments',
    translate_segments generate_content st lang segments
      = (Ok segments', st') ∧
    length segments' = length segments ∧
    List.map seg_text segments' = take (length segments) cleaned ∧
    (∀ i, (i < length segments)%nat →
       seg_text <$> segments' !! i = cleaned !! i) ∧
    pad cleaned segments = cleaned.
Proof.
  intros Hrec Hlong.
  destruct (translate_segments_ok _ _ _ _ _ Hrec)
    as (segments' & Hrun & Hlen & Htext & _ & _).
  assert (Hi : ∀ i, (i < length segments)%nat →
            seg_text <$> segments' !! i = cleaned !! i).
  { intros i Hi. rewrite Htext by lia. by rewrite lookup_app_l by lia. }
  exists segments'. repeat split; try done.
  - apply list_eq. intros i.
    change (List.map ?f ?l) with (f <$> l). rewrite list_lookup_fmap.
    destruct (decide (i < length segments)%nat) as [Hlt|Hge].
    + rewrite lookup_take_lt by lia. by apply Hi.
    + rewrite lookup_take_ge by lia.
      by rewrite (lookup_ge_None_2 segments') by lia.
  - rewrite pad_spec, drop_ge by lia. by rewrite app_nil_r.
Qed.

(** ** C2 *)

(** C2, as amended. When the responses used for the chunks hold, in
    all, exactly one non-blank line per segment, segment [i] ends with
    non-blank response line [i] after the surrounding whitespace is
    stripped and a leading number token is removed; the order and the
    count of the segments are unchanged. *)
Theorem one_line_per_segment_aligns
    st lang (segments : list Segment) (responses : list pystr) st' :
  chunk_responses generate_content st lang
    (chunks (List.map seg_text segments)) = (Ok responses, st') →
  length (Props.all_nonblank_lines responses) = length segments →
  ∃ segments',
    translate_segments generate_content st lang segments
      = (Ok segments', st') ∧
    length segments' = length segments ∧
    (∀ i ln, Props.all_nonblank_lines responses !! i = Some ln →
       seg_text <$> segments' !! i = Some (strip_number (strip ln))).
Proof.
  intros Hresp Hcount.
  assert (Hrec : recover generate_content st lang
            (List.map seg_text segments)
            = (Ok (cleaned_of responses), st')).
  { unfold recover. by rewrite Hresp. }
  destruct (translate_segments_ok _ _ _ _ _ Hrec)
    as (segments' & Hrun & Hlen & Htext & _ & _).
  exists segments'. repeat split; try done.
  intros i ln Hln. pose proof (lookup_lt_Some _ _ _ Hln).
  rewrite Htext by lia. rewrite cleaned_of_lines.
  fold Props.nonblank_lines. fold (Props.all_nonblank_lines responses).
  rewrite lookup_app_l by (rewrite length_map; lia).
  change (List.map ?f ?l) with (f <$> l).
  by rewrite list_lookup_fmap, Hln.
Qed.

End TranslationStep.

(** ** C10 *)

(** C10, as amended. The first token is what stands before the first
    space (U+0020).  When that token, without its trailing periods, is a
    non-empty run of digits, the number-stripping step drops the token
    and the one space behind it, whatever the token meant; every other
    line is kept as it is. *)
Theorem strip_number_drops_leading_digit_token (ln : pystr) :
  Pipeline.strip_number ln =
  if Py.isdigit
       (Py.rstrip_with (N.eqb Py.DOT) (Props.token_until (N.eqb Py.SP) ln))
  then drop (S (length (Props.token_until (N.eqb Py.SP) ln))) ln
  else ln.
Proof.
  unfold Pipeline.strip_number.
  rewrite join_tl_split, split_hd.
  reflexivity.
Qed.

(* ===================================================================== *)
(** * Instances of the alignment properties *)
(* ===================================================================== *)

Section AlignmentInstances.
Import Py Pipeline Samples.

(** Two segments, one recovered line. *)
Lemma short_response_instance :
  recover scripted [Ok (py "1. Hello")] (py "en")
    (List.map seg_text [seg1; seg2]) = (Ok [py "Hello"], []) ∧
  (length [py "Hello"] < length [seg1; seg2])%nat ∧
  ∃ segments',
    translate_segments scripted [Ok (py "1. Hello")] (py "en") [seg1; seg2]
      = (Ok segments', []) ∧
    length segments' = length [seg1; seg2] ∧
    (∀ i tr, [py "Hello"] !! i = Some tr →
       seg_text <$> segments' !! i = Some tr) ∧
    (∀ i seg, (length [py "Hello"] ≤ i)%nat → [seg1; seg2] !! i = Some seg →
       seg_text <$> segments' !! i = Some (seg_text seg)) ∧
    List.map seg_start segments' = List.map seg_start [seg1; seg2] ∧
    List.map seg_end segments' = List.map seg_end [seg1; seg2].
Proof.
  split; [vm_compute; reflexivity|]. split; [simpl; lia|].
  apply (short_response_keeps_original_text scripted
           [Ok (py "1. Hello")] (py "en") [seg1; seg2] [py "Hello"] []).
  - vm_compute; reflexivity.
  - simpl; lia.
Defined.

(** One segment, two recovered lines. *)
Lemma surplus_lines_instance :
  recover scripted [Ok (py "Hello" ++ [LF] ++ py "World")] (py "en")
    (List.map seg_text [seg1]) = (Ok [py "Hello"; py "World"], []) ∧
  (length [seg1] < length [py "Hello"; py "World"])%nat ∧
  ∃ segments',
    translate_segments scripted
      [Ok (py "Hello" ++ [LF] ++ py "World")] (py "en") [seg1]
      = (Ok segments', []) ∧
    length segments' = length [seg1] ∧
    List.map seg_text segments' =
      take (length [seg1]) [py "Hello"; py "World"] ∧
    (∀ i, (i < length [seg1])%nat →
       seg_text <$> segments' !! i = [py "Hello"; py "World"] !! i) ∧
    pad [py "Hello"; py "World"] [seg1] = [py "Hello"; py "World"].
Proof.
  split; [vm_compute; reflexivity|]. split; [simpl; lia|].
  apply (surplus_lines_are_dropped scripted
           [Ok (py "Hello" ++ [LF] ++ py "World")] (py "en") [seg1]
           [py "Hello"; py "World"] []).
  - vm_compute; reflexivity.
  - simpl; lia.
Defined.

(** Two segments, a response of two numbered lines. *)
Lemma one_line_per_segment_instance :
  chunk_responses scripted
    [Ok (py "1. Hello" ++ [LF] ++ py "2. World")] (py "en")
    (chunks (List.map seg_text [seg1; seg2]))
    = (Ok [py "1. Hello" ++ [LF] ++ py "2. World"], []) ∧
  length (Props.all_nonblank_lines [py "1. Hello" ++ [LF] ++ py "2. World"])
    = length [seg1; seg2] ∧
  ∃ segments',
    translate_segments scripted
      [Ok (py "1. Hello" ++ [LF] ++ py "2. World")] (py "en") [seg1; seg2]
      = (Ok segments', []) ∧
    length segments' = length [seg1; seg2] ∧
    (∀ i ln,
       Props.all_nonblank_lines [py "1. Hello" ++ [LF] ++ py "2. World"] !! i
         = Some ln →
       seg_text <$> segments' !! i = Some (strip_number (strip ln))).
Proof.
  split; [vm_compute; reflexivity|]. split; [vm_compute; reflexivity|].
  apply (one_line_per_segment_aligns scripted
           [Ok (py "1. Hello" ++ [LF] ++ py "2. World")] (py "en")
           [seg1; seg2] [py "1. Hello" ++ [LF] ++ py "2. World"] []).
  - vm_compute; reflexivity.
  - vm_compute; reflexivity.
Defined.

(** C2 as stated fails: one segment, the one-line response "1. Hello";
    the segment ends with "Hello", which is not the response line. *)
Lemma response_line_differs_from_final_text :
  chunk_responses scripted [Ok (py "1. Hello")] (py "en")
    (chunks (List.map seg_text [seg1])) = (Ok [py "1. Hello"], []) ∧
  Props.all_nonblank_lines [py "1. Hello"] = [py "1. Hello"] ∧
  texts_of (fst (translate_segments scripted [Ok (py "1. Hello")]
                   (py "en") [seg1])) = Some [py "Hello"] ∧
  py "Hello" ≠ py "1. Hello".
Proof. repeat split; try (vm_compute; reflexivity). vm_compute. discriminate. Qed.

(** C10 as stated fails: in the line "1.<TAB>Hello" the first token
    delimited by whitespace is "1.", a run of digits once the period is
    removed, and yet the line is kept whole. *)
Lemma tab_numbered_line_is_kept :
  Props.token_until isspace_char (py "1." ++ [9%N] ++ py "Hello") = py "1." ∧
  isdigit (rstrip_with (N.eqb DOT) (py "1.")) = true ∧
  strip (py "1." ++ [9%N] ++ py "Hello") = py "1." ++ [9%N] ++ py "Hello" ∧
  strip_number (py "1." ++ [9%N] ++ py "Hello")
    = py "1." ++ [9%N] ++ py "Hello".
Proof. repeat split; vm_compute; reflexivity. Qed.

(** A year at the head of a line goes the way of a line number. *)
Example strip_number_year :
  strip_number (py "2023 was a good year") = py "was a good year".
Proof. vm_compute; reflexivity. Qed.

Example strip_number_fullwidth :
  strip_number ([65298%N; DOT; SP] ++ py "Hello") = py "Hello".
Proof. vm_compute; reflexivity. Qed.

Example strip_number_dots_only :
  strip_number (py "... and then") = py "... and then".
Proof. vm_compute; reflexivity. Qed.

End AlignmentInstances.

(* ===================================================================== *)
(** * Facts about paths *)
(* ===================================================================== *)

Section PathFacts.
Import Py Pathlib.

Lemma parse_parts_single (s : pystr) :
  SLASH ∉ s → s ≠ [] → s ≠ [DOT] → parse_parts s = [s].
Proof.
  intros Hslash Hne Hdot. unfold parse_parts.
  rewrite split_no_sep by done. simpl. unfold is_component.
  rewrite bool_decide_false by done. by destruct s.
Qed.

(** Joining one component: it is the name of the result. *)
Lemma name_div (dir : Path) (s : pystr) :
  SLASH ∉ s → s ≠ [] → s ≠ [DOT] → name (dir // s) = s.
Proof.
  intros H1 H2 H3. unfold name, div.
  rewrite parse_parts_single by done. apply last_last.
Qed.

Lemma rfind_none (c : N) (s : pystr) : c ∉ s → rfind c s = None.
Proof.
  induction s as [|x s IH]; [done|].
  rewrite not_elem_of_cons. intros [Hx Hs]. simpl. rewrite IH by done.
  destruct (N.eqb_spec x c); congruence.
Qed.

Lemma rfind_last (c : N) (a b : pystr) :
  c ∉ b → rfind c (a ++ c :: b) = Some (length a).
Proof.
  intros Hb. induction a as [|x a IH]; simpl.
  - by rewrite rfind_none, N.eqb_refl.
  - by rewrite IH.
Qed.

(** A name [a.b] with a dot-free, non-empty [b] and a non-empty [a]
    has the stem [a] and the suffix [.b]. *)
Lemma stem_suffix (p : Path) (a b : pystr) :
  name p = a ++ DOT :: b → DOT ∉ b → a ≠ [] → b ≠ [] →
  stem p = a ∧ suffix p = DOT :: b.
Proof.
  intros Hname Hb Ha Hb'. unfold stem, suffix, cut_index.
  rewrite Hname, rfind_last by done.
  rewrite length_app. simpl.
  replace (0 <? length a)%nat with true
    by (symmetry; apply Nat.ltb_lt; destruct a; [done|simpl; lia]).
  replace (length a <? length a + S (length b) - 1)%nat with true
    by (symmetry; apply Nat.ltb_lt; destruct b; [done|simpl; lia]).
  simpl. by rewrite take_app_length, drop_app_length.
Qed.

Lemma tagged_name (dir : Path) (stem_ lang tag ext : pystr) :
  SLASH ∉ stem_ → SLASH ∉ lang → SLASH ∉ tag → SLASH ∉ ext →
  DOT ∉ ext → ext ≠ [] →
  let nm := stem_ ++ [DOT] ++ lang ++ tag ++ DOT :: ext in
  name (dir // nm) = nm ∧ suffix (dir // nm) = DOT :: ext.
Proof.
  intros H1 H2 H3 H4 H5 H6 nm.
  assert (Hname : name (dir // nm) = nm).
  { assert (Hlen : (2 ≤ length nm)%nat).
    { subst nm. rewrite !length_app. simpl. lia. }
    apply name_div.
    - subst nm. rewrite !not_elem_of_app, !not_elem_of_cons.
      repeat split; try done; apply not_elem_of_nil.
    - intros Heq. rewrite Heq in Hlen. simpl in Hlen. lia.
    - intros Heq. rewrite Heq in Hlen. simpl in Hlen. lia. }
  split; [done|].
  apply (stem_suffix _ (stem_ ++ [DOT] ++ lang ++ tag) ext); try done.
  - rewrite Hname. subst nm. by rewrite <- !app_assoc.
  - by destruct stem_.
Qed.

End PathFacts.

Ltac not_in_constant :=
  rewrite list_elem_of_In; vm_compute; intuition discriminate.

(* ===================================================================== *)
(** * The fast path and the output names *)
(* ===================================================================== *)

Section FastPath.
Import Py Pipeline.

Lemma nonempty_false {A} (l : list A) : nonempty l = false ↔ l = [].
Proof. by destruct l. Qed.



End FastPath.

Section BlankCaptions.
Import Py Pipeline Blank.



End BlankCaptions.

(** ** C7 *)



(** Two blank segments give two blocks. *)
Example blank_transcript_file :
  Pipeline.transcribe_video Samples.scripted Samples.video_mov
      [py "storage"] (py "ur") (Ok [Samples.blank_seg; Samples.blank_seg])
      [] ∅ =
    (Ok ([Samples.blank_seg; Samples.blank_seg],
         [py "storage"; py "abc_clip.ur.srt"]),
     [],
     {[ [py "storage"; py "abc_clip.ur.srt"] :=
          py "1" ++ [Py.LF] ++ py "00:00:00,000 --> 00:00:01,500" ++
          [Py.LF; Py.LF; Py.LF] ++
          py "2" ++ [Py.LF] ++ py "00:00:00,000 --> 00:00:01,500" ++
          [Py.LF; Py.LF; Py.LF] ]}).
Proof. vm_compute; reflexivity. Qed.

(** ** C8 *)

(** C8, as amended. The output file of the compositing stage is
    [output_dir / "<source-stem>.<lang>_burned.mp4"]: the extension is
    always [mp4], whatever the extension of the source video (for a
    stem and a language code without a slash, the name of the file is
    that text and its suffix is [.mp4]); when the encoder fails no path
    is returned. *)
Theorem burned_output_name
    (decode : list Byte.byte -> result pystr)
    (video_path srt_path output_dir : Path) (target_lang : pystr)
    (outcome : encoder_outcome) :
  let out_file :=
    output_dir //
      (Pathlib.stem video_path ++ [Py.DOT] ++ target_lang ++
       py "_burned" ++ py ".mp4") in
  Pipeline.burn_subtitles decode video_path srt_path output_dir
    target_lang EncDone = Ok out_file ∧
  (Pipeline.burn_subtitles decode video_path srt_path output_dir
     target_lang outcome = Ok out_file ∨
   ∃ e, Pipeline.burn_subtitles decode video_path srt_path output_dir
          target_lang outcome = Raise e) ∧
  (Py.SLASH ∉ Pathlib.stem video_path → Py.SLASH ∉ target_lang →
   Pathlib.name out_file =
     Pathlib.stem video_path ++ [Py.DOT] ++ target_lang ++
     py "_burned" ++ py ".mp4" ∧
   Pathlib.suffix out_file = py ".mp4").
Proof.
  intros out_file. split; [reflexivity|]. split.
  - destruct outcome as [|stderr str_e|e]; simpl.
    + by left.
    + right. destruct (Pipeline.diagnostic decode stderr str_e); eauto.
    + right. eauto.
  - intros Hstem Hlang.
    apply (tagged_name output_dir (Pathlib.stem video_path) target_lang
             (py "_burned") (py "mp4")); try done; not_in_constant.
Qed.

(** The source "abc_clip.mov", target language "en". *)
Lemma burned_output_instance :
  (Py.SLASH ∉ Pathlib.stem Samples.video_mov) ∧
  (Py.SLASH ∉ py "en") ∧
  Pipeline.burn_subtitles Samples.decode_ascii Samples.video_mov
    [py "storage"; py "abc_clip.en.srt"] [py "storage"] (py "en") EncDone
    = Ok [py "storage"; py "abc_clip.en_burned.mp4"] ∧
  (Pipeline.burn_subtitles Samples.decode_ascii Samples.video_mov
     [py "storage"; py "abc_clip.en.srt"] [py "storage"] (py "en")
     Samples.ffmpeg_failed = Ok [py "storage"; py "abc_clip.en_burned.mp4"] ∨
   ∃ e, Pipeline.burn_subtitles Samples.decode_ascii Samples.video_mov
          [py "storage"; py "abc_clip.en.srt"] [py "storage"] (py "en")
          Samples.ffmpeg_failed = Raise e) ∧
  (Py.SLASH ∉ Pathlib.stem Samples.video_mov → Py.SLASH ∉ py "en" →
   Pathlib.name [py "storage"; py "abc_clip.en_burned.mp4"]
     = py "abc_clip.en_burned.mp4" ∧
   Pathlib.suffix [py "storage"; py "abc_clip.en_burned.mp4"] = py ".mp4").
Proof.
  split; [not_in_constant|]. split; [not_in_constant|].
  exact (burned_output_name Samples.decode_ascii Samples.video_mov
           [py "storage"; py "abc_clip.en.srt"] [py "storage"] (py "en")
           Samples.ffmpeg_failed).
Defined.

(** C8 as stated fails: for the source "abc_clip.mov" the output is
    "abc_clip.en_burned.mp4"; its extension is not the source's. *)
Lemma burned_output_is_mp4_for_mov :
  Pathlib.suffix Samples.video_mov = py ".mov" ∧
  Pipeline.burn_subtitles Samples.decode_ascii Samples.video_mov
    [py "storage"; py "abc_clip.en.srt"] [py "storage"] (py "en") EncDone
    = Ok [py "storage"; py "abc_clip.en_burned.mp4"] ∧
  [py "storage"; py "abc_clip.en_burned.mp4"] ≠
    [py "storage"] //
      (Pathlib.stem Samples.video_mov ++ [Py.DOT] ++ py "en" ++
       py "_burned" ++ Pathlib.suffix Samples.video_mov).
Proof. repeat split; try (vm_compute; reflexivity). vm_compute. discriminate. Qed.

(* ===================================================================== *)
(** * Integers as decimal text *)
(* ===================================================================== *)

Section Decimal.
Import Py Props.

Lemma digits_value_snoc s c :
  digits_value (s ++ [c]) = 10 * digits_value s + (Z.of_N c - 48).
Proof. unfold digits_value. by rewrite fold_left_app. Qed.

Lemma digit_char_ascii d :
  0 ≤ d < 10 → is_ascii_digit (digit_char d) = true ∧
               Z.of_N (digit_char d) - 48 = d.
Proof.
  intros Hd. unfold is_ascii_digit, digit_char. split.
  - apply andb_true_iff. split; apply N.leb_le; lia.
  - lia.
Qed.

Lemma dec_digits_spec fuel : ∀ n,
  0 ≤ n < 10 ^ Z.of_nat fuel → (0 < fuel)%nat →
  forallb is_ascii_digit (dec_digits fuel n) = true ∧
  dec_digits fuel n ≠ [] ∧
  digits_value (dec_digits fuel n) = n.
Proof.
  induction fuel as [|f IH]; intros n Hn Hfuel; [lia|].
  - cbn [dec_digits]. destruct (Z.ltb_spec n 10) as [Hlt|Hge].
    + destruct (digit_char_ascii n ltac:(lia)) as [Hd Hv].
      repeat split; [by simpl; rewrite Hd| done |].
      unfold digits_value. simpl. lia.
    + assert (Hq : 0 ≤ n / 10 < 10 ^ Z.of_nat f).
      { rewrite Nat2Z.inj_succ, Z.pow_succ_r in Hn by lia.
        split; [apply Z.div_pos; lia|].
        apply Z.div_lt_upper_bound; lia. }
      assert (Hf : (0 < f)%nat).
      { destruct f; [simpl in Hn; lia|lia]. }
      destruct (IH _ Hq Hf) as (Ha & Hne & Hv).
      destruct (digit_char_ascii (n mod 10)
                  ltac:(apply Z.mod_pos_bound; lia)) as [Hd Hm].
      repeat split.
      * rewrite forallb_app, Ha. simpl. by rewrite Hd.
      * by destruct (dec_digits f (n / 10)).
      * rewrite digits_value_snoc, Hv, Hm.
        pose proof (Z.div_mod n 10 ltac:(lia)). lia.
Qed.

Lemma dec_fuel n : 0 ≤ n → n < 10 ^ Z.of_nat (S (Z.to_nat (Z.log2 n))).
Proof.
  intros Hn. rewrite Nat2Z.inj_succ, Z2Nat.id by apply Z.log2_nonneg.
  destruct (Z.eq_dec n 0) as [->|Hz]; [done|].
  pose proof (Z.log2_spec n ltac:(lia)) as [_ Hlt].
  eapply Z.lt_le_trans; [exact Hlt|].
  apply Z.pow_le_mono_l. pose proof (Z.log2_nonneg n). lia.
Qed.

Lemma dec_spec n :
  0 ≤ n →
  forallb is_ascii_digit (dec n) = true ∧ dec n ≠ [] ∧
  digits_value (dec n) = n.
Proof.
  intros Hn. apply dec_digits_spec; [|lia].
  split; [done|by apply dec_fuel].
Qed.

(** At most [k] digits below [10^k]. *)
Lemma length_dec_digits_le fuel : ∀ n k,
  0 ≤ n < 10 ^ Z.of_nat k → (0 < k)%nat →
  (length (dec_digits fuel n) ≤ k)%nat.
Proof.
  induction fuel as [|f IH]; intros n k Hn Hk; simpl; [lia|].
  destruct (Z.ltb_spec n 10) as [Hlt|Hge]; [simpl; lia|].
  rewrite length_app. simpl.
  destruct k as [|k]; [lia|].
  destruct k as [|k]; [simpl in Hn; lia|].
  assert (0 ≤ n / 10 < 10 ^ Z.of_nat (S k)).
  { rewrite (Nat2Z.inj_succ (S k)), Z.pow_succ_r in Hn by lia.
    split; [apply Z.div_pos; lia|].
    apply Z.div_lt_upper_bound; lia. }
  pose proof (IH (n / 10) (S k) ltac:(done) ltac:(lia)). lia.
Qed.

(** More than [k] digits from [10^k] on. *)
Lemma length_dec_digits_gt fuel : ∀ n k,
  10 ^ Z.of_nat k ≤ n < 10 ^ Z.of_nat fuel →
  (k < length (dec_digits fuel n))%nat.
Proof.
  induction fuel as [|f IH]; intros n k Hn.
  - simpl in Hn. pose proof (Z.pow_pos_nonneg 10 (Z.of_nat k)). lia.
  - cbn [dec_digits]. destruct (Z.ltb_spec n 10) as [Hlt|Hge].
    + destruct k as [|k]; [simpl; lia|].
      rewrite Nat2Z.inj_succ, Z.pow_succ_r in Hn by lia.
      pose proof (Z.pow_pos_nonneg 10 (Z.of_nat k)). lia.
    + rewrite length_app. simpl.
      destruct k as [|k]; [lia|].
      assert (10 ^ Z.of_nat k ≤ n / 10 < 10 ^ Z.of_nat f).
      { rewrite !Nat2Z.inj_succ, !Z.pow_succ_r in Hn by lia.
        split; [apply Z.div_le_lower_bound; lia|].
        apply Z.div_lt_upper_bound; lia. }
      pose proof (IH (n / 10) k ltac:(done)). lia.
Qed.

Lemma length_dec_le n k :
  0 ≤ n < 10 ^ Z.of_nat k → (0 < k)%nat → (1 ≤ length (dec n) ≤ k)%nat.
Proof.
  intros Hn Hk. split; [|by apply length_dec_digits_le].
  destruct (dec_spec n ltac:(lia)) as (_ & Hne & _).
  destruct (dec n); [done|simpl; lia].
Qed.

Lemma length_dec_gt n k :
  10 ^ Z.of_nat k ≤ n → (k < length (dec n))%nat.
Proof.
  intros Hn. apply length_dec_digits_gt. split; [done|].
  apply dec_fuel. pose proof (Z.pow_pos_nonneg 10 (Z.of_nat k)). lia.
Qed.

Lemma digits_value_zeros k s :
  digits_value (replicate k ZERO ++ s) = digits_value s.
Proof.
  unfold digits_value. rewrite fold_left_app.
  replace (fold_left _ (replicate k ZERO) 0) with 0; [done|].
  induction k as [|k IH]; [done|]. simpl. exact IH.
Qed.

Lemma forallb_replicate_zero k :
  forallb is_ascii_digit (replicate k ZERO) = true.
Proof. induction k; [done|]. simpl. done. Qed.

(** A zero-padded field reads back as the number it renders. *)
Lemma format_0d_spec w n :
  0 ≤ n →
  forallb is_ascii_digit (format_0d w n) = true ∧
  parse_dec (format_0d w n) = Some n ∧
  length (format_0d w n) = (w `max` length (dec n))%nat.
Proof.
  intros Hn. destruct (dec_spec n Hn) as (Ha & Hne & Hv).
  unfold format_0d. destruct (Z.ltb_spec n 0) as [?|_]; [lia|].
  assert (Hall : forallb is_ascii_digit
                   (replicate (w - length (dec n)) ZERO ++ dec n) = true).
  { by rewrite forallb_app, forallb_replicate_zero, Ha. }
  repeat split; [done| |].
  - unfold parse_dec. rewrite Hall.
    replace (nonempty _) with true.
    + simpl. by rewrite digits_value_zeros, Hv.
    + destruct (dec n); [done|]. by destruct (replicate _ _).
  - rewrite length_app, length_replicate. lia.
Qed.

Lemma str_of_int_nonneg n : 0 ≤ n → str_of_int n = dec n.
Proof. intros Hn. unfold str_of_int. by destruct (Z.ltb_spec n 0); [lia|]. Qed.

Lemma format_0d_small w n :
  0 ≤ n < 10 ^ Z.of_nat w → (0 < w)%nat → length (format_0d w n) = w.
Proof.
  intros Hn Hw. destruct (format_0d_spec w n ltac:(lia)) as (_ & _ & ->).
  pose proof (length_dec_le n w Hn Hw). lia.
Qed.

Lemma format_0d_large w n :
  10 ^ Z.of_nat w ≤ n → format_0d w n = str_of_int n ∧
                         (w < length (format_0d w n))%nat.
Proof.
  intros Hn. pose proof (Z.pow_pos_nonneg 10 (Z.of_nat w)).
  pose proof (length_dec_gt n w Hn) as Hlen.
  rewrite str_of_int_nonneg by lia.
  unfold format_0d. destruct (Z.ltb_spec n 0) as [?|_]; [lia|].
  replace (w - length (dec n))%nat with O by lia. done.
Qed.

Lemma ascii_digit_not c s :
  forallb is_ascii_digit s = true → is_ascii_digit c = false → c ∉ s.
Proof.
  intros Hs Hc Hin. rewrite forallb_forall in Hs.
  apply list_elem_of_In in Hin. apply Hs in Hin. congruence.
Qed.

End Decimal.

(* ===================================================================== *)
(** * Timestamps *)
(* ===================================================================== *)

Section Timestamps.
Import Py Props Srt Pipeline.

(** The four fields of a millisecond count. *)
Lemma srt_fields_ranges ms :
  0 ≤ ms →
  0 ≤ ms / 3600000 ∧
  0 ≤ (ms mod 3600000) / 60000 < 60 ∧
  0 ≤ (ms mod 60000) / 1000 < 60 ∧
  0 ≤ ms mod 1000 < 1000 ∧
  ms / 3600000 * 3600000 + (ms mod 3600000) / 60000 * 60000 +
    (ms mod 60000) / 1000 * 1000 + ms mod 1000 = ms.
Proof. intros Hms. Z.div_mod_to_equations. lia. Qed.

Lemma split_field sep f rest :
  forallb is_ascii_digit f = true → is_ascii_digit sep = false →
  split sep (f ++ [sep] ++ rest) = f :: split sep rest.
Proof.
  intros Hf Hsep. simpl app. rewrite split_app_sep.
  rewrite split_no_sep by (by apply ascii_digit_not). done.
Qed.

Lemma split_last_field sep f :
  forallb is_ascii_digit f = true → is_ascii_digit sep = false →
  split sep f = [f].
Proof. intros Hf Hsep. apply split_no_sep. by apply ascii_digit_not. Qed.

(** A rendered timestamp reads back as its millisecond count. *)
Lemma parse_srt_fields ms :
  0 ≤ ms → parse_timestamp (srt_fields ms) = Some ms.
Proof.
  intros Hms.
  destruct (srt_fields_ranges ms Hms) as (Hh & Hm & Hs & Hr & Hsum).
  destruct (format_0d_spec 2 (ms / 3600000) Hh) as (Hha & Hhp & Hhl).
  destruct (format_0d_spec 2 ((ms mod 3600000) / 60000) ltac:(lia))
    as (Hma & Hmp & _).
  destruct (format_0d_spec 2 ((ms mod 60000) / 1000) ltac:(lia))
    as (Hsa & Hsp & _).
  destruct (format_0d_spec 3 (ms mod 1000) ltac:(lia)) as (Hra & Hrp & _).
  pose proof (format_0d_small 2 ((ms mod 3600000) / 60000)
                ltac:(simpl; lia) ltac:(lia)) as Hml.
  pose proof (format_0d_small 2 ((ms mod 60000) / 1000)
                ltac:(simpl; lia) ltac:(lia)) as Hsl.
  pose proof (format_0d_small 3 (ms mod 1000)
                ltac:(simpl; lia) ltac:(lia)) as Hrl.
  unfold parse_timestamp, srt_fields.
  rewrite (split_field COLON) by done.
  rewrite (split_field COLON) by done.
  assert (Hrest : split COLON
            (format_0d 2 ((ms mod 60000) / 1000) ++ [COMMA] ++
             format_0d 3 (ms mod 1000)) =
            [format_0d 2 ((ms mod 60000) / 1000) ++ [COMMA] ++
             format_0d 3 (ms mod 1000)]).
  { apply split_no_sep. rewrite !not_elem_of_app. repeat split.
    - by apply ascii_digit_not.
    - by rewrite list_elem_of_singleton.
    - by apply ascii_digit_not. }
  rewrite Hrest.
  rewrite (split_field COMMA) by done.
  rewrite (split_last_field COMMA) by done.
  rewrite Hhp, Hmp, Hsp, Hrp, Hml, Hsl, Hrl.
  replace (2 <=? length (format_0d 2 (ms / 3600000)))%nat with true
    by (symmetry; apply Nat.leb_le; lia).
  simpl.
  destruct (Z.ltb_spec ((ms mod 3600000) / 60000) 60); [|lia].
  destruct (Z.ltb_spec ((ms mod 60000) / 1000) 60); [|lia].
  simpl. f_equal. lia.
Qed.

Lemma srt_fields_chars ms c :
  0 ≤ ms → c ∈ srt_fields ms →
  is_ascii_digit c = true ∨ c = COLON ∨ c = COMMA.
Proof.
  intros Hms. destruct (srt_fields_ranges ms Hms) as (Hh & Hm & Hs & Hr & _).
  destruct (format_0d_spec 2 (ms / 3600000) Hh) as (Hha & _).
  destruct (format_0d_spec 2 ((ms mod 3600000) / 60000) ltac:(lia))
    as (Hma & _).
  destruct (format_0d_spec 2 ((ms mod 60000) / 1000) ltac:(lia))
    as (Hsa & _).
  destruct (format_0d_spec 3 (ms mod 1000) ltac:(lia)) as (Hra & _).
  unfold srt_fields. rewrite !elem_of_app, !list_elem_of_singleton.
  rewrite forallb_forall in Hha, Hma, Hsa, Hra.
  setoid_rewrite <- list_elem_of_In in Hha.
  setoid_rewrite <- list_elem_of_In in Hma.
  setoid_rewrite <- list_elem_of_In in Hsa.
  setoid_rewrite <- list_elem_of_In in Hra.
  intros [?|[?|[?|[?|[?|[?|?]]]]]]; auto.
Qed.

End Timestamps.

(* ===================================================================== *)
(** * The millisecond count of a float *)
(* ===================================================================== *)

Section Floats.
Import Py Srt Pipeline Props.

Lemma shiftl_integer_part m e :
  0 ≤ Z.shiftl (Z.pos m) e ∧
  integer_part (S754_finite false m e) (Z.shiftl (Z.pos m) e).
Proof.
  split; [by apply Z.shiftl_nonneg|].
  unfold integer_part. destruct (Z.le_gt_cases 0 e) as [He|He].
  - rewrite Z.shiftl_mul_pow2 by done.
    rewrite Z.max_l, Z.max_r by lia. simpl. lia.
  - assert (Hdiv : Z.shiftl (Z.pos m) e = Z.pos m / 2 ^ (- e)).
    { rewrite <- (Z.opp_involutive e) at 1.
      rewrite Z.shiftl_opp_r, Z.shiftr_div_pow2 by lia. done. }
    rewrite Hdiv, Z.max_r, Z.max_l by lia. rewrite Z.pow_0_r, Z.mul_1_r.
    assert (0 < 2 ^ (- e)) by (apply Z.pow_pos_nonneg; lia).
    pose proof (Z.div_mod (Z.pos m) (2 ^ (- e)) ltac:(lia)).
    pose proof (Z.mod_pos_bound (Z.pos m) (2 ^ (- e)) ltac:(lia)).
    nia.
Qed.

(** The product of a non-negative float and 1000.0 is a non-negative
    float, an infinity or (never, in fact) a NaN. *)
Lemma fmul_1000_nonneg x :
  nonneg_finite x = true → is_finite (fmul x f1000) = true →
  (∃ b, fmul x f1000 = S754_zero b) ∨
  (∃ m e, fmul x f1000 = S754_finite false m e).
Proof.
  destruct x as [b| | |[] m e]; try discriminate; intros _.
  - left. by eexists.
  - unfold fmul, f1000, SFmul. simpl xorb. unfold binary_round_aux.
    destruct (shr_fexp _ _ _ _ _) as [mrs' e'].
    destruct (shr_fexp _ _ _ _ _) as [mrs'' e''].
    destruct (shr_m mrs'') as [|p|p]; [left; by eexists| |discriminate].
    destruct (e'' <=? 1024 - 53); [|discriminate].
    right. by eexists _, _.
Qed.

Lemma truthy_or_zero x :
  nonneg_finite x = true →
  fmul (if float_truthy x then x else fzero) f1000 = fmul x f1000 ∨
  (∃ b, x = S754_zero b).
Proof. destruct x; simpl; eauto. Qed.

(** The millisecond count of a non-negative time whose product with
    1000.0 is finite: the integer part of that product. *)
Lemma srt_ms_nonneg x :
  nonneg_finite x = true → is_finite (fmul x f1000) = true →
  ∃ ms, srt_ms x = Ok ms ∧ 0 ≤ ms ∧ integer_part (fmul x f1000) ms.
Proof.
  intros Hx Hfin. unfold srt_ms.
  destruct x as [b| | |[] m e]; try discriminate.
  - exists 0. by destruct b.
  - simpl float_truthy. cbv iota.
    destruct (fmul_1000_nonneg _ Hx Hfin) as [[b ->]|(m' & e' & ->)].
    + by exists 0.
    + exists (Z.shiftl (Z.pos m') e'). split; [done|].
      apply shiftl_integer_part.
Qed.

End Floats.

(* ===================================================================== *)
(** * Reading back what was written *)
(* ===================================================================== *)

Section Reader.
Import Py Srt Pipeline Props.

Lemma ascii_digit_not_space c :
  is_ascii_digit c = true → isspace_char c = false.
Proof.
  unfold is_ascii_digit. rewrite andb_true_iff, !N.leb_le. intros [H1 H2].
  unfold isspace_char, in_ranges, space_table. simpl.
  repeat (apply orb_false_intro);
    try (apply andb_false_iff;
         ((left; apply N.leb_gt; lia) || (right; apply N.leb_gt; lia)));
    done.
Qed.

Lemma not_blank_head c s : isspace_char c = false → blank (c :: s) = false.
Proof.
  intros Hc. unfold blank. apply negb_false_iff.
  destruct (strip (c :: s)) eqn:E; [|done].
  apply strip_nil in E. simpl in E. by rewrite Hc in E.
Qed.

Lemma digits_not_blank s :
  forallb is_ascii_digit s = true → s ≠ [] → blank s = false.
Proof.
  destruct s as [|c s]; [done|]. simpl. intros H _.
  apply andb_true_iff in H as [H _].
  by apply not_blank_head, ascii_digit_not_space.
Qed.

Lemma blank_nil : blank [] = true.
Proof. done. Qed.

Lemma index_line i :
  0 ≤ i → (LF ∉ str_of_int i) ∧ blank (str_of_int i) = false ∧
          parse_dec (str_of_int i) = Some i.
Proof.
  intros Hi. rewrite str_of_int_nonneg by done.
  destruct (dec_spec i Hi) as (Ha & Hne & Hv).
  repeat split.
  - by apply ascii_digit_not.
  - by apply digits_not_blank.
  - unfold parse_dec. rewrite Ha, Hv. by destruct (dec i).
Qed.

Lemma srt_fields_no c ms :
  0 ≤ ms → is_ascii_digit c = false → c ≠ COLON → c ≠ COMMA →
  c ∉ srt_fields ms.
Proof.
  intros Hms Hd H1 H2 Hin.
  destruct (srt_fields_chars ms c Hms Hin) as [?|[?|?]]; congruence.
Qed.

Lemma timing_line ms1 ms2 :
  0 ≤ ms1 → 0 ≤ ms2 →
  (LF ∉ srt_fields ms1 ++ py " --> " ++ srt_fields ms2) ∧
  parse_timing (srt_fields ms1 ++ py " --> " ++ srt_fields ms2)
    = Some (srt_fields ms1, srt_fields ms2).
Proof.
  intros H1 H2. split.
  - rewrite !not_elem_of_app. repeat split.
    + by apply srt_fields_no.
    + rewrite list_elem_of_In. vm_compute. intuition discriminate.
    + by apply srt_fields_no.
  - unfold parse_timing.
    change (srt_fields ms1 ++ py " --> " ++ srt_fields ms2)
      with (srt_fields ms1 ++ SP :: (py "-->" ++ SP :: srt_fields ms2)).
    rewrite !split_app_sep.
    rewrite !(split_no_sep SP (srt_fields _)) by (by apply srt_fields_no).
    change (split SP (py "-->")) with [py "-->"].
    cbn [app]. rewrite bool_decide_true by done.
    by rewrite !parse_srt_fields.
Qed.

(** The reader takes the lines of a text without blank lines whole. *)
Lemma read_text_lines i t1 t2 : ∀ ls acc rest,
  forallb (fun l => nonempty (strip l)) ls = true →
  read (InText i t1 t2 acc) (ls ++ [] :: rest) =
  match read AtIndex rest with
  | Some bs => Some (mkBlock i t1 t2 (rev acc ++ ls) :: bs)
  | None => None
  end.
Proof.
  induction ls as [|l ls IH]; intros acc rest Hls.
  - simpl. by rewrite app_nil_r.
  - simpl in Hls. apply andb_true_iff in Hls as [Hl Hls].
    simpl. unfold blank at 1. rewrite Hl. simpl.
    rewrite IH by done. simpl. by rewrite <- app_assoc.
Qed.

Lemma read_caption i t1 t2 text rest :
  text_ok text = true →
  read (InText i t1 t2 []) (split LF (strip text) ++ [] :: rest) =
  match read AtIndex rest with
  | Some bs => Some (mkBlock i t1 t2 (caption_lines text) :: bs)
  | None => None
  end.
Proof.
  unfold text_ok, caption_lines. intros Hok.
  destruct (nonempty (strip text)) eqn:E.
  - simpl in Hok. by rewrite read_text_lines.
  - apply nonempty_false in E. rewrite E. simpl. done.
Qed.

(** One written block, read back. *)
Lemma read_block i seg b :
  0 ≤ i → segment_ok seg = true → srt_block i seg = Ok b →
  ∃ blk, block_of i seg blk ∧
    ∀ rest, read AtIndex (split LF (b ++ rest)) =
            match read AtIndex (split LF rest) with
            | Some bs => Some (blk :: bs)
            | None => None
            end.
Proof.
  intros Hi Hok Hb. unfold segment_ok, time_ok in Hok.
  apply andb_true_iff in Hok as [Hok Htext].
  apply andb_true_iff in Hok as [Hs He].
  unfold srt_block, _srt_time in Hb.
  destruct (srt_ms (seg_start seg)) as [ms1|] eqn:E1; [|done].
  destruct (srt_ms (seg_end seg)) as [ms2|] eqn:E2; [|done].
  apply Z.leb_le in Hs, He.
  assert (b = str_of_int i ++ [LF] ++ srt_fields ms1 ++ py " --> " ++
              srt_fields ms2 ++ [LF] ++ strip (seg_text seg) ++ [LF; LF])
    as -> by congruence.
  clear Hb.
  exists (mkBlock i (srt_fields ms1) (srt_fields ms2)
            (caption_lines (seg_text seg))).
  split.
  { unfold block_of, _srt_time. rewrite E1, E2. done. }
  intros rest.
  destruct (index_line i Hi) as (HiLF & Hiblank & Hiparse).
  destruct (timing_line ms1 ms2 Hs He) as (HtLF & Htparse).
  replace ((str_of_int i ++ [LF] ++ srt_fields ms1 ++ py " --> " ++
            srt_fields ms2 ++ [LF] ++ strip (seg_text seg) ++ [LF; LF])
           ++ rest)
    with (str_of_int i ++ LF ::
          ((srt_fields ms1 ++ py " --> " ++ srt_fields ms2) ++ LF ::
           (strip (seg_text seg) ++ LF :: (LF :: rest))))
    by (rewrite <- !app_assoc; done).
  rewrite !split_app_sep, split_cons_eq.
  rewrite (split_no_sep LF (str_of_int i)) by done.
  rewrite (split_no_sep LF (_ ++ _ ++ _)) by done.
  cbn [app read]. rewrite Hiblank, Hiparse, Htparse.
  rewrite read_caption by done. done.
Qed.

(** A whole written file, read back. *)
Lemma read_written segments : ∀ i written,
  0 ≤ i → forallb segment_ok segments = true →
  ∃ content blocks,
    write_blocks i segments written = (written ++ content, None) ∧
    blocks_of i segments blocks ∧
    ∀ rest, read AtIndex (split LF (content ++ rest)) =
            match read AtIndex (split LF rest) with
            | Some bs => Some (blocks ++ bs)
            | None => None
            end.
Proof.
  induction segments as [|seg segs IH]; intros i written Hi Hok.
  - exists [], []. simpl. rewrite app_nil_r. repeat split.
    intros rest. by destruct (read AtIndex (split LF rest)).
  - simpl in Hok. apply andb_true_iff in Hok as [Hseg Hsegs].
    assert (∃ b, srt_block i seg = Ok b) as [b Hb].
    { unfold segment_ok, time_ok in Hseg.
      apply andb_true_iff in Hseg as [Hseg _].
      apply andb_true_iff in Hseg as [Hs He].
      unfold srt_block, _srt_time.
      destruct (srt_ms (seg_start seg)); [|done].
      destruct (srt_ms (seg_end seg)); [|done]. eauto. }
    destruct (IH (i + 1) (written ++ b) ltac:(lia) Hsegs)
      as (content & blocks & Hw & Hblocks & Hread).
    destruct (read_block i seg b Hi Hseg Hb) as (blk & Hblk & Hrd).
    exists (b ++ content), (blk :: blocks). split; [|split].
    + simpl. rewrite Hb, Hw. by rewrite <- app_assoc.
    + done.
    + intros rest. rewrite <- app_assoc, Hrd, Hread.
      by destruct (read AtIndex (split LF rest)).
Qed.

Lemma blocks_of_lookup segments : ∀ i blocks,
  blocks_of i segments blocks →
  length blocks = length segments ∧
  ∀ k seg, segments !! k = Some seg →
    ∃ b, blocks !! k = Some b ∧ block_of (i + Z.of_nat k) seg b.
Proof.
  induction segments as [|seg segs IH]; intros i [|b bs] H; try done.
  destruct H as [Hb Hbs]. destruct (IH _ _ Hbs) as [Hlen Hk].
  split; [simpl; lia|].
  intros [|k] seg' Hseg'.
  - injection Hseg' as <-. exists b. split; [done|].
    by replace (i + Z.of_nat 0) with i by lia.
  - destruct (Hk k seg' Hseg') as (b' & ? & ?). exists b'. split; [done|].
    by replace (i + Z.of_nat (S k)) with (i + 1 + Z.of_nat k) by lia.
Qed.

End Reader.

(* ===================================================================== *)
(** * The timestamp and the subtitle file *)
(* ===================================================================== *)

(** ** C3 *)

(** C3, as amended. For every float [seconds] that is a number, is not
    negative, and whose product with [1000.0] is finite, [_srt_time]
    returns [HH:MM:SS,mmm] where the millisecond count [ms] is the
    integer part of the float product [seconds * 1000.0] (truncated, not
    rounded: [ms <= product < ms + 1]); the four fields are the decimal
    digits of hours, minutes, seconds and milliseconds of [ms]; minutes
    and seconds take two digits, milliseconds three, hours two when
    below 100 and, from 100 on, the digits of the number and no more. *)
Theorem srt_time_truncates_and_pads (seconds : Py.float) :
  Props.nonneg_finite seconds = true →
  Props.is_finite (Py.fmul seconds Py.f1000) = true →
  ∃ ms HH MM SS mmm,
    Pipeline.srt_ms seconds = Ok ms ∧ 0 ≤ ms ∧
    Props.integer_part (Py.fmul seconds Py.f1000) ms ∧
    Pipeline._srt_time seconds =
      Ok (HH ++ [Py.COLON] ++ MM ++ [Py.COLON] ++ SS ++ [Py.COMMA] ++ mmm) ∧
    Props.parse_dec HH = Some (ms / 3600000) ∧
    Props.parse_dec MM = Some ((ms mod 3600000) / 60000) ∧
    Props.parse_dec SS = Some ((ms mod 60000) / 1000) ∧
    Props.parse_dec mmm = Some (ms mod 1000) ∧
    length MM = 2%nat ∧ length SS = 2%nat ∧ length mmm = 3%nat ∧
    (2 ≤ length HH)%nat ∧
    (ms / 3600000 < 100 → length HH = 2%nat) ∧
    (100 ≤ ms / 3600000 → HH = Py.str_of_int (ms / 3600000)).
Proof.
  intros Hx Hfin.
  destruct (srt_ms_nonneg seconds Hx Hfin) as (ms & Hms & Hpos & Hint).
  destruct (srt_fields_ranges ms Hpos) as (Hh & Hm & Hs & Hr & _).
  exists ms, (Py.format_0d 2 (ms / 3600000)),
    (Py.format_0d 2 ((ms mod 3600000) / 60000)),
    (Py.format_0d 2 ((ms mod 60000) / 1000)),
    (Py.format_0d 3 (ms mod 1000)).
  destruct (format_0d_spec 2 (ms / 3600000) Hh) as (_ & Hhp & Hhl).
  destruct (format_0d_spec 2 ((ms mod 3600000) / 60000) ltac:(lia))
    as (_ & Hmp & _).
  destruct (format_0d_spec 2 ((ms mod 60000) / 1000) ltac:(lia))
    as (_ & Hsp & _).
  destruct (format_0d_spec 3 (ms mod 1000) ltac:(lia)) as (_ & Hrp & _).
  split; [done|]. split; [done|]. split; [done|].
  split; [unfold Pipeline._srt_time; by rewrite Hms|].
  split; [done|]. split; [done|]. split; [done|]. split; [done|].
  split; [apply format_0d_small; [simpl; lia|lia]|].
  split; [apply format_0d_small; [simpl; lia|lia]|].
  split; [apply format_0d_small; [simpl; lia|lia]|].
  split; [lia|].
  split.
  - intros Hlt. apply format_0d_small; [simpl; lia|lia].
  - intros Hge. by apply (format_0d_large 2).
Qed.

(** 3723.004 seconds. *)
Lemma srt_time_instance :
  Props.nonneg_finite (Samples.seconds 3723004 1000) = true ∧
  Props.is_finite (Py.fmul (Samples.seconds 3723004 1000) Py.f1000) = true ∧
  ∃ ms HH MM SS mmm,
    Pipeline.srt_ms (Samples.seconds 3723004 1000) = Ok ms ∧ 0 ≤ ms ∧
    Props.integer_part (Py.fmul (Samples.seconds 3723004 1000) Py.f1000) ms ∧
    Pipeline._srt_time (Samples.seconds 3723004 1000) =
      Ok (HH ++ [Py.COLON] ++ MM ++ [Py.COLON] ++ SS ++ [Py.COMMA] ++ mmm) ∧
    Props.parse_dec HH = Some (ms / 3600000) ∧
    Props.parse_dec MM = Some ((ms mod 3600000) / 60000) ∧
    Props.parse_dec SS = Some ((ms mod 60000) / 1000) ∧
    Props.parse_dec mmm = Some (ms mod 1000) ∧
    length MM = 2%nat ∧ length SS = 2%nat ∧ length mmm = 3%nat ∧
    (2 ≤ length HH)%nat ∧
    (ms / 3600000 < 100 → length HH = 2%nat) ∧
    (100 ≤ ms / 3600000 → HH = Py.str_of_int (ms / 3600000)).
Proof.
  split; [vm_compute; reflexivity|]. split; [vm_compute; reflexivity|].
  apply (srt_time_truncates_and_pads (Samples.seconds 3723004 1000)).
  - vm_compute; reflexivity.
  - vm_compute; reflexivity.
Defined.

Example srt_time_3723_004 :
  Pipeline._srt_time (Samples.seconds 3723004 1000) = Ok (py "01:02:03,004").
Proof. vm_compute; reflexivity. Qed.

(** 1.9999 seconds: the tenth of a millisecond is cut, not rounded up. *)
Example srt_time_1_9999 :
  Pipeline._srt_time (Samples.seconds 19999 10000) = Ok (py "00:00:01,999").
Proof. vm_compute; reflexivity. Qed.

(** 360000.1 seconds: three digits of hours. *)
Example srt_time_100_hours :
  Pipeline._srt_time (Samples.seconds 3600001 10) = Ok (py "100:00:00,100").
Proof. vm_compute; reflexivity. Qed.

(** C3 as stated fails: 2^1023 is a float, a number and not negative;
    its product with 1000.0 is infinite and [int] raises. *)
Lemma srt_time_overflows :
  Props.nonneg_finite Samples.huge = true ∧
  valid_binary 53 1024 Samples.huge = true ∧
  Py.fmul Samples.huge Py.f1000 = S754_infinity false ∧
  Pipeline._srt_time Samples.huge =
    Raise (mkExn OverflowError (py "cannot convert float infinity to integer")).
Proof. repeat split; vm_compute; reflexivity. Qed.

(** ** C4 *)

(** C4, as amended. For every segment list whose times [_srt_time]
    renders (numbers, not negative, product with 1000.0 finite) and
    whose stripped texts have no blank line inside, [_write_srt]
    succeeds and a reader of the block grammar finds in the file as many
    blocks as there are segments, in their order, numbered from 1, block
    [k] with the timestamps that [_srt_time] gives for the start and the
    end of segment [k], which read back as their truncated millisecond
    counts, and with the lines of its stripped text. *)
Theorem written_subtitles_read_back
    (segments : list Segment) (path : Path) (fs : files) :
  forallb Props.segment_ok segments = true →
  ∃ content blocks,
    Pipeline._write_srt segments path fs = (Ok tt, <[path := content]> fs) ∧
    Srt.parse_srt content = Some blocks ∧
    length blocks = length segments ∧
    ∀ k seg, segments !! k = Some seg →
      ∃ b ms1 ms2,
        blocks !! k = Some b ∧
        blk_index b = Z.of_nat k + 1 ∧
        Pipeline._srt_time (seg_start seg) = Ok (blk_start b) ∧
        Pipeline._srt_time (seg_end seg) = Ok (blk_end b) ∧
        Pipeline.srt_ms (seg_start seg) = Ok ms1 ∧
        Pipeline.srt_ms (seg_end seg) = Ok ms2 ∧
        Srt.parse_timestamp (blk_start b) = Some ms1 ∧
        Srt.parse_timestamp (blk_end b) = Some ms2 ∧
        blk_text b = Props.caption_lines (seg_text seg).
Proof.
  intros Hok.
  destruct (read_written segments 1 [] ltac:(lia) Hok)
    as (content & blocks & Hw & Hblocks & Hread).
  destruct (blocks_of_lookup _ _ _ Hblocks) as [Hlen Hk].
  exists content, blocks. split; [|split; [|split]].
  - unfold Pipeline._write_srt. by rewrite Hw.
  - unfold Srt.parse_srt. rewrite <- (app_nil_r content), Hread.
    simpl. by rewrite app_nil_r.
  - done.
  - intros k seg Hseg.
    destruct (Hk k seg Hseg) as (b & Hb & Hidx & Hstart & Hend & Htext).
    assert (Hsegok : Props.segment_ok seg = true).
    { rewrite forallb_forall in Hok. apply Hok.
      apply list_elem_of_In. by eapply list_elem_of_lookup_2. }
    unfold Props.segment_ok, Props.time_ok in Hsegok.
    apply andb_true_iff in Hsegok as [Hsegok _].
    apply andb_true_iff in Hsegok as [Hs He].
    unfold Pipeline._srt_time in Hstart, Hend.
    destruct (Pipeline.srt_ms (seg_start seg)) as [ms1|] eqn:E1; [|done].
    destruct (Pipeline.srt_ms (seg_end seg)) as [ms2|] eqn:E2; [|done].
    apply Z.leb_le in Hs, He.
    assert (blk_start b = Pipeline.srt_fields ms1) as Hb1 by congruence.
    assert (blk_end b = Pipeline.srt_fields ms2) as Hb2 by congruence.
    exists b, ms1, ms2. unfold Pipeline._srt_time. rewrite E1, E2.
    rewrite Hb1, Hb2, !parse_srt_fields by done.
    repeat split; try done. lia.
Qed.

(** Three captions. *)
Lemma written_subtitles_instance :
  forallb Props.segment_ok [Samples.seg1; Samples.seg2; Samples.seg3] = true ∧
  ∃ content blocks,
    Pipeline._write_srt [Samples.seg1; Samples.seg2; Samples.seg3]
      [py "storage"; py "clip.en.srt"] ∅
      = (Ok tt, <[[py "storage"; py "clip.en.srt"] := content]> ∅) ∧
    Srt.parse_srt content = Some blocks ∧
    length blocks = length [Samples.seg1; Samples.seg2; Samples.seg3] ∧
    ∀ k seg, [Samples.seg1; Samples.seg2; Samples.seg3] !! k = Some seg →
      ∃ b ms1 ms2,
        blocks !! k = Some b ∧
        blk_index b = Z.of_nat k + 1 ∧
        Pipeline._srt_time (seg_start seg) = Ok (blk_start b) ∧
        Pipeline._srt_time (seg_end seg) = Ok (blk_end b) ∧
        Pipeline.srt_ms (seg_start seg) = Ok ms1 ∧
        Pipeline.srt_ms (seg_end seg) = Ok ms2 ∧
        Srt.parse_timestamp (blk_start b) = Some ms1 ∧
        Srt.parse_timestamp (blk_end b) = Some ms2 ∧
        blk_text b = Props.caption_lines (seg_text seg).
Proof.
  split; [vm_compute; reflexivity|].
  apply (written_subtitles_read_back
           [Samples.seg1; Samples.seg2; Samples.seg3]
           [py "storage"; py "clip.en.srt"] ∅).
  vm_compute; reflexivity.
Defined.

(** C4 as stated fails: a caption with an empty line inside is written
    as it is; the file of the first sample no longer reads as blocks,
    and the file of the second, one segment, reads as two blocks.  And
    for a segment that starts after 2^1023 seconds no file is completed:
    [_write_srt] raises. *)
Lemma blank_line_breaks_the_blocks :
  fst (Pipeline._write_srt [Samples.seg_late] [py "storage"; py "clip.en.srt"] ∅)
    = Raise (mkExn OverflowError
               (py "cannot convert float infinity to integer")) ∧
  Props.time_ok (seg_start Samples.seg_gap) = true ∧
  Props.time_ok (seg_end Samples.seg_gap) = true ∧
  snd (Pipeline.write_blocks 1 [Samples.seg_gap] []) = None ∧
  fst (Pipeline.write_blocks 1 [Samples.seg_gap] []) =
    py "1" ++ [Py.LF] ++ py "00:00:00,000 --> 00:00:01,000" ++ [Py.LF] ++
    py "a" ++ [Py.LF; Py.LF] ++ py "b" ++ [Py.LF; Py.LF] ∧
  Srt.parse_srt (fst (Pipeline.write_blocks 1 [Samples.seg_gap] [])) = None ∧
  snd (Pipeline.write_blocks 1 [Samples.seg_fake] []) = None ∧
  option_map (List.map blk_index)
    (Srt.parse_srt (fst (Pipeline.write_blocks 1 [Samples.seg_fake] [])))
    = Some [1; 7] ∧
  length [Samples.seg_fake] = 1%nat.
Proof. repeat split; vm_compute; reflexivity. Qed.

(* ===================================================================== *)
(** * The job registry over time *)
(* ===================================================================== *)

Section ServerFacts.
Import Py Main Registry.
Context {St : Type}.
Variable generate_content : St -> pystr -> result pystr * St.
Variable decode : list Byte.byte -> result pystr.
Variable uuid4 : nat -> pystr.

Local Abbreviation step := (Main.step generate_content decode uuid4).
Local Abbreviation run := (Main.run generate_content decode uuid4).
Local Abbreviation observed := (Main.observed generate_content decode uuid4).
Local Abbreviation upload_video := (Main.upload_video generate_content uuid4).

(** [_background_burn] on a job that exists: it returns normally and
    replaces the record by the outcome of [burn_subtitles]. *)
Lemma background_burn_spec (job_id : pystr) (video srt : Path)
    (lang : pystr) (enc : encoder_outcome) (jobs : gmap pystr Job)
    (job : Job) :
  jobs !! job_id = Some job →
  _background_burn decode job_id video srt lang enc jobs =
  (Ok tt,
   <[job_id :=
       match Pipeline.burn_subtitles decode video srt STORAGE_DIR lang enc
       with
       | Ok out_path => update_done job (Pathlib.name out_path)
       | Raise e => update_error job (exn_msg e)
       end]> jobs).
Proof.
  intros Hjob. unfold _background_burn.
  destruct (Pipeline.burn_subtitles _ _ _ _ _ _); by rewrite Hjob.
Qed.

(** The two ways an upload ends. *)
Lemma upload_video_cases (ct : option pystr) (filename payload lang : pystr)
    (whisper : result (list Segment)) (s : @Server St) :
  let r := fst (upload_video ct filename payload lang whisper s) in
  let s' := snd (upload_video ct filename payload lang whisper s) in
  ((∃ code detail, r = HTTPError code detail) ∧
   JOBS s' = JOBS s ∧ tasks s' = tasks s ∧
   (uuid_calls s ≤ uuid_calls s')%nat) ∨
  (∃ transcript video srt,
     r = RespJobId (uuid4 (uuid_calls s)) ∧
     JOBS s' = <[uuid4 (uuid_calls s) := mkJob BURNING transcript None None]>
                 (JOBS s) ∧
     tasks s' = tasks s ++ [mkTask (uuid4 (uuid_calls s)) video srt lang] ∧
     uuid_calls s' = S (uuid_calls s)).
Proof.
  unfold Main.upload_video.
  destruct (negb _).
  - left. simpl. eauto 10.
  - destruct (Pipeline.transcribe_video _ _ _ _ _ _ _)
      as [[[[segments srt]|e] st'] fs']; simpl.
    + right. eauto 10.
    + left. eauto 10.
Qed.

Lemma consistent_init (st : St) (fs : files) :
  consistent uuid4 (init st fs).
Proof.
  split; [|split]; simpl.
  - intros j job H. by rewrite lookup_empty in H.
  - intros t H. by apply elem_of_nil in H.
  - constructor.
Qed.

Section Fresh.
Hypothesis uuid4_inj : ∀ n m, uuid4 n = uuid4 m → n = m.

Lemma next_uuid_fresh (s : @Server St) :
  consistent uuid4 s → JOBS s !! uuid4 (uuid_calls s) = None.
Proof.
  intros (Hids & _ & _).
  destruct (JOBS s !! uuid4 (uuid_calls s)) as [job|] eqn:E; [|done].
  destruct (Hids _ _ E) as (n & Hn & Heq).
  apply uuid4_inj in Heq. lia.
Qed.

Lemma consistent_step (s : @Server St) (ev : event) :
  consistent uuid4 s → consistent uuid4 (fst (step s ev)).
Proof.
  intros Hs. pose proof Hs as (Hids & Htasks & Hnodup).
  destruct ev as [ct filename payload lang whisper|k enc|j]; simpl.
  - pose proof (upload_video_cases ct filename payload lang whisper s)
      as Hcases.
    destruct (upload_video ct filename payload lang whisper s)
      as [r s'] eqn:E.
    simpl in *.
    destruct Hcases as [(_ & HJ & HT & HU)|
                        (tr & video & srt & _ & HJ & HT & HU)].
    + split; [|split].
      * intros j job Hj. rewrite HJ in Hj.
        destruct (Hids _ _ Hj) as (n & ? & ?). exists n. split; [lia|done].
      * intros t Ht. rewrite HT in Ht. rewrite HJ. by apply Htasks.
      * by rewrite HT.
    + pose proof (next_uuid_fresh s Hs) as Hfresh.
      split; [|split].
      * intros j job Hj. rewrite HJ in Hj. rewrite HU.
        destruct (decide (j = uuid4 (uuid_calls s))) as [->|Hne].
        -- exists (uuid_calls s). split; [lia|done].
        -- rewrite lookup_insert_ne in Hj by done.
           destruct (Hids _ _ Hj) as (n & ? & ?).
           exists n. split; [lia|done].
      * intros t Ht. rewrite HT in Ht. rewrite HJ.
        apply elem_of_app in Ht as [Ht|Ht].
        -- destruct (Htasks t Ht) as (job & Hjob & Hst).
           exists job. split; [|done].
           rewrite lookup_insert_ne; [done|].
           intros Heq. rewrite <- Heq in Hjob. congruence.
        -- apply list_elem_of_singleton in Ht as ->. simpl.
           eexists. rewrite lookup_insert_eq. done.
      * rewrite HT, fmap_app. simpl. apply NoDup_app. split; [done|].
        split; [|apply NoDup_singleton].
        intros j Hj Hj'. apply list_elem_of_singleton in Hj' as ->.
        apply list_elem_of_fmap in Hj as (t & Heq & Ht).
        destruct (Htasks t Ht) as (job & Hjob & _).
        rewrite <- Heq in Hjob. congruence.
  - destruct (tasks s !! k) as [t|] eqn:Ek; [|done].
    destruct (Htasks t (list_elem_of_lookup_2 _ _ _ Ek))
      as (job & Hjob & Hst).
    rewrite (background_burn_spec _ _ _ _ _ _ _ Hjob).
    unfold consistent. cbn [JOBS tasks uuid_calls fst].
    split; [|split].
    + intros j job' Hj.
      destruct (decide (j = task_job t)) as [->|Hne].
      * by apply (Hids _ job).
      * rewrite lookup_insert_ne in Hj by done. by apply (Hids _ job').
    + intros t' Ht'.
      apply list_elem_of_lookup in Ht' as [i Hi].
      assert (Hi' : ∃ i', i' ≠ k ∧ tasks s !! i' = Some t').
      { destruct (decide (i < k)%nat).
        - exists i. split; [lia|].
          by rewrite list_lookup_delete_lt in Hi by lia.
        - exists (S i). split; [lia|].
          by rewrite list_lookup_delete_ge in Hi by lia. }
      destruct Hi' as (i' & Hne & Hi').
      destruct (Htasks t' (list_elem_of_lookup_2 _ _ _ Hi'))
        as (job' & Hjob' & Hst').
      exists job'. split; [|done].
      rewrite lookup_insert_ne; [done|].
      intros Heq.
      apply Hne. apply (NoDup_lookup _ _ _ (task_job t') Hnodup);
        rewrite list_lookup_fmap; [by rewrite Hi'|].
      rewrite Ek. simpl. by rewrite Heq.
    + rewrite list_fmap_delete.
      apply (sublist_NoDup _ (task_job <$> tasks s)); [done|].
      apply sublist_delete.
  - done.
Qed.


Lemma consistent_run evs : ∀ s : @Server St,
  consistent uuid4 s → consistent uuid4 (run s evs).
Proof.
  induction evs as [|ev evs IH]; intros s Hs; [done|].
  simpl. by apply IH, consistent_step.
Qed.

(** One event and the status of one job: a job appears as burning; a
    burning job stays so or ends; any other status stays. *)
Lemma step_status (s : @Server St) (ev : event) (j : pystr) :
  consistent uuid4 s →
  match status_at s j with
  | None =>
      status_at (fst (step s ev)) j = None ∨
      status_at (fst (step s ev)) j = Some BURNING
  | Some t =>
      status_at (fst (step s ev)) j = Some t ∨
      (t = BURNING ∧
       ∃ t', terminal t' ∧ status_at (fst (step s ev)) j = Some t')
  end.
Proof.
  intros Hs. pose proof Hs as (Hids & Htasks & Hnodup).
  assert (Hsame : ∀ s' : @Server St, JOBS s' = JOBS s →
            match status_at s j with
            | None => status_at s' j = None ∨ status_at s' j = Some BURNING
            | Some t =>
                status_at s' j = Some t ∨
                (t = BURNING ∧
                 ∃ t', terminal t' ∧ status_at s' j = Some t')
            end).
  { intros s' HJ. unfold status_at. rewrite HJ.
    destruct (JOBS s !! j); simpl; by left. }
  destruct ev as [ct filename payload lang whisper|k enc|j']; simpl.
  - pose proof (upload_video_cases ct filename payload lang whisper s)
      as Hcases.
    destruct (upload_video ct filename payload lang whisper s)
      as [r s'] eqn:E.
    simpl in *.
    destruct Hcases as [(_ & HJ & _)|(tr & video & srt & _ & HJ & _)];
      [by apply Hsame|].
    pose proof (next_uuid_fresh s Hs) as Hfresh.
    unfold status_at. rewrite HJ.
    destruct (decide (j = uuid4 (uuid_calls s))) as [->|Hne].
    + rewrite Hfresh, lookup_insert_eq. simpl. by right.
    + rewrite lookup_insert_ne by done.
      destruct (JOBS s !! j); simpl; by left.
  - destruct (tasks s !! k) as [t|] eqn:Ek; [|by apply Hsame].
    destruct (Htasks t (list_elem_of_lookup_2 _ _ _ Ek))
      as (job & Hjob & Hst).
    rewrite (background_burn_spec _ _ _ _ _ _ _ Hjob).
    unfold status_at. cbn [JOBS fst].
    destruct (decide (j = task_job t)) as [->|Hne].
    + rewrite Hjob, lookup_insert_eq. simpl. rewrite Hst. right.
      split; [done|].
      destruct (Pipeline.burn_subtitles _ _ _ _ _ _); simpl.
      * exists DONE. split; [by left|done].
      * exists ERROR. split; [by right|done].
    + rewrite lookup_insert_ne by done.
      destruct (JOBS s !! j); simpl; by left.
  - by apply Hsame.
Qed.

Lemma observed_cons (j : pystr) (s : @Server St) (ev : event) evs :
  observed j s (ev :: evs) =
  match ev with
  | EvStatus j' =>
      if bool_decide (j' = j)
      then match status_at s j with Some t => [t] | None => [] end
      else []
  | _ => []
  end ++ observed j (fst (step s ev)) evs.
Proof.
  destruct ev as [ct filename payload lang whisper|k enc|j']; simpl.
  - by destruct (upload_video ct filename payload lang whisper s).
  - destruct (tasks s !! k); [|done].
    by destruct (_background_burn _ _ _ _ _ _ _).
  - unfold job_status, status_at. case_bool_decide as Hj.
    + subst j'. by destruct (JOBS s !! j).
    + by destruct (JOBS s !! j').
Qed.

Lemma monotonic_nil : monotonic [].
Proof. exists O, O, DONE. split; [done|by left]. Qed.

Lemma monotonic_cons_burning l : monotonic l → monotonic (BURNING :: l).
Proof.
  intros (a & b & t & -> & Ht). exists (S a), b, t. by split.
Qed.

Lemma monotonic_terminal b t : terminal t → monotonic (replicate b t).
Proof. intros Ht. exists O, b, t. by split. Qed.

Lemma terminal_not_burning t : terminal t → t ≠ BURNING.
Proof. intros [->| ->]; vm_compute; discriminate. Qed.

(** The status reads of a job from a consistent state on. *)
Lemma observed_monotonic (j : pystr) evs : ∀ s : @Server St,
  consistent uuid4 s →
  match status_at s j with
  | Some t =>
      (t = BURNING → monotonic (observed j s evs)) ∧
      (t ≠ BURNING → ∃ b, observed j s evs = replicate b t)
  | None => monotonic (observed j s evs)
  end.
Proof.
  induction evs as [|ev evs IH]; intros s Hs.
  - destruct (status_at s j); [split; intros _|];
      (apply monotonic_nil || by exists O).
  - pose proof (step_status s ev j Hs) as Hstep.
    pose proof (IH _ (consistent_step s ev Hs)) as IH'.
    rewrite observed_cons.
    assert (Hread : status_at (fst (step s ev)) j = status_at s j
                    ∨ ∀ j', ev ≠ EvStatus j').
    { destruct ev; [right; by intros|right; by intros|left; done]. }
    destruct (status_at s j) as [t|] eqn:Et.
    + split.
      * intros ->.
        destruct Hstep as [Hsame|(_ & t' & Ht' & Hnew)].
        -- rewrite Hsame in IH'. destruct IH' as [IHb _].
           specialize (IHb eq_refl).
           destruct ev as [| |j']; try done.
           case_bool_decide; [by apply monotonic_cons_burning|done].
        -- rewrite Hnew in IH'. destruct IH' as [_ IHt].
           destruct (IHt (terminal_not_burning _ Ht')) as [b ->].
           destruct Hread as [Hsame|Hnot].
           ++ rewrite Hsame in Hnew. injection Hnew as <-.
              by destruct (terminal_not_burning _ Ht').
           ++ destruct ev as [| |j']; [| |by destruct (Hnot j')];
                by apply monotonic_terminal.
      * intros Hne.
        destruct Hstep as [Hsame|(-> & _)]; [|done].
        rewrite Hsame in IH'. destruct IH' as [_ IHt].
        destruct (IHt Hne) as [b ->].
        destruct ev as [| |j']; try by exists b.
        case_bool_decide; [by exists (S b)|by exists b].
    + assert (Hnil : match ev with
                     | EvStatus j' =>
                         if bool_decide (j' = j) then [] else []
                     | _ => []
                     end = @nil pystr).
      { destruct ev; try done. by case_bool_decide. }
      rewrite Hnil. simpl.
      destruct Hstep as [Hnew|Hnew]; rewrite Hnew in IH'; [done|].
      by apply IH'.
Qed.

End Fresh.


End ServerFacts.

(* ===================================================================== *)
(** * The life of a job *)
(* ===================================================================== *)

Lemma uuid_of_inj n m : Samples.uuid_of n = Samples.uuid_of m → n = m.
Proof.
  intros H. apply (f_equal length) in H.
  unfold Samples.uuid_of in H. rewrite !length_replicate in H. lia.
Qed.

(** ** C5 *)

(** C5. As long as [uuid4] never returns the same identifier twice: for
    every run of the process from its start and every job, the statuses
    that the status reads of this job return are "burning" some number
    of times, then one and the same of "done" and "error" some number
    of times, and nothing else; and whenever an upload answers with the
    identifier of the job, the job did not exist before it and is
    "burning" after it. *)
Theorem job_status_is_monotonic
    {St : Type} (generate_content : St -> pystr -> result pystr * St)
    (decode : list Byte.byte -> result pystr) (uuid4 : nat -> pystr)
    (st : St) (fs : files) (evs : list Main.event) (job_id : pystr) :
  (∀ n m, uuid4 n = uuid4 m → n = m) →
  (∃ a b t,
     Main.observed generate_content decode uuid4 job_id (Main.init st fs) evs
       = replicate a Main.BURNING ++ replicate b t ∧
     (t = Main.DONE ∨ t = Main.ERROR)) ∧
  (∀ ev,
     snd (Main.step generate_content decode uuid4
            (Main.run generate_content decode uuid4 (Main.init st fs) evs) ev)
       = Some (RespJobId job_id) →
     Registry.status_at
       (Main.run generate_content decode uuid4 (Main.init st fs) evs) job_id
       = None ∧
     Registry.status_at
       (fst (Main.step generate_content decode uuid4
               (Main.run generate_content decode uuid4 (Main.init st fs) evs)
               ev)) job_id
       = Some Main.BURNING).
Proof.
  intros Hinj. split.
  - pose proof (observed_monotonic generate_content decode uuid4 Hinj job_id
                  evs (Main.init st fs) (consistent_init uuid4 st fs)) as H.
    unfold Registry.status_at in H. simpl in H.
    rewrite lookup_empty in H. exact H.
  - intros ev Hresp.
    set (s := Main.run generate_content decode uuid4 (Main.init st fs) evs)
      in *.
    assert (Hs : Registry.consistent uuid4 s).
    { apply consistent_run; [done|]. apply consistent_init. }
    destruct ev as [ct filename payload lang whisper|k e|j]; simpl in Hresp.
    + pose proof (upload_video_cases generate_content uuid4
                    ct filename payload lang whisper s) as Hcases.
      simpl.
      destruct (Main.upload_video generate_content uuid4
                  ct filename payload lang whisper s) as [r s'] eqn:E.
      simpl in *. injection Hresp as ->.
      destruct Hcases as [((code & detail & Hr) & _)|
                          (tr & video & srt & Hr & HJ & _)]; [done|].
      injection Hr as ->.
      unfold Registry.status_at.
      rewrite (next_uuid_fresh uuid4 Hinj s Hs), HJ, lookup_insert_eq. done.
    + destruct (Main.tasks s !! k); [|done].
      by destruct (Main._background_burn _ _ _ _ _ _ _).
    + unfold Main.job_status in Hresp. by destruct (Main.JOBS s !! j).
Qed.

(** An upload, a read, the burn, a read. *)
Lemma job_status_instance :
  (∀ n m, Samples.uuid_of n = Samples.uuid_of m → n = m) ∧
  (∃ a b t,
     Main.observed Samples.scripted Samples.decode_ascii Samples.uuid_of
       (Samples.uuid_of 0) (Main.init [Ok (py "1. Hello")] ∅)
       [Samples.an_upload; Main.EvStatus (Samples.uuid_of 0);
        Main.EvRunTask 0 EncDone; Main.EvStatus (Samples.uuid_of 0)]
       = replicate a Main.BURNING ++ replicate b t ∧
     (t = Main.DONE ∨ t = Main.ERROR)) ∧
  (∀ ev,
     snd (Main.step Samples.scripted Samples.decode_ascii Samples.uuid_of
            (Main.run Samples.scripted Samples.decode_ascii Samples.uuid_of
               (Main.init [Ok (py "1. Hello")] ∅)
               [Samples.an_upload; Main.EvStatus (Samples.uuid_of 0);
                Main.EvRunTask 0 EncDone; Main.EvStatus (Samples.uuid_of 0)])
            ev)
       = Some (RespJobId (Samples.uuid_of 0)) →
     Registry.status_at
       (Main.run Samples.scripted Samples.decode_ascii Samples.uuid_of
          (Main.init [Ok (py "1. Hello")] ∅)
          [Samples.an_upload; Main.EvStatus (Samples.uuid_of 0);
           Main.EvRunTask 0 EncDone; Main.EvStatus (Samples.uuid_of 0)])
       (Samples.uuid_of 0)
       = None ∧
     Registry.status_at
       (fst (Main.step Samples.scripted Samples.decode_ascii Samples.uuid_of
               (Main.run Samples.scripted Samples.decode_ascii Samples.uuid_of
                  (Main.init [Ok (py "1. Hello")] ∅)
                  [Samples.an_upload; Main.EvStatus (Samples.uuid_of 0);
                   Main.EvRunTask 0 EncDone;
                   Main.EvStatus (Samples.uuid_of 0)])
               ev)) (Samples.uuid_of 0)
       = Some Main.BURNING).
Proof.
  split; [exact uuid_of_inj|].
  exact (job_status_is_monotonic Samples.scripted Samples.decode_ascii
           Samples.uuid_of [Ok (py "1. Hello")] ∅
           [Samples.an_upload; Main.EvStatus (Samples.uuid_of 0);
            Main.EvRunTask 0 EncDone; Main.EvStatus (Samples.uuid_of 0)]
           (Samples.uuid_of 0) uuid_of_inj).
Defined.

Example observed_burning_then_done :
  Main.observed Samples.scripted Samples.decode_ascii Samples.uuid_of
    (Samples.uuid_of 0) (Main.init [Ok (py "1. Hello")] ∅)
    [Main.EvStatus (Samples.uuid_of 0); Samples.an_upload;
     Main.EvStatus (Samples.uuid_of 0); Main.EvStatus (Samples.uuid_of 0);
     Main.EvRunTask 0 EncDone; Main.EvStatus (Samples.uuid_of 0)]
  = [Main.BURNING; Main.BURNING; Main.DONE].
Proof. vm_compute; reflexivity. Qed.

Example observed_burning_then_error :
  Main.observed Samples.scripted Samples.decode_ascii Samples.uuid_of
    (Samples.uuid_of 0) (Main.init [Ok (py "1. Hello")] ∅)
    [Samples.an_upload; Main.EvStatus (Samples.uuid_of 0);
     Main.EvRunTask 0 Samples.ffmpeg_failed;
     Main.EvStatus (Samples.uuid_of 0); Main.EvRunTask 0 EncDone;
     Main.EvStatus (Samples.uuid_of 0)]
  = [Main.BURNING; Main.ERROR; Main.ERROR].
Proof. vm_compute; reflexivity. Qed.

(** ** The decoder of the diagnostic output *)

Section Decoder.
Import Codec.

(** Bytes below 0x80 decode to themselves. *)
Lemma decode_from_ascii (l : list N) :
  Forall (fun b => (b < 128)%N) l →
  ∀ pos : Z, decode_from pos l = Ok l.
Proof.
  induction 1 as [|b l Hb _ IH]; intros pos; [done|].
  cbn [decode_from]. apply N.ltb_lt in Hb. rewrite Hb, IH. done.
Qed.

(** On diagnostics in ASCII the decoder is [Samples.decode_ascii]. *)
Lemma decode_ascii_agrees (data : list Byte.byte) :
  Forall (fun b => (N_of_ascii (ascii_of_byte b) < 128)%N) data →
  decode data = Samples.decode_ascii data.
Proof.
  intros H. unfold decode, Samples.decode_ascii.
  apply decode_from_ascii. by apply Forall_fmap.
Qed.

End Decoder.

(** Sequences of two, three and four bytes. *)
Example decode_multibyte :
  Codec.decode [Byte.xc3; Byte.xa9; Byte.xe3; Byte.x81; Byte.x93;
                Byte.xf0; Byte.x9f; Byte.x98; Byte.x80]
  = Ok [233%N; 12371%N; 128512%N].
Proof. vm_compute; reflexivity. Qed.

(** A sequence cut short, an overlong one, a surrogate. *)
Example decode_failures :
  List.map (fun data => Codec.decode data)
    [[Byte.x61; Byte.x62; Byte.xe3; Byte.x81];
     [Byte.xc0; Byte.x80];
     [Byte.xed; Byte.xa0; Byte.x80];
     [Byte.xf0; Byte.x9f; Byte.x28]]
  = [Raise (mkExn OtherError
       (py "'utf-8' codec can't decode bytes in position 2-3: unexpected end of data"));
     Raise (mkExn OtherError
       (py "'utf-8' codec can't decode byte 0xc0 in position 0: invalid start byte"));
     Raise (mkExn OtherError
       (py "'utf-8' codec can't decode byte 0xed in position 0: invalid continuation byte"));
     Raise (mkExn OtherError
       (py "'utf-8' codec can't decode bytes in position 0-1: invalid continuation byte"))].
Proof. vm_compute; reflexivity. Qed.

(** ** C6 *)




(** The record a status read returns after the failed burn. *)
Example failed_burn_is_read_back :
  Main.responses Samples.scripted Samples.decode_ascii Samples.uuid_of
    (Main.init [Ok (py "1. Hello")] ∅)
    [Samples.an_upload; Main.EvRunTask 0 Samples.ffmpeg_failed;
     Main.EvStatus (Samples.uuid_of 0)]
  = [Some (RespJobId (Samples.uuid_of 0)); None;
     Some (RespJob
             (mkJob Main.ERROR (py "Hello") None
                (Some (py "ffmpeg error:" ++ [Py.LF] ++ py "boom" ++ [Py.LF]))))].
Proof. vm_compute; reflexivity. Qed.

(* ===================================================================== *)
(** * Chunks and numbering *)
(* ===================================================================== *)

Section Chunking.
Import Py Pipeline.

Lemma chunks_from_spec (fuel : nat) : ∀ texts : list pystr,
  (length texts ≤ fuel)%nat →
  List.concat (chunks_from fuel texts) = texts ∧
  Forall (fun c => (1 ≤ length c ≤ chunk_size)%nat) (chunks_from fuel texts) ∧
  (length texts ≤ chunk_size * length (chunks_from fuel texts)
     < length texts + chunk_size)%nat.
Proof.
  induction fuel as [|f IH]; intros texts Hlen.
  - destruct texts; [|simpl in Hlen; lia].
    simpl. split; [done|]. split; [constructor|]. unfold chunk_size. lia.
  - destruct texts as [|t texts].
    { simpl. split; [done|]. split; [constructor|]. unfold chunk_size. lia. }
    cbn [chunks_from].
    set (l := t :: texts) in *.
    assert (Hl : (1 ≤ length l)%nat) by (subst l; simpl; lia).
    assert (Hdrop : (length (drop chunk_size l) ≤ f)%nat).
    { rewrite length_drop. unfold chunk_size. lia. }
    destruct (IH _ Hdrop) as (Hcat & Hall & Hcount).
    split; [|split].
    + cbn [List.concat]. rewrite Hcat. apply take_drop.
    + constructor; [|done]. rewrite length_take. lia.
    + cbn [length]. rewrite length_drop in Hcount. unfold chunk_size in *. lia.
Qed.

End Chunking.

(** The chunks are the texts, in order, cut every 80: nothing is lost or
    repeated, no chunk is empty or longer than 80, and there are
    ceil(n / 80) of them. *)
Theorem chunks_partition (texts : list pystr) :
  List.concat (Pipeline.chunks texts) = texts ∧
  Forall (fun c => (1 ≤ length c ≤ 80)%nat) (Pipeline.chunks texts) ∧
  (length texts ≤ 80 * length (Pipeline.chunks texts) < length texts + 80)%nat.
Proof. apply (chunks_from_spec (length texts) texts). lia. Qed.

Section Numbering.
Import Py Pipeline.

Lemma ascii_digit_isdigit c :
  Props.is_ascii_digit c = true → isdigit_char c = true.
Proof.
  unfold Props.is_ascii_digit. rewrite andb_true_iff, !N.leb_le.
  intros [H1 H2]. unfold isdigit_char, in_ranges, digit_table.
  cbn [existsb fst snd]. apply orb_true_iff. left.
  apply andb_true_iff. split; apply N.leb_le; lia.
Qed.

Lemma forallb_ascii_isdigit s :
  forallb Props.is_ascii_digit s = true → forallb isdigit_char s = true.
Proof.
  induction s as [|c s IH]; [done|]. simpl.
  rewrite !andb_true_iff. intros [Hc Hs].
  split; [by apply ascii_digit_isdigit|by apply IH].
Qed.

Lemma token_until_app stop (a : pystr) c rest :
  forallb (fun x => negb (stop x)) a = true → stop c = true →
  Props.token_until stop (a ++ c :: rest) = a.
Proof.
  intros Ha Hc. induction a as [|x a IH]; simpl.
  - by rewrite Hc.
  - simpl in Ha. apply andb_true_iff in Ha as [Hx Ha].
    apply negb_true_iff in Hx. rewrite Hx. by rewrite IH.
Qed.

Lemma rstrip_with_app p (a b : pystr) :
  rstrip_with p b ≠ [] → rstrip_with p (a ++ b) = a ++ rstrip_with p b.
Proof.
  intros Hb. induction a as [|c a IH]; [done|].
  simpl. rewrite IH. destruct (a ++ rstrip_with p b) eqn:E; [|done].
  apply app_eq_nil in E as [_ E]. done.
Qed.

Lemma rstrip_with_keep p (s : pystr) c :
  p c = false → rstrip_with p (s ++ [c]) = s ++ [c].
Proof.
  intros Hc. rewrite rstrip_with_app; simpl; rewrite Hc; done.
Qed.

Lemma rstrip_with_all p (s : pystr) :
  forallb p s = true → rstrip_with p s = [].
Proof. apply rstrip_with_nil. Qed.

Lemma digits_forall (P : N → bool) s :
  (∀ c, Props.is_ascii_digit c = true → P c = true) →
  forallb Props.is_ascii_digit s = true → forallb P s = true.
Proof.
  intros HP. induction s as [|c s IH]; [done|]. simpl.
  rewrite !andb_true_iff. intros [Hc Hs]. split; [by apply HP|by apply IH].
Qed.

Lemma ascii_digit_ne c d :
  Props.is_ascii_digit c = true → Props.is_ascii_digit d = false →
  (d =? c)%N = false.
Proof.
  intros Hc Hd. apply N.eqb_neq. intros ->. congruence.
Qed.

Lemma token_until_all stop (s : pystr) :
  forallb (fun x => negb (stop x)) s = true → Props.token_until stop s = s.
Proof.
  induction s as [|x s IH]; [done|]. simpl.
  intros H. apply andb_true_iff in H as [Hx Hs].
  apply negb_true_iff in Hx. rewrite Hx. by rewrite IH.
Qed.

Lemma rstrip_with_app_all p (a b : pystr) :
  forallb p b = true → rstrip_with p (a ++ b) = rstrip_with p a.
Proof.
  intros Hb. induction a as [|c a IH]; simpl.
  - by apply rstrip_with_all.
  - by rewrite IH.
Qed.

Lemma rstrip_with_none p (s : pystr) :
  forallb (fun x => negb (p x)) s = true → rstrip_with p s = s.
Proof.
  induction s as [|c s IH]; [done|]. simpl.
  intros H. apply andb_true_iff in H as [Hc Hs].
  apply negb_true_iff in Hc. rewrite IH by done.
  destruct s; [by rewrite Hc|done].
Qed.

(** The numbering token and what it is followed by. *)
Lemma strip_number_token (num rest : pystr) :
  forallb Props.is_ascii_digit num = true → num ≠ [] →
  strip_number (num ++ [DOT]) = [] ∧
  strip_number (num ++ DOT :: SP :: rest) = rest.
Proof.
  intros Hnum Hne.
  assert (Hnosp : forallb (fun x => negb (SP =? x)%N) (num ++ [DOT]) = true).
  { rewrite forallb_app. apply andb_true_iff. split; [|done].
    apply digits_forall; [|done]. intros c Hc.
    apply negb_true_iff. by apply ascii_digit_ne. }
  assert (Hdig : isdigit (rstrip_with (N.eqb DOT) (num ++ [DOT])) = true).
  { rewrite rstrip_with_app_all by done.
    rewrite rstrip_with_none.
    - unfold isdigit. apply andb_true_iff. split; [by destruct num|].
      by apply forallb_ascii_isdigit.
    - apply digits_forall; [|done]. intros c Hc.
      apply negb_true_iff. by apply ascii_digit_ne. }
  split.
  - unfold strip_number. rewrite join_tl_split, split_hd.
    rewrite token_until_all by done.
    rewrite Hdig. rewrite drop_ge; [done|]. lia.
  - unfold strip_number. rewrite join_tl_split, split_hd.
    replace (num ++ DOT :: SP :: rest) with ((num ++ [DOT]) ++ SP :: rest)
      by (by rewrite <- app_assoc).
    rewrite token_until_app by done.
    rewrite Hdig.
    change (SP :: rest) with ([SP] ++ rest). rewrite app_assoc.
    rewrite drop_app_length'; [done|].
    rewrite !length_app. simpl. lia.
Qed.

End Numbering.

(* ===================================================================== *)
(** * A collaborator that echoes *)
(* ===================================================================== *)

Section Echo.
Import Py Pipeline.

Lemma split_join sep (ls : list pystr) :
  ls ≠ [] → Forall (fun l => sep ∉ l) ls → split sep (join [sep] ls) = ls.
Proof.
  induction ls as [|x ls IH]; [done|]. intros _ Hall.
  apply Forall_cons in Hall as [Hx Hls].
  destruct ls as [|y ls].
  - simpl. by apply split_no_sep.
  - rewrite join_cons by done. cbn [app].
    rewrite split_app_sep, (split_no_sep sep x), IH by done. done.
Qed.

Lemma not_space_forall (s : pystr) :
  (∀ c, c ∈ s → isspace_char c = false) →
  forallb (fun x => negb (isspace_char x)) s = true.
Proof.
  intros H. apply forallb_forall. intros c Hc.
  apply negb_true_iff, H. by apply list_elem_of_In.
Qed.

(** A numbered line, stripped and relieved of its number: the text of
    the line without its trailing whitespace. *)
Lemma strip_numbered_line (k : Z) (t : pystr) :
  0 ≤ k →
  nonempty (strip (str_of_int k ++ py ". " ++ t)) = true ∧
  strip_number (strip (str_of_int k ++ py ". " ++ t))
    = rstrip_with isspace_char t.
Proof.
  intros Hk. rewrite str_of_int_nonneg by done.
  destruct (dec_spec k Hk) as (Hdig & Hne & _).
  change (dec k ++ py ". " ++ t) with (dec k ++ DOT :: SP :: t).
  destruct (strip_number_token (dec k) (rstrip_with isspace_char t) Hdig Hne)
    as [Hbare Hrest].
  assert (Hhead : strip (dec k ++ DOT :: SP :: t)
                  = rstrip_with isspace_char (dec k ++ DOT :: SP :: t)).
  { unfold strip. f_equal. destruct (dec k) as [|c s] eqn:E; [done|].
    simpl. simpl in Hdig. apply andb_true_iff in Hdig as [Hc _].
    by rewrite (ascii_digit_not_space c Hc). }
  assert (Hnosp : forallb (fun x => negb (isspace_char x)) (dec k ++ [DOT])
                  = true).
  { rewrite forallb_app. apply andb_true_iff. split; [|done].
    apply digits_forall; [|done]. intros c Hc.
    by rewrite ascii_digit_not_space. }
  rewrite Hhead.
  destruct (forallb isspace_char t) eqn:Et.
  - replace (dec k ++ DOT :: SP :: t) with ((dec k ++ [DOT]) ++ SP :: t)
      by (by rewrite <- app_assoc).
    rewrite rstrip_with_app_all by (simpl; by rewrite Et).
    rewrite rstrip_with_none by done.
    rewrite (rstrip_with_all _ t Et). split; [|done].
    by destruct (dec k).
  - assert (Hr : rstrip_with isspace_char t ≠ []).
    { intros H. apply rstrip_with_nil in H. congruence. }
    replace (dec k ++ DOT :: SP :: t) with ((dec k ++ [DOT; SP]) ++ t)
      by (by rewrite <- app_assoc).
    rewrite rstrip_with_app by done. rewrite <- app_assoc. simpl app.
    split; [by destruct (dec k)|done].
Qed.

Lemma numbered_lines_spec (chunk : list pystr) : ∀ idx,
  0 ≤ idx → Forall (fun t => LF ∉ t) chunk →
  Forall (fun l => LF ∉ l) (numbered_lines idx chunk) ∧
  List.filter nonempty (List.map strip (numbered_lines idx chunk))
    = List.map strip (numbered_lines idx chunk) ∧
  List.map (fun l => strip_number (strip l)) (numbered_lines idx chunk)
    = List.map (rstrip_with isspace_char) chunk.
Proof.
  induction chunk as [|t chunk IH]; intros idx Hidx Hall; [done|].
  apply Forall_cons in Hall as [Ht Hchunk].
  destruct (IH (idx + 1) ltac:(lia) Hchunk) as (H1 & H2 & H3).
  destruct (strip_numbered_line (idx + 1) t ltac:(lia)) as [Hne Hst].
  destruct (index_line (idx + 1) ltac:(lia)) as (HLF & _ & _).
  cbn [numbered_lines List.map List.filter].
  rewrite Hne, H2, Hst, H3. split; [|done].
  constructor; [|done].
  rewrite !not_elem_of_app. split; [done|]. split; [|done].
  rewrite list_elem_of_In. vm_compute. intuition discriminate.
Qed.

Lemma numbered_lines_nil idx (chunk : list pystr) :
  chunk ≠ [] → numbered_lines idx chunk ≠ [].
Proof. by destruct chunk. Qed.

(** What is recovered from a response that is the numbered block
    itself. *)
Lemma cleaned_of_numbered (cs : list (list pystr)) :
  Forall (fun c => c ≠ [] ∧ Forall (fun t => LF ∉ t) c) cs →
  cleaned_of (List.map numbered cs)
    = List.map (rstrip_with isspace_char) (List.concat cs).
Proof.
  induction cs as [|c cs IH]; intros Hall; [done|].
  apply Forall_cons in Hall as [[Hne Hc] Hcs].
  unfold cleaned_of in *. cbn [List.map List.concat].
  rewrite IH, List.map_app by done. f_equal.
  destruct (numbered_lines_spec c 0 ltac:(lia) Hc) as (H1 & H2 & H3).
  unfold response_lines, numbered.
  rewrite split_join by (by try apply numbered_lines_nil).
  rewrite H2, List.map_map. exact H3.
Qed.

Lemma concat_LF_free (cs : list (list pystr)) :
  Forall (fun c => (1 ≤ length c ≤ 80)%nat) cs →
  Forall (fun t => LF ∉ t) (List.concat cs) →
  Forall (fun c => c ≠ [] ∧ Forall (fun t => LF ∉ t) c) cs.
Proof.
  induction cs as [|c cs IH]; intros Hlen Hall; [constructor|].
  apply Forall_cons in Hlen as [Hc Hcs].
  simpl in Hall. apply Forall_app in Hall as [Hall1 Hall2].
  constructor; [|by apply IH].
  split; [|done]. intros ->. simpl in Hc. lia.
Qed.

Lemma chunks_LF_free (texts : list pystr) :
  Forall (fun t => LF ∉ t) texts →
  Forall (fun c => c ≠ [] ∧ Forall (fun t => LF ∉ t) c) (chunks texts).
Proof.
  intros Hall.
  destruct (chunks_partition texts) as (Hcat & Hlen & _).
  apply concat_LF_free; [done|]. by rewrite Hcat.
Qed.

End Echo.

Section EchoStep.
Import Py Pipeline.
Context {St : Type}.
Variable generate_content : St -> pystr -> result pystr * St.

(** When the collaborator sends every numbered block back as it got it,
    and no text holds a line break, the translation step changes no
    text but for the whitespace at its end. *)
Theorem echoed_blocks_restore_the_texts
    (st : St) (lang : pystr) (segments : list Segment) (st' : St) :
  chunk_responses generate_content st lang
    (chunks (List.map seg_text segments))
    = (Ok (List.map numbered (chunks (List.map seg_text segments))), st') →
  Forall (fun seg => LF ∉ seg_text seg) segments →
  ∃ segments',
    translate_segments generate_content st lang segments
      = (Ok segments', st') ∧
    List.map seg_text segments' =
      List.map (fun seg => rstrip_with isspace_char (seg_text seg)) segments.
Proof.
  intros Hresp HLF.
  assert (HLF' : Forall (fun t => LF ∉ t) (List.map seg_text segments)).
  { change (List.map ?f ?l) with (f <$> l). by apply Forall_fmap. }
  assert (Hclean : cleaned_of
            (List.map numbered (chunks (List.map seg_text segments)))
            = List.map (rstrip_with isspace_char) (List.map seg_text segments)).
  { rewrite cleaned_of_numbered by (by apply chunks_LF_free).
    by destruct (chunks_partition (List.map seg_text segments)) as [-> _]. }
  assert (Hrec : recover generate_content st lang (List.map seg_text segments)
            = (Ok (List.map (rstrip_with isspace_char)
                     (List.map seg_text segments)), st')).
  { unfold recover. by rewrite Hresp, Hclean. }
  destruct (translate_segments_ok _ _ _ _ _ _ Hrec)
    as (segments' & Hrun & Hlen & Htext & _ & _).
  exists segments'. split; [done|].
  apply list_eq. intros i.
  change (List.map ?f ?l) with (f <$> l) in *.
  rewrite !list_lookup_fmap.
  destruct (decide (i < length segments)%nat) as [Hi|Hi].
  - rewrite Htext by done.
    rewrite lookup_app_l by (rewrite !length_fmap; lia).
    rewrite !list_lookup_fmap. by destruct (segments !! i).
  - rewrite (lookup_ge_None_2 segments') by lia.
    by rewrite (lookup_ge_None_2 segments) by lia.
Qed.

End EchoStep.

(* ===================================================================== *)
(** * More on the translation step *)
(* ===================================================================== *)

Section Sublines.
Import Py Pipeline.

Lemma lstrip_with_suffix p (s : pystr) : ∃ k, lstrip_with p s = drop k s.
Proof.
  induction s as [|c s [k IH]]; [by exists O|].
  simpl. destruct (p c); [by exists (S k)|by exists O].
Qed.

Lemma rstrip_with_prefix p (s : pystr) : ∃ k, rstrip_with p s = take k s.
Proof.
  induction s as [|c s [k IH]]; [by exists O|].
  simpl. rewrite IH. destruct (take k s) eqn:E.
  - destruct (p c); [by exists O|by exists 1%nat].
  - exists (S k). simpl. by rewrite E.
Qed.

Lemma strip_keeps_out c (s : pystr) : c ∉ s → c ∉ strip s.
Proof.
  intros Hc. unfold strip.
  destruct (lstrip_with_suffix isspace_char s) as [k ->].
  destruct (rstrip_with_prefix isspace_char (drop k s)) as [k' ->].
  intros Hin. apply Hc.
  by apply (subseteq_drop k s), (subseteq_take k' (drop k s)).
Qed.

Lemma split_parts_no_sep sep (s : pystr) :
  Forall (fun part => sep ∉ part) (split sep s).
Proof.
  induction s as [|c s IH]; simpl.
  - constructor; [apply not_elem_of_nil|constructor].
  - destruct (N.eqb_spec c sep) as [->|Hc].
    + constructor; [apply not_elem_of_nil|done].
    + destruct (split sep s) as [|h t]; [repeat constructor|].
      * rewrite not_elem_of_cons. split; [done|apply not_elem_of_nil].
      * apply Forall_cons in IH as [Hh Ht]. constructor; [|done].
        rewrite not_elem_of_cons. split; done.
Qed.

(** The number-stripping step only ever drops a prefix of the line. *)
Lemma strip_number_suffix (ln : pystr) : ∃ k, strip_number ln = drop k ln.
Proof.
  unfold strip_number. rewrite join_tl_split.
  destruct (isdigit _); [by eexists|by exists O].
Qed.

Lemma response_lines_clean (text : pystr) :
  Forall (fun ln => (LF ∉ ln) ∧ nonempty ln = true) (response_lines text).
Proof.
  unfold response_lines. apply Forall_forall. intros ln Hin.
  apply list_elem_of_In, filter_In in Hin as [Hin Hne].
  split; [|done].
  apply in_map_iff in Hin as (part & <- & Hpart).
  apply strip_keeps_out.
  pose proof (split_parts_no_sep LF text) as Hall.
  rewrite Forall_forall in Hall. apply Hall. by apply list_elem_of_In.
Qed.

Lemma cleaned_of_single_lines (responses : list pystr) :
  Forall (fun ln => LF ∉ ln) (cleaned_of responses).
Proof.
  unfold cleaned_of. induction responses as [|r rs IH]; [constructor|].
  simpl. apply Forall_app. split; [|done].
  apply Forall_forall. intros ln Hin.
  apply list_elem_of_In, in_map_iff in Hin as (l & <- & Hl).
  pose proof (response_lines_clean r) as Hall.
  rewrite Forall_forall in Hall.
  destruct (Hall l (proj2 (list_elem_of_In _ _) Hl)) as [HLF _].
  destruct (strip_number_suffix l) as [k ->].
  intros Hin. apply HLF. by apply (subseteq_drop k l).
Qed.

End Sublines.

(** A line that does not start with a digit is never changed by the
    number-stripping step, and whatever the line, the step returns the
    line or what is left of it behind its first space. *)
Theorem strip_number_keeps_the_rest (ln : pystr) :
  (Pipeline.strip_number ln = ln ∨
   Pipeline.strip_number ln =
     drop (S (length (Props.token_until (N.eqb Py.SP) ln))) ln) ∧
  match ln with
  | c :: _ => if Py.isdigit_char c then True else Pipeline.strip_number ln = ln
  | [] => Pipeline.strip_number ln = ln
  end.
Proof.
  unfold Pipeline.strip_number. rewrite join_tl_split, split_hd.
  split.
  - destruct (Py.isdigit _); [by right|by left].
  - destruct ln as [|c rest]; [done|].
    destruct (Py.isdigit_char c) eqn:Ec; [done|].
    cbn [Props.token_until].
    destruct (Py.SP =? c)%N; [done|].
    set (tok := Props.token_until (N.eqb Py.SP) rest).
    assert (Hnot : Py.isdigit
              (Py.rstrip_with (N.eqb Py.DOT) (c :: tok)) = false).
    { destruct (rstrip_with_prefix (N.eqb Py.DOT) (c :: tok)) as [k ->].
      destruct k as [|k]; [done|]. simpl. unfold Py.isdigit. simpl.
      by rewrite Ec. }
    by rewrite Hnot.
Qed.

Section TranslationMore.
Import Py Pipeline.
Context {St : Type}.
Variable generate_content : St -> pystr -> result pystr * St.

Lemma assign_lookup (segments : list Segment) : ∀ lines i,
  assign segments lines !! i =
  (fun seg => match lines !! i with
              | Some tr => set_text seg tr
              | None => seg
              end) <$> segments !! i.
Proof.
  induction segments as [|s segs IH]; intros [|l ls] [|i]; simpl; try done.
  all: try (by destruct (segs !! i)); try apply IH.
Qed.

(** The translation step keeps the number, the order and the times of
    the segments, and leaves in [original_text] the text each segment
    had before, whatever was recovered. *)
Theorem translation_keeps_original_text
    (st : St) (lang : pystr) (segments segments' : list Segment) (st' : St) :
  translate_segments generate_content st lang segments
    = (Ok segments', st') →
  length segments' = length segments ∧
  ∀ i seg, segments !! i = Some seg →
    ∃ seg', segments' !! i = Some seg' ∧
      seg_original_text seg' = Some (seg_text seg) ∧
      seg_start seg' = seg_start seg ∧ seg_end seg' = seg_end seg.
Proof.
  unfold translate_segments.
  destruct (recover _ _ _ _) as [[cleaned|e] st1]; [|done].
  intros [= <- <-]. split.
  - by rewrite length_assign, length_map.
  - intros i seg Hseg. rewrite assign_lookup.
    rewrite (snapshot_lookup _ _ _ Hseg). simpl.
    eexists. split; [done|]. by destruct (pad _ _ !! i).
Qed.

(** An exception of the chunk loop: a [RuntimeError] that quotes the
    first exception of the chunk that failed. *)
Lemma chunk_response_raise (st : St) lang (chunk : list pystr) e st' :
  chunk_response generate_content st lang chunk = (Raise e, st') →
  exn_class e = RuntimeError ∧
  ∃ first, exn_msg e = py "Gemini translation failed: " ++ first.
Proof.
  unfold chunk_response.
  destruct (generate_content st _) as [r1 st1].
  destruct r1 as [text|e1].
  - destruct (nonempty text); [done|].
    destruct (generate_content st1 _) as [[text2|e2] st2].
    + destruct (nonempty text2); [done|]. intros [= <- <-]. eauto.
    + intros [= <- <-]. eauto.
  - destruct (generate_content st1 _) as [[text2|e2] st2].
    + destruct (nonempty text2); [done|]. intros [= <- <-]. eauto.
    + intros [= <- <-]. eauto.
Qed.

Lemma chunk_responses_raise lang (cs : list (list pystr)) : ∀ (st : St) e st',
  chunk_responses generate_content st lang cs = (Raise e, st') →
  exn_class e = RuntimeError ∧
  ∃ first, exn_msg e = py "Gemini translation failed: " ++ first.
Proof.
  induction cs as [|c cs IH]; intros st e st'; [done|].
  simpl. destruct (chunk_response _ _ _ _) as [[text|e1] st1] eqn:E1.
  - destruct (chunk_responses _ _ _ _) as [[texts|e2] st2] eqn:E2; [done|].
    intros [= <- <-]. by eapply IH.
  - intros [= <- <-]. by eapply chunk_response_raise.
Qed.

(** When the translation fails, [transcribe_video] raises a
    [RuntimeError] "Gemini translation failed: ..." and writes no file. *)
Theorem failed_translation_writes_nothing
    (video_path output_dir : Path) (lang : pystr)
    (segments : list Segment) (st st' : St) (fs : files) (e : exn) :
  nothing_to_translate segments = false →
  recover generate_content st lang (List.map seg_text segments)
    = (Raise e, st') →
  transcribe_video generate_content video_path output_dir lang
    (Ok segments) st fs = (Raise e, st', fs) ∧
  exn_class e = RuntimeError ∧
  ∃ first, exn_msg e = py "Gemini translation failed: " ++ first.
Proof.
  intros Hguard Hrec. split.
  - unfold transcribe_video, translate_segments. by rewrite Hguard, Hrec.
  - unfold recover in Hrec.
    destruct (chunk_responses _ _ _ _) as [[texts|e'] st1] eqn:E; [done|].
    injection Hrec as <- <-. by eapply chunk_responses_raise.
Qed.

(** With as many recovered lines as segments, or more, no caption holds
    a line break after the translation step. *)
Theorem translated_captions_are_single_lines
    (st : St) (lang : pystr) (segments : list Segment)
    (cleaned : list pystr) (st' : St) :
  recover generate_content st lang (List.map seg_text segments)
    = (Ok cleaned, st') →
  (length segments ≤ length cleaned)%nat →
  ∃ segments',
    translate_segments generate_content st lang segments
      = (Ok segments', st') ∧
    Forall (fun seg => LF ∉ seg_text seg) segments'.
Proof.
  intros Hrec Hlen.
  assert (Hclean : Forall (fun ln => LF ∉ ln) cleaned).
  { unfold recover in Hrec.
    destruct (chunk_responses _ _ _ _) as [[texts|e'] st1]; [|done].
    injection Hrec as <- <-. apply cleaned_of_single_lines. }
  destruct (translate_segments_ok _ _ _ _ _ _ Hrec)
    as (segments' & Hrun & Hlen' & Htext & _ & _).
  exists segments'. split; [done|].
  apply Forall_lookup. intros i seg' Hseg'.
  pose proof (lookup_lt_Some _ _ _ Hseg') as Hi.
  specialize (Htext i ltac:(lia)).
  rewrite Hseg', lookup_app_l in Htext by lia. simpl in Htext.
  rewrite Forall_lookup in Hclean. by eapply Hclean.
Qed.

End TranslationMore.

Section CallBudget.
Import Py Pipeline Metering.
Context {St : Type}.
Variable generate_content : St -> pystr -> result pystr * St.

Lemma chunk_response_calls (s : St * nat) lang (chunk : list pystr) :
  let out := chunk_response (counted generate_content) s lang chunk in
  (snd s + 1 ≤ snd (snd out) ≤ snd s + 2)%nat.
Proof.
  unfold chunk_response, counted. destruct s as [st k]. simpl.
  destruct (generate_content st _) as [r1 st1]. simpl.
  destruct r1 as [text|e1].
  - destruct (nonempty text); simpl; [lia|].
    destruct (generate_content st1 _) as [[text2|e2] st2]; simpl.
    + destruct (nonempty text2); simpl; lia.
    + lia.
  - destruct (generate_content st1 _) as [[text2|e2] st2]; simpl.
    + destruct (nonempty text2); simpl; lia.
    + lia.
Qed.

Lemma chunk_responses_calls lang (cs : list (list pystr)) : ∀ s : St * nat,
  let out := chunk_responses (counted generate_content) s lang cs in
  (snd (snd out) ≤ snd s + 2 * length cs)%nat ∧
  (is_ok (fst out) = true → (snd s + length cs ≤ snd (snd out))%nat).
Proof.
  induction cs as [|c cs IH]; intros s; simpl; [split; [lia|intros; lia]|].
  pose proof (chunk_response_calls s lang c) as Hone. simpl in Hone.
  destruct (chunk_response _ _ _ _) as [[text|e1] s1]; simpl in *.
  - specialize (IH s1). simpl in IH.
    destruct (chunk_responses _ _ _ _) as [[texts|e2] s2]; simpl in *.
    + destruct IH as [IH1 IH2]. specialize (IH2 eq_refl). split; [lia|].
      intros _. lia.
    + destruct IH as [IH1 _]. split; [lia|done].
  - split; [lia|done].
Qed.

(** The translation of [n] texts asks the collaborator at most twice
    per chunk, fewer than [(n + 80) / 40] times in all, and at least once
    per chunk when it succeeds. *)
Theorem translation_call_budget (st : St) (lang : pystr) (texts : list pystr) :
  let out := recover (counted generate_content) (st, O) lang texts in
  let calls := snd (snd out) in
  (calls ≤ 2 * length (chunks texts))%nat ∧
  (40 * calls < length texts + 80)%nat ∧
  if is_ok (fst out) then (length (chunks texts) ≤ calls)%nat else True.
Proof.
  intros out calls. subst out calls. unfold recover.
  pose proof (chunk_responses_calls lang (chunks texts) (st, O)) as H.
  simpl in H.
  destruct (chunks_partition texts) as (_ & _ & Hcount).
  destruct (chunk_responses _ _ _ _) as [[responses|e] s1]; simpl in *;
    destruct H as [H1 H2]; (split; [lia|split; [lia|]]); [|done].
  specialize (H2 eq_refl). lia.
Qed.

End CallBudget.

(* ===================================================================== *)
(** * More on timestamps, files and [process_video] *)
(* ===================================================================== *)

(** Two times are rendered alike only when their millisecond counts are
    the same, and below 100 hours every timestamp has 12 characters. *)
Theorem timestamps_are_unambiguous (x y : Py.float) (ms1 ms2 : Z) :
  Pipeline.srt_ms x = Ok ms1 → Pipeline.srt_ms y = Ok ms2 →
  0 ≤ ms1 → 0 ≤ ms2 →
  (Pipeline._srt_time x = Pipeline._srt_time y → ms1 = ms2) ∧
  (ms1 < 360000000 →
   ∃ s, Pipeline._srt_time x = Ok s ∧ length s = 12%nat).
Proof.
  intros Hx Hy H1 H2. unfold Pipeline._srt_time. rewrite Hx, Hy. split.
  - intros [= Heq].
    pose proof (parse_srt_fields ms1 H1) as P1.
    pose proof (parse_srt_fields ms2 H2) as P2.
    rewrite Heq in P1. congruence.
  - intros Hlt. eexists. split; [done|].
    destruct (srt_fields_ranges ms1 H1) as (Hh & Hm & Hs & Hr & _).
    assert (ms1 / 3600000 < 100) by (apply Z.div_lt_upper_bound; lia).
    unfold Pipeline.srt_fields. rewrite !length_app.
    rewrite (format_0d_small 2 (ms1 / 3600000)) by (simpl; lia).
    rewrite (format_0d_small 2 (ms1 mod 3600000 / 60000)) by (simpl; lia).
    rewrite (format_0d_small 2 (ms1 mod 60000 / 1000)) by (simpl; lia).
    rewrite (format_0d_small 3 (ms1 mod 1000)) by (simpl; lia).
    done.
Qed.

(** A time whose millisecond count is negative is not refused: the
    text returned starts with a minus sign. *)
Theorem negative_time_is_rendered (x : Py.float) (ms : Z) :
  Pipeline.srt_ms x = Ok ms → ms < 0 →
  ∃ rest, Pipeline._srt_time x = Ok (Py.MINUS :: rest).
Proof.
  intros Hx Hneg. unfold Pipeline._srt_time. rewrite Hx.
  unfold Pipeline.srt_fields, Py.format_0d at 1.
  assert (ms / 3600000 < 0) as Hh by (apply Z.div_lt_upper_bound; lia).
  destruct (Z.ltb_spec (ms / 3600000) 0); [|lia].
  eexists. simpl. reflexivity.
Qed.

Section Writing.
Import Py Pipeline.

Lemma write_blocks_app (a : list Segment) : ∀ i written b,
  write_blocks i (a ++ b) written =
  match write_blocks i a written with
  | (content, None) => write_blocks (i + Z.of_nat (length a)) b content
  | (content, Some e) => (content, Some e)
  end.
Proof.
  induction a as [|seg a IH]; intros i written b.
  - simpl. by rewrite Z.add_0_r.
  - cbn [write_blocks app]. destruct (srt_block i seg) as [blk|e]; [|done].
    rewrite IH. destruct (write_blocks (i + 1) a (written ++ blk)) as [c [e|]];
      [done|].
    f_equal. cbn [length]. lia.
Qed.

(** When the segments before the first one that cannot be rendered are
    [good], [_write_srt] raises and leaves in the file the blocks of
    [good] and nothing else. *)
Theorem write_stops_at_the_first_bad_time
    (good : list Segment) (bad : Segment) (rest : list Segment)
    (path : Path) (fs : files) (e : exn) :
  snd (write_blocks 1 good []) = None →
  srt_block (1 + Z.of_nat (length good)) bad = Raise e →
  _write_srt (good ++ bad :: rest) path fs =
    (Raise e, <[path := fst (write_blocks 1 good [])]> fs).
Proof.
  intros Hgood Hbad. unfold _write_srt. rewrite write_blocks_app.
  destruct (write_blocks 1 good []) as [content err]. simpl in *. subst err.
  cbn [write_blocks]. by rewrite Hbad.
Qed.

(** [transcribe_video] writes no file but the subtitle file, and none
    when Whisper or the translation fails. *)
Theorem transcribe_video_touches_one_file
    {St : Type} (generate_content : St -> pystr -> result pystr * St)
    (video_path output_dir : Path) (lang : pystr)
    (whisper : result (list Segment)) (st : St) (fs : files) (p : Path) :
  p ≠ output_dir // srt_name video_path lang →
  snd (transcribe_video generate_content video_path output_dir lang
         whisper st fs) !! p = fs !! p.
Proof.
  intros Hp. unfold transcribe_video.
  destruct whisper as [segments|e]; [|done].
  destruct (nothing_to_translate segments).
  - unfold _write_srt. destruct (write_blocks 1 segments []) as [c [e|]];
      simpl; by rewrite lookup_insert_ne.
  - destruct (translate_segments _ _ _ _) as [[segments'|e] st']; [|done].
    unfold _write_srt. destruct (write_blocks 1 segments' []) as [c [e|]];
      simpl; by rewrite lookup_insert_ne.
Qed.

End Writing.


(* ===================================================================== *)
(** * More on the job registry *)
(* ===================================================================== *)

Section RegistryMore.
Import Py Main Registry Records.
Context {St : Type}.
Variable generate_content : St -> pystr -> result pystr * St.
Variable decode : list Byte.byte -> result pystr.
Variable uuid4 : nat -> pystr.

Local Abbreviation step := (Main.step generate_content decode uuid4).
Local Abbreviation run := (Main.run generate_content decode uuid4).
Local Abbreviation upload_video := (Main.upload_video generate_content uuid4).
Local Abbreviation upload_responses :=
  (Main.upload_responses generate_content decode uuid4).

Lemma run_app (evs1 evs2 : list event) : ∀ s : @Server St,
  run s (evs1 ++ evs2) = run (run s evs1) evs2.
Proof. induction evs1 as [|ev evs1 IH]; intros s; [done|]. apply IH. Qed.

Lemma upload_responses_cons (s : @Server St) (ev : event) evs :
  upload_responses s (ev :: evs) =
  match ev with
  | EvUpload ct filename payload lang whisper =>
      [fst (upload_video ct filename payload lang whisper s)]
  | _ => []
  end ++ upload_responses (fst (step s ev)) evs.
Proof.
  destruct ev as [ct filename payload lang whisper|k outcome|j]; simpl.
  - by destruct (upload_video ct filename payload lang whisper s).
  - destruct (tasks s !! k); [|done].
    by destruct (_background_burn _ _ _ _ _ _ _).
  - done.
Qed.

Lemma background_burn_missing (job_id : pystr) (video srt : Path)
    (lang : pystr) (outcome : encoder_outcome) (jobs : gmap pystr Job) :
  jobs !! job_id = None →
  _background_burn decode job_id video srt lang outcome jobs
    = (Raise (KeyError job_id), jobs).
Proof.
  intros E. unfold _background_burn.
  destruct (Pipeline.burn_subtitles _ _ _ _ _ _); by rewrite E.
Qed.

Lemma step_keeps_jobs (s : @Server St) (ev : event) (j : pystr) :
  is_Some (JOBS s !! j) → is_Some (JOBS (fst (step s ev)) !! j).
Proof.
  intros Hj.
  destruct ev as [ct filename payload lang whisper|k outcome|j']; simpl.
  - pose proof (upload_video_cases generate_content uuid4
                  ct filename payload lang whisper s) as Hcases.
    destruct (upload_video ct filename payload lang whisper s) as [r s'].
    simpl in *.
    destruct Hcases as [(_ & -> & _)|(tr & v & srt & _ & -> & _)]; [done|].
    rewrite lookup_insert. by case_decide.
  - destruct (tasks s !! k) as [t|]; [|done].
    destruct (JOBS s !! task_job t) as [job|] eqn:E.
    + rewrite (background_burn_spec decode _ _ _ _ _ _ _ E). simpl.
      rewrite lookup_insert. by case_decide.
    + by rewrite (background_burn_missing _ _ _ _ outcome _ E).
  - done.
Qed.

Lemma step_new_job (s : @Server St) (ev : event) (j : pystr) :
  is_Some (JOBS (fst (step s ev)) !! j) →
  is_Some (JOBS s !! j) ∨
  j ∈ issued (match ev with
              | EvUpload ct filename payload lang whisper =>
                  [fst (upload_video ct filename payload lang whisper s)]
              | _ => []
              end).
Proof.
  destruct ev as [ct filename payload lang whisper|k outcome|j']; simpl.
  - pose proof (upload_video_cases generate_content uuid4
                  ct filename payload lang whisper s) as Hcases.
    destruct (upload_video ct filename payload lang whisper s) as [r s'].
    simpl in *.
    destruct Hcases as [(_ & -> & _)|(tr & v & srt & -> & -> & _)];
      [by left|].
    rewrite lookup_insert. case_decide as Hj; [|by left].
    subst j. intros _. right. simpl. by apply list_elem_of_singleton.
  - destruct (tasks s !! k) as [t|]; [|by left].
    destruct (JOBS s !! task_job t) as [job|] eqn:E.
    + rewrite (background_burn_spec decode _ _ _ _ _ _ _ E). simpl.
      rewrite lookup_insert. case_decide as Hj; [|by left].
      subst j. rewrite E. by left.
    + rewrite (background_burn_missing _ _ _ _ outcome _ E). by left.
  - by left.
Qed.

Lemma issued_app rs1 rs2 : issued (rs1 ++ rs2) = issued rs1 ++ issued rs2.
Proof. unfold issued. apply omap_app. Qed.

Lemma jobs_are_issued (evs : list event) : ∀ (s : @Server St) j,
  is_Some (JOBS (run s evs) !! j) →
  is_Some (JOBS s !! j) ∨ j ∈ issued (upload_responses s evs).
Proof.
  induction evs as [|ev evs IH]; intros s j Hj; [by left|].
  simpl in Hj. rewrite upload_responses_cons, issued_app, elem_of_app.
  destruct (IH _ _ Hj) as [H|H]; [|by right; right].
  destruct (step_new_job s ev j H) as [H'|H']; [by left|by right; left].
Qed.

End RegistryMore.

(** A status read answers with a record only for an identifier that an
    upload of the run answered with; for any other it is a 404. *)
Theorem status_only_for_issued_jobs
    {St : Type} (generate_content : St -> pystr -> result pystr * St)
    (decode : list Byte.byte -> result pystr) (uuid4 : nat -> pystr)
    (st : St) (fs : files) (evs : list Main.event) (job_id : pystr) :
  job_id ∉ Records.issued
             (Main.upload_responses generate_content decode uuid4
                (Main.init st fs) evs) →
  Main.job_status job_id
    (Main.run generate_content decode uuid4 (Main.init st fs) evs)
    = HTTPError 404 (py "job not found").
Proof.
  intros Hnot. unfold Main.job_status.
  destruct (Main.JOBS _ !! job_id) as [job|] eqn:E; [|done].
  destruct (jobs_are_issued generate_content decode uuid4 evs
              (Main.init st fs) job_id) as [H|H].
  - by rewrite E.
  - simpl in H. rewrite lookup_empty in H. by destruct H.
  - done.
Qed.

(** [_background_burn] changes no record but the one of its job, and
    raises a [KeyError], changing nothing, exactly when that job is not
    in the registry. *)
Theorem background_burn_touches_one_job
    (decode : list Byte.byte -> result pystr)
    (job_id : pystr) (video srt : Path) (lang : pystr)
    (outcome : encoder_outcome) (jobs : gmap pystr Job) :
  match jobs !! job_id with
  | None =>
      Main._background_burn decode job_id video srt lang outcome jobs
        = (Raise (Main.KeyError job_id), jobs)
  | Some _ =>
      fst (Main._background_burn decode job_id video srt lang outcome jobs)
        = Ok tt
  end ∧
  ∀ j, j ≠ job_id →
    snd (Main._background_burn decode job_id video srt lang outcome jobs) !! j
      = jobs !! j.
Proof.
  destruct (jobs !! job_id) as [job|] eqn:E.
  - rewrite (background_burn_spec decode _ _ _ _ _ _ _ E). split; [done|].
    intros j Hj. simpl. by rewrite lookup_insert_ne.
  - rewrite (background_burn_missing decode _ _ _ _ outcome _ E). by split.
Qed.

Section RegistryInvariants.
Import Py Main Registry Records.
Context {St : Type}.
Variable generate_content : St -> pystr -> result pystr * St.
Variable decode : list Byte.byte -> result pystr.
Variable uuid4 : nat -> pystr.
Hypothesis uuid4_inj : ∀ n m, uuid4 n = uuid4 m → n = m.

Local Abbreviation step := (Main.step generate_content decode uuid4).
Local Abbreviation run := (Main.run generate_content decode uuid4).
Local Abbreviation upload_video := (Main.upload_video generate_content uuid4).
Local Abbreviation upload_responses :=
  (Main.upload_responses generate_content decode uuid4).

Lemma burning_not_terminal : BURNING ≠ DONE ∧ BURNING ≠ ERROR ∧ DONE ≠ ERROR.
Proof. repeat split; vm_compute; discriminate. Qed.

Lemma settled_init (st : St) (fs : files) : settled (init st fs).
Proof.
  split; intros j job H; simpl in H; by rewrite lookup_empty in H.
Qed.

Lemma elem_of_delete_other {A} (l : list A) (k : nat) (x y : A) :
  l !! k = Some y → x ∈ l → x ≠ y → x ∈ delete k l.
Proof.
  intros Hk Hx Hne. apply list_elem_of_lookup in Hx as [i Hi].
  assert (i ≠ k) by (intros ->; congruence).
  apply list_elem_of_lookup.
  destruct (decide (i < k)%nat).
  - exists i. by rewrite list_lookup_delete_lt.
  - exists (i - 1)%nat. rewrite list_lookup_delete_ge by lia.
    by replace (S (i - 1)) with i by lia.
Qed.

Lemma settled_step (s : @Server St) (ev : event) :
  consistent uuid4 s → settled s → settled (fst (step s ev)).
Proof.
  intros Hcons [Hrec Hburn]. pose proof Hcons as (Hids & Htasks & Hnodup).
  destruct burning_not_terminal as (Hbd & Hbe & Hde).
  destruct ev as [ct filename payload lang whisper|k outcome|j']; simpl.
  - pose proof (upload_video_cases generate_content uuid4
                  ct filename payload lang whisper s) as Hcases.
    destruct (upload_video ct filename payload lang whisper s) as [r s'].
    simpl in *.
    destruct Hcases as [(_ & HJ & HT & _)|(tr & v & srt & _ & HJ & HT & _)].
    + split; intros j job Hj; rewrite ?HT; rewrite HJ in Hj; eauto.
    + split; intros j job Hj; rewrite ?HT; rewrite HJ in Hj.
      * rewrite lookup_insert in Hj. case_decide; [|by eauto].
        injection Hj as <-. left. done.
      * intros Hst. rewrite fmap_app, elem_of_app.
        rewrite lookup_insert in Hj. case_decide as Hid.
        -- right. subst j. simpl. by apply list_elem_of_singleton.
        -- left. by eapply Hburn.
  - destruct (tasks s !! k) as [t|] eqn:Ek; [|done].
    destruct (Htasks t (list_elem_of_lookup_2 _ _ _ Ek))
      as (job0 & Hjob0 & Hst0).
    rewrite (background_burn_spec decode _ _ _ _ _ _ _ Hjob0).
    cbn [JOBS tasks fst].
    assert (Hshape : job_output job0 = None ∧ job_error job0 = None).
    { destruct (Hrec _ _ Hjob0) as [(_ & ? & ?)|[(H & _)|(H & _)]];
        [done|congruence|congruence]. }
    destruct Hshape as [Hout Herr].
    unfold settled. cbn [JOBS tasks].
    split; intros j job Hj; rewrite lookup_insert in Hj; case_decide as Hid.
    + injection Hj as <-.
      destruct (Pipeline.burn_subtitles _ _ _ _ _ _).
      * right. left. unfold update_done. simpl. by rewrite Herr.
      * right. right. unfold update_error. simpl. by rewrite Hout.
    + by eauto.
    + injection Hj as <-.
      destruct (Pipeline.burn_subtitles _ _ _ _ _ _); simpl; congruence.
    + intros Hst.
      pose proof (Hburn _ _ Hj Hst) as Hin.
      apply list_elem_of_fmap in Hin as (t' & Ht' & Hin).
      apply list_elem_of_fmap. exists t'. split; [done|].
      apply (elem_of_delete_other _ _ _ t Ek Hin). intros ->. congruence.
  - done.
Qed.

Lemma reachable (evs : list event) : ∀ s : @Server St,
  consistent uuid4 s → settled s →
  consistent uuid4 (run s evs) ∧ settled (run s evs).
Proof.
  induction evs as [|ev evs IH]; intros s Hc Hs; [done|].
  simpl. apply IH; [by apply consistent_step|by apply settled_step].
Qed.

(** One event leaves every job in the registry, with its transcript. *)
Lemma step_transcript (s : @Server St) (ev : event) (j : pystr) (job : Job) :
  consistent uuid4 s → JOBS s !! j = Some job →
  ∃ job', JOBS (fst (step s ev)) !! j = Some job' ∧
          job_transcript job' = job_transcript job.
Proof.
  intros Hcons Hj.
  destruct ev as [ct filename payload lang whisper|k outcome|j']; simpl.
  - pose proof (upload_video_cases generate_content uuid4
                  ct filename payload lang whisper s) as Hcases.
    destruct (upload_video ct filename payload lang whisper s) as [r s'].
    simpl in *.
    destruct Hcases as [(_ & -> & _)|(tr & v & srt & _ & -> & _)]; [eauto|].
    rewrite lookup_insert_ne; [eauto|].
    intros Heq. rewrite <- Heq in Hj.
    by rewrite (next_uuid_fresh uuid4 uuid4_inj s Hcons) in Hj.
  - destruct (tasks s !! k) as [t|] eqn:Ek; [|eauto].
    destruct Hcons as (_ & Htasks & _).
    destruct (Htasks t (list_elem_of_lookup_2 _ _ _ Ek))
      as (job0 & Hjob0 & _).
    rewrite (background_burn_spec decode _ _ _ _ _ _ _ Hjob0).
    cbn [JOBS fst]. rewrite lookup_insert. case_decide as Hid.
    + subst j. assert (job0 = job) as -> by congruence.
      destruct (Pipeline.burn_subtitles _ _ _ _ _ _); eauto.
    + eauto.
  - eauto.
Qed.

Lemma run_transcript (evs : list event) : ∀ (s : @Server St) j job,
  consistent uuid4 s → JOBS s !! j = Some job →
  ∃ job', JOBS (run s evs) !! j = Some job' ∧
          job_transcript job' = job_transcript job.
Proof.
  induction evs as [|ev evs IH]; intros s j job Hc Hj; [eauto|].
  destruct (step_transcript s ev j job Hc Hj) as (job1 & Hj1 & Ht1).
  destruct (IH _ _ _ (consistent_step _ _ _ uuid4_inj s ev Hc) Hj1)
    as (job2 & Hj2 & Ht2).
  exists job2. split; [done|congruence].
Qed.

Lemma issued_length_cons (r : response) rs :
  length (issued (r :: rs)) =
  (match r with RespJobId _ => 1 | _ => 0 end + length (issued rs))%nat.
Proof. unfold issued. simpl. by destruct r. Qed.

Lemma run_size (evs : list event) : ∀ s : @Server St,
  consistent uuid4 s →
  size (JOBS (run s evs)) =
  (size (JOBS s) + length (issued (upload_responses s evs)))%nat.
Proof.
  induction evs as [|ev evs IH]; intros s Hc; [simpl; lia|].
  simpl run. rewrite IH by (by apply consistent_step).
  rewrite upload_responses_cons, issued_app, length_app.
  assert (size (JOBS (fst (step s ev))) =
          (size (JOBS s) +
           length (issued
             match ev with
             | EvUpload ct filename payload lang whisper =>
                 [fst (upload_video ct filename payload lang whisper s)]
             | _ => []
             end))%nat) as ->; [|lia].
  destruct ev as [ct filename payload lang whisper|k outcome|j']; simpl.
  - pose proof (upload_video_cases generate_content uuid4
                  ct filename payload lang whisper s) as Hcases.
    destruct (upload_video ct filename payload lang whisper s) as [r s'].
    simpl in *.
    destruct Hcases as [((c & d & ->) & -> & _)|
                        (tr & v & srt & -> & -> & _)]; [simpl; lia|].
    rewrite map_size_insert_None
      by (by apply (next_uuid_fresh uuid4 uuid4_inj)).
    simpl. lia.
  - destruct (tasks s !! k) as [t|] eqn:Ek; [|simpl; lia].
    destruct Hc as (_ & Htasks & _).
    destruct (Htasks t (list_elem_of_lookup_2 _ _ _ Ek))
      as (job0 & Hjob0 & _).
    rewrite (background_burn_spec decode _ _ _ _ _ _ _ Hjob0).
    cbn [JOBS fst]. rewrite map_size_insert_Some by done. simpl. lia.
  - simpl. lia.
Qed.

End RegistryInvariants.

(* ===================================================================== *)
(** * Uploads and the records of the jobs *)
(* ===================================================================== *)

Section NumberingUndone.
Import Py Pipeline.

Lemma numbered_lines_undone (chunk : list pystr) : ∀ idx,
  0 ≤ idx → List.map strip_number (numbered_lines idx chunk) = chunk.
Proof.
  induction chunk as [|t chunk IH]; intros idx Hidx; [done|].
  cbn [numbered_lines List.map]. rewrite IH by lia. f_equal.
  rewrite str_of_int_nonneg by lia.
  destruct (dec_spec (idx + 1) ltac:(lia)) as (Hdig & Hne & _).
  change (dec (idx + 1) ++ py ". " ++ t)
    with (dec (idx + 1) ++ DOT :: SP :: t).
  by destruct (strip_number_token (dec (idx + 1)) t Hdig Hne).
Qed.

End NumberingUndone.

(** The number-stripping step undoes the numbering of the prompt: each
    numbered line of a chunk gives back the text it was made from. *)
Theorem numbering_is_undone (chunk : list pystr) :
  List.map Pipeline.strip_number (Pipeline.numbered_lines 0 chunk) = chunk.
Proof. apply numbered_lines_undone. lia. Qed.

Section UploadOutcomes.
Import Py Main.

Lemma startswith_nonempty (s prefix : pystr) :
  prefix ≠ [] → startswith s prefix = true → nonempty s = true.
Proof. destruct prefix; [done|]. by destruct s. Qed.

End UploadOutcomes.

(** The three ways an upload ends.  A content type that does not start
    with "video" gives the 400 and changes nothing at all; a failed
    transcription gives a 500 and neither a job nor a task; otherwise
    the answer is the next identifier, and one burning job with neither
    output nor error and one task for it, on the stored upload and in
    the language asked for, are added. *)
Theorem upload_outcomes
    {St : Type} (generate_content : St -> pystr -> result pystr * St)
    (uuid4 : nat -> pystr) (ct : option pystr) (filename payload lang : pystr)
    (whisper : result (list Segment)) (s : @Main.Server St) :
  let r := fst (Main.upload_video generate_content uuid4 ct filename payload
                  lang whisper s) in
  let s' := snd (Main.upload_video generate_content uuid4 ct filename payload
                   lang whisper s) in
  match r with
  | RespJobId j =>
      j = uuid4 (Main.uuid_calls s) ∧
      (∃ transcript,
         Main.JOBS s' =
           <[j := mkJob Main.BURNING transcript None None]> (Main.JOBS s)) ∧
      (∃ srt_path,
         Main.tasks s' =
           Main.tasks s ++
           [mkTask j (Main.STORAGE_DIR // (j ++ py "_" ++ filename))
              srt_path lang])
  | HTTPError code detail =>
      Main.JOBS s' = Main.JOBS s ∧ Main.tasks s' = Main.tasks s ∧
      (code = 400 ∨ code = 500) ∧ (code = 400 → s' = s)
  | RespJob _ => False
  end ∧
  (match ct with
   | Some c => Py.startswith c (py "video")
   | None => false
   end = false ↔ r = HTTPError 400 (py "Please upload a video file")).
Proof.
  unfold Main.upload_video.
  destruct ct as [c|]; simpl.
  - destruct (Py.startswith c (py "video")) eqn:Ec.
    + rewrite (startswith_nonempty c (py "video")) by done. simpl.
      destruct (Pipeline.transcribe_video _ _ _ _ _ _ _)
        as [[[[segments srt]|e] st'] fs']; simpl.
      * split; [eauto 10|]. split; intros; discriminate.
      * split; [|split; intros; discriminate].
        split; [done|]. split; [done|]. split; [by right|].
        intros; discriminate.
    + rewrite andb_false_r. simpl. split; [|done].
      split; [done|]. split; [done|]. split; [by left|done].
  - split; [|done].
    split; [done|]. split; [done|]. split; [by left|done].
Qed.

Section Coherence.
Import Py Main Registry Records.
Context {St : Type}.
Variable generate_content : St -> pystr -> result pystr * St.
Variable decode : list Byte.byte -> result pystr.
Variable uuid4 : nat -> pystr.

Local Abbreviation run := (Main.run generate_content decode uuid4).
Local Abbreviation upload_responses :=
  (Main.upload_responses generate_content decode uuid4).

(** As long as [uuid4] never returns the same identifier twice, every
    record of every state the process reaches is burning with neither
    output nor error, or done with an output and no error, or error
    with an error text and no output. *)
Theorem job_records_are_coherent
    (st : St) (fs : files) (evs : list event) (job_id : pystr) (job : Job) :
  (∀ n m, uuid4 n = uuid4 m → n = m) →
  JOBS (run (init st fs) evs) !! job_id = Some job →
  record_ok job.
Proof.
  intros Hinj Hjob.
  destruct (reachable generate_content decode uuid4 Hinj evs (init st fs)
              (consistent_init uuid4 st fs) (settled_init st fs))
    as [_ [Hrec _]].
  by eapply Hrec.
Qed.

(** As long as [uuid4] never returns the same identifier twice, a job
    is burning exactly while a task for it waits to run, and no two
    waiting tasks belong to one job. *)
Theorem burning_while_the_task_waits
    (st : St) (fs : files) (evs : list event) (job_id : pystr) (job : Job) :
  (∀ n m, uuid4 n = uuid4 m → n = m) →
  JOBS (run (init st fs) evs) !! job_id = Some job →
  (job_status_of job = BURNING ↔
   job_id ∈ task_job <$> tasks (run (init st fs) evs)) ∧
  NoDup (task_job <$> tasks (run (init st fs) evs)).
Proof.
  intros Hinj Hjob.
  destruct (reachable generate_content decode uuid4 Hinj evs (init st fs)
              (consistent_init uuid4 st fs) (settled_init st fs))
    as [(_ & Htasks & Hnodup) [_ Hburn]].
  split; [|done]. split.
  - by apply Hburn.
  - intros Hin. apply list_elem_of_fmap in Hin as (t & -> & Ht).
    destruct (Htasks t Ht) as (job' & Hjob' & Hst). congruence.
Qed.

(** As long as [uuid4] never returns the same identifier twice, a job
    that is in the registry stays in it, with the transcript it was
    created with. *)
Theorem jobs_persist_with_their_transcript
    (st : St) (fs : files) (evs1 evs2 : list event) (job_id : pystr)
    (job : Job) :
  (∀ n m, uuid4 n = uuid4 m → n = m) →
  JOBS (run (init st fs) evs1) !! job_id = Some job →
  ∃ job', JOBS (run (init st fs) (evs1 ++ evs2)) !! job_id = Some job' ∧
          job_transcript job' = job_transcript job.
Proof.
  intros Hinj Hjob. rewrite run_app.
  apply (run_transcript generate_content decode uuid4 Hinj); [|done].
  apply consistent_run; [done|apply consistent_init].
Qed.

(** As long as [uuid4] never returns the same identifier twice, the
    registry holds as many jobs as uploads were answered with an
    identifier. *)
Theorem one_job_per_accepted_upload
    (st : St) (fs : files) (evs : list event) :
  (∀ n m, uuid4 n = uuid4 m → n = m) →
  size (JOBS (run (init st fs) evs)) =
  length (issued (upload_responses (init st fs) evs)).
Proof.
  intros Hinj.
  rewrite (run_size generate_content decode uuid4 Hinj evs (init st fs)
             (consistent_init uuid4 st fs)).
  simpl. by rewrite map_size_empty.
Qed.

End Coherence.

(* ===================================================================== *)
(** * Instances of the further properties *)
(* ===================================================================== *)

Section ExtraInstances.
Import Py Pipeline Samples Samples2.

Lemma echoed_blocks_instance :
  chunk_responses echo tt (py "en") (chunks (List.map seg_text [seg1; seg2]))
    = (Ok (List.map numbered (chunks (List.map seg_text [seg1; seg2]))), tt) ∧
  Forall (fun seg => LF ∉ seg_text seg) [seg1; seg2] ∧
  ∃ segments',
    translate_segments echo tt (py "en") [seg1; seg2] = (Ok segments', tt) ∧
    List.map seg_text segments' =
      List.map (fun seg => rstrip_with isspace_char (seg_text seg))
        [seg1; seg2].
Proof.
  assert (H1 : chunk_responses echo tt (py "en")
                 (chunks (List.map seg_text [seg1; seg2]))
               = (Ok (List.map numbered
                        (chunks (List.map seg_text [seg1; seg2]))), tt))
    by (vm_compute; reflexivity).
  assert (H2 : Forall (fun seg => LF ∉ seg_text seg) [seg1; seg2])
    by (repeat constructor; not_in_constant).
  split; [exact H1|]. split; [exact H2|].
  exact (echoed_blocks_restore_the_texts echo tt (py "en") [seg1; seg2] tt
           H1 H2).
Defined.

Lemma original_text_instance :
  translate_segments scripted [Ok (py "1. Hello")] (py "en") [seg1; seg2]
    = (Ok translated12, []) ∧
  length translated12 = length [seg1; seg2] ∧
  ∀ i seg, [seg1; seg2] !! i = Some seg →
    ∃ seg', translated12 !! i = Some seg' ∧
      seg_original_text seg' = Some (seg_text seg) ∧
      seg_start seg' = seg_start seg ∧ seg_end seg' = seg_end seg.
Proof.
  assert (H1 : translate_segments scripted [Ok (py "1. Hello")] (py "en")
                 [seg1; seg2] = (Ok translated12, []))
    by (vm_compute; reflexivity).
  split; [exact H1|].
  exact (translation_keeps_original_text scripted [Ok (py "1. Hello")]
           (py "en") [seg1; seg2] translated12 [] H1).
Defined.

Lemma failed_translation_instance :
  nothing_to_translate [seg1] = false ∧
  recover failing tt (py "en") (List.map seg_text [seg1])
    = (Raise (mkExn RuntimeError
                (py "Gemini translation failed: quota exceeded")), tt) ∧
  transcribe_video failing video_mov [py "storage"] (py "en")
    (Ok [seg1]) tt ∅
    = (Raise (mkExn RuntimeError
                (py "Gemini translation failed: quota exceeded")), tt, ∅) ∧
  exn_class (mkExn RuntimeError
               (py "Gemini translation failed: quota exceeded"))
    = RuntimeError ∧
  ∃ first,
    exn_msg (mkExn RuntimeError
               (py "Gemini translation failed: quota exceeded"))
    = py "Gemini translation failed: " ++ first.
Proof.
  assert (H1 : nothing_to_translate [seg1] = false)
    by (vm_compute; reflexivity).
  assert (H2 : recover failing tt (py "en") (List.map seg_text [seg1])
               = (Raise (mkExn RuntimeError
                           (py "Gemini translation failed: quota exceeded")),
                  tt))
    by (vm_compute; reflexivity).
  split; [exact H1|]. split; [exact H2|].
  exact (failed_translation_writes_nothing failing video_mov [py "storage"]
           (py "en") [seg1] tt tt ∅ _ H1 H2).
Defined.

Lemma single_lines_instance :
  recover scripted [Ok (py "Hello" ++ [LF] ++ py "World")] (py "en")
    (List.map seg_text [seg1]) = (Ok [py "Hello"; py "World"], []) ∧
  (length [seg1] ≤ length [py "Hello"; py "World"])%nat ∧
  ∃ segments',
    translate_segments scripted [Ok (py "Hello" ++ [LF] ++ py "World")]
      (py "en") [seg1] = (Ok segments', []) ∧
    Forall (fun seg => LF ∉ seg_text seg) segments'.
Proof.
  assert (H1 : recover scripted [Ok (py "Hello" ++ [LF] ++ py "World")]
                 (py "en") (List.map seg_text [seg1])
               = (Ok [py "Hello"; py "World"], []))
    by (vm_compute; reflexivity).
  assert (H2 : (length [seg1] ≤ length [py "Hello"; py "World"])%nat)
    by (simpl; lia).
  split; [exact H1|]. split; [exact H2|].
  exact (translated_captions_are_single_lines scripted
           [Ok (py "Hello" ++ [LF] ++ py "World")] (py "en") [seg1]
           [py "Hello"; py "World"] [] H1 H2).
Defined.

Lemma timestamps_instance :
  srt_ms (seconds 3 2) = Ok 1500 ∧ srt_ms (seconds 15 10) = Ok 1500 ∧
  0 ≤ 1500 ∧ 0 ≤ 1500 ∧
  (_srt_time (seconds 3 2) = _srt_time (seconds 15 10) → 1500 = 1500) ∧
  (1500 < 360000000 →
   ∃ s, _srt_time (seconds 3 2) = Ok s ∧ length s = 12%nat).
Proof.
  assert (H1 : srt_ms (seconds 3 2) = Ok 1500) by (vm_compute; reflexivity).
  assert (H2 : srt_ms (seconds 15 10) = Ok 1500) by (vm_compute; reflexivity).
  assert (H3 : 0 ≤ 1500) by lia.
  split; [exact H1|]. split; [exact H2|]. split; [exact H3|].
  split; [exact H3|].
  exact (timestamps_are_unambiguous (seconds 3 2) (seconds 15 10) 1500 1500
           H1 H2 H3 H3).
Defined.

Lemma negative_time_instance :
  srt_ms minus_1_5 = Ok (-1500) ∧ -1500 < 0 ∧
  ∃ rest, _srt_time minus_1_5 = Ok (MINUS :: rest).
Proof.
  assert (H1 : srt_ms minus_1_5 = Ok (-1500)) by (vm_compute; reflexivity).
  assert (H2 : -1500 < 0) by lia.
  split; [exact H1|]. split; [exact H2|].
  exact (negative_time_is_rendered minus_1_5 (-1500) H1 H2).
Defined.

Example srt_time_minus_1_5 :
  _srt_time minus_1_5 = Ok (py "-1:59:58,500").
Proof. vm_compute; reflexivity. Qed.

Lemma write_stops_instance :
  snd (write_blocks 1 [seg1] []) = None ∧
  srt_block (1 + Z.of_nat (length [seg1])) seg_bad
    = Raise (mkExn ValueError (py "cannot convert float NaN to integer")) ∧
  _write_srt ([seg1] ++ seg_bad :: [seg2]) srt_en ∅ =
    (Raise (mkExn ValueError (py "cannot convert float NaN to integer")),
     <[srt_en := fst (write_blocks 1 [seg1] [])]> ∅).
Proof.
  assert (H1 : snd (write_blocks 1 [seg1] []) = None)
    by (vm_compute; reflexivity).
  assert (H2 : srt_block (1 + Z.of_nat (length [seg1])) seg_bad
               = Raise (mkExn ValueError
                          (py "cannot convert float NaN to integer")))
    by (vm_compute; reflexivity).
  split; [exact H1|]. split; [exact H2|].
  exact (write_stops_at_the_first_bad_time [seg1] seg_bad [seg2] srt_en ∅ _
           H1 H2).
Defined.

Lemma touches_one_file_instance :
  video_mov ≠ [py "storage"] // srt_name video_mov (py "en") ∧
  snd (transcribe_video scripted video_mov [py "storage"] (py "en")
         (Ok [seg1]) [Ok (py "1. Hello")] video_only) !! video_mov
    = video_only !! video_mov.
Proof.
  assert (H1 : video_mov ≠ [py "storage"] // srt_name video_mov (py "en")).
  { intros H. vm_compute in H. discriminate H. }
  split; [exact H1|].
  exact (transcribe_video_touches_one_file scripted video_mov [py "storage"]
           (py "en") (Ok [seg1]) [Ok (py "1. Hello")] video_only video_mov H1).
Defined.


End ExtraInstances.

Section RegistryInstances.
Import Py Main Samples Samples2.

Lemma status_404_instance :
  (uuid_of 5 ∉ Records.issued
     (upload_responses scripted decode_ascii uuid_of
        (init [Ok (py "1. Hello")] ∅) [an_upload])) ∧
  job_status (uuid_of 5)
    (run scripted decode_ascii uuid_of (init [Ok (py "1. Hello")] ∅)
       [an_upload])
    = HTTPError 404 (py "job not found").
Proof.
  assert (H1 : uuid_of 5 ∉ Records.issued
                 (upload_responses scripted decode_ascii uuid_of
                    (init [Ok (py "1. Hello")] ∅) [an_upload]))
    by not_in_constant.
  split; [exact H1|].
  exact (status_only_for_issued_jobs scripted decode_ascii uuid_of
           [Ok (py "1. Hello")] ∅ [an_upload] (uuid_of 5) H1).
Defined.

Lemma background_burn_instance :
  match one_job !! uuid_of 0 with
  | None =>
      _background_burn decode_ascii (uuid_of 0) video_mov srt_en (py "en")
        ffmpeg_failed one_job = (Raise (KeyError (uuid_of 0)), one_job)
  | Some _ =>
      fst (_background_burn decode_ascii (uuid_of 0) video_mov srt_en
             (py "en") ffmpeg_failed one_job) = Ok tt
  end ∧
  ∀ j, j ≠ uuid_of 0 →
    snd (_background_burn decode_ascii (uuid_of 0) video_mov srt_en
           (py "en") ffmpeg_failed one_job) !! j = one_job !! j.
Proof.
  exact (background_burn_touches_one_job decode_ascii (uuid_of 0) video_mov
           srt_en (py "en") ffmpeg_failed one_job).
Defined.

Example background_burn_missing_job :
  _background_burn decode_ascii (uuid_of 3) video_mov srt_en (py "en")
    EncDone one_job = (Raise (KeyError (uuid_of 3)), one_job).
Proof. vm_compute; reflexivity. Qed.

Lemma upload_outcomes_instance :
  let r := fst (upload_video scripted uuid_of (Some (py "application/pdf"))
                  (py "a.pdf") [] (py "en") (Ok [seg1])
                  (init [Ok (py "1. Hello")] ∅)) in
  let s' := snd (upload_video scripted uuid_of (Some (py "application/pdf"))
                   (py "a.pdf") [] (py "en") (Ok [seg1])
                   (init [Ok (py "1. Hello")] ∅)) in
  match r with
  | RespJobId j =>
      j = uuid_of (uuid_calls (init [Ok (py "1. Hello")] ∅)) ∧
      (∃ transcript,
         JOBS s' =
           <[j := mkJob BURNING transcript None None]>
             (JOBS (init [Ok (py "1. Hello")] ∅))) ∧
      (∃ srt_path,
         tasks s' =
           tasks (init [Ok (py "1. Hello")] ∅) ++
           [mkTask j (STORAGE_DIR // (j ++ py "_" ++ py "a.pdf"))
              srt_path (py "en")])
  | HTTPError code detail =>
      JOBS s' = JOBS (init [Ok (py "1. Hello")] ∅) ∧
      tasks s' = tasks (init [Ok (py "1. Hello")] ∅) ∧
      (code = 400 ∨ code = 500) ∧
      (code = 400 → s' = init [Ok (py "1. Hello")] ∅)
  | RespJob _ => False
  end ∧
  (match Some (py "application/pdf") with
   | Some c => startswith c (py "video")
   | None => false
   end = false ↔ r = HTTPError 400 (py "Please upload a video file")).
Proof.
  exact (upload_outcomes scripted uuid_of (Some (py "application/pdf"))
           (py "a.pdf") [] (py "en") (Ok [seg1])
           (init [Ok (py "1. Hello")] ∅)).
Defined.

Example upload_pdf_is_rejected :
  upload_video scripted uuid_of (Some (py "application/pdf")) (py "a.pdf") []
    (py "en") (Ok [seg1]) (init [Ok (py "1. Hello")] ∅)
  = (HTTPError 400 (py "Please upload a video file"),
     init [Ok (py "1. Hello")] ∅).
Proof. vm_compute; reflexivity. Qed.

Lemma job_records_instance :
  (∀ n m, uuid_of n = uuid_of m → n = m) ∧
  JOBS (run scripted decode_ascii uuid_of (init [Ok (py "1. Hello")] ∅)
          failed_run) !! uuid_of 0 = Some failed_job ∧
  Records.record_ok failed_job.
Proof.
  assert (H1 : JOBS (run scripted decode_ascii uuid_of
                       (init [Ok (py "1. Hello")] ∅) failed_run) !! uuid_of 0
               = Some failed_job) by (vm_compute; reflexivity).
  split; [exact uuid_of_inj|]. split; [exact H1|].
  exact (job_records_are_coherent scripted decode_ascii uuid_of
           [Ok (py "1. Hello")] ∅ failed_run (uuid_of 0) failed_job
           uuid_of_inj H1).
Defined.

Lemma burning_instance :
  (∀ n m, uuid_of n = uuid_of m → n = m) ∧
  JOBS (run scripted decode_ascii uuid_of (init [Ok (py "1. Hello")] ∅)
          [an_upload]) !! uuid_of 0 = Some burning_job ∧
  (job_status_of burning_job = BURNING ↔
   uuid_of 0 ∈ task_job <$>
     tasks (run scripted decode_ascii uuid_of (init [Ok (py "1. Hello")] ∅)
              [an_upload])) ∧
  NoDup (task_job <$>
           tasks (run scripted decode_ascii uuid_of
                    (init [Ok (py "1. Hello")] ∅) [an_upload])).
Proof.
  assert (H1 : JOBS (run scripted decode_ascii uuid_of
                       (init [Ok (py "1. Hello")] ∅) [an_upload]) !! uuid_of 0
               = Some burning_job) by (vm_compute; reflexivity).
  split; [exact uuid_of_inj|]. split; [exact H1|].
  exact (burning_while_the_task_waits scripted decode_ascii uuid_of
           [Ok (py "1. Hello")] ∅ [an_upload] (uuid_of 0) burning_job
           uuid_of_inj H1).
Defined.

Lemma jobs_persist_instance :
  (∀ n m, uuid_of n = uuid_of m → n = m) ∧
  JOBS (run scripted decode_ascii uuid_of (init [Ok (py "1. Hello")] ∅)
          [an_upload]) !! uuid_of 0 = Some burning_job ∧
  ∃ job',
    JOBS (run scripted decode_ascii uuid_of (init [Ok (py "1. Hello")] ∅)
            ([an_upload] ++ [EvRunTask 0 ffmpeg_failed; an_upload]))
      !! uuid_of 0 = Some job' ∧
    job_transcript job' = job_transcript burning_job.
Proof.
  assert (H1 : JOBS (run scripted decode_ascii uuid_of
                       (init [Ok (py "1. Hello")] ∅) [an_upload]) !! uuid_of 0
               = Some burning_job) by (vm_compute; reflexivity).
  split; [exact uuid_of_inj|]. split; [exact H1|].
  exact (jobs_persist_with_their_transcript scripted decode_ascii uuid_of
           [Ok (py "1. Hello")] ∅ [an_upload]
           [EvRunTask 0 ffmpeg_failed; an_upload] (uuid_of 0) burning_job
           uuid_of_inj H1).
Defined.

Lemma one_job_per_upload_instance :
  (∀ n m, uuid_of n = uuid_of m → n = m) ∧
  size (JOBS (run scripted decode_ascii uuid_of
                (init [Ok (py "1. Hello")] ∅) failed_run)) =
  length (Records.issued
            (upload_responses scripted decode_ascii uuid_of
               (init [Ok (py "1. Hello")] ∅) failed_run)).
Proof.
  split; [exact uuid_of_inj|].
  exact (one_job_per_accepted_upload scripted decode_ascii uuid_of
           [Ok (py "1. Hello")] ∅ failed_run uuid_of_inj).
Defined.

End RegistryInstances.
